(** * Bookshelf: token lifecycle, password reset and the trust adapter

    A shallow embedding of the authentication service
    ([auth-service/routers/users.py], with [auth.py] and [models.py]) and of the
    book service's [get_current_user] dependency
    ([book-service/routers/books.py]), followed by the properties of the
    token life cycle, of the OTP flow and of the trust boundary.

    Conventions.
    - A [datetime] is a [Z]: microseconds since the epoch (the resolution of
      [datetime.utcnow()]).  A handler that reads the clock several times takes
      a [clock]: [clk k] is its k-th reading, in program order.
    - A handler returns a [result]: its normal return value, the
      [HTTPException] it raised, or the Python exception that escaped it
      (answered by the framework with status 500).
    - A handler that touches the database takes the committed store and
      returns the committed store after the request: a request that raises
      before [db.commit()] succeeds leaves it unchanged (the session is
      discarded).
    - Functions of third-party libraries (hashlib, passlib, python-jose) and
      the environment's settings are the fields of the class [Externals]; what
      a proof needs from them is an explicit hypothesis of the theorem. *)

From Stdlib Require Import ZArith List String Ascii Bool Lia DecimalString.
From Stdlib Require DecimalPos DecimalZ.
Import ListNotations.

Local Open Scope string_scope.
Local Open Scope Z_scope.

(* ===================================================================== *)
(** ** Python values, dictionaries and outcomes *)
(* ===================================================================== *)

(** The JSON-representable scalars that occur as claims of a token. *)
Inductive pyval : Type :=
| PNone
| PBool (b : bool)
| PInt (z : Z)
| PStr (s : string).

Definition pyval_eqb (a b : pyval) : bool :=
  match a, b with
  | PNone, PNone => true
  | PBool x, PBool y => Bool.eqb x y
  | PInt x, PInt y => Z.eqb x y
  | PStr x, PStr y => String.eqb x y
  (* Python: True == 1 and False == 0 *)
  | PBool x, PInt y | PInt y, PBool x => Z.eqb (if x then 1 else 0) y
  | _, _ => false
  end.

(** A [dict] with string keys, in insertion order. *)
Definition dict : Type := list (string * pyval).

Fixpoint dict_lookup (d : dict) (k : string) : option pyval :=
  match d with
  | [] => None
  | (k', v) :: d' => if String.eqb k' k then Some v else dict_lookup d' k
  end.

(** [d.get(k)]: the value, or [None] when the key is absent. *)
Definition dict_get (d : dict) (k : string) : pyval :=
  match dict_lookup d k with
  | Some v => v
  | None => PNone
  end.

(** [d.update({k: v})]. *)
Fixpoint dict_update (d : dict) (k : string) (v : pyval) : dict :=
  match d with
  | [] => [(k, v)]
  | (k', v') :: d' =>
      if String.eqb k' k then (k, v) :: d' else (k', v') :: dict_update d' k v
  end.

(** Truth value of an [Optional[str]]: [None] and the empty string are false. *)
Definition truthy_str (o : option string) : bool :=
  match o with
  | None => false
  | Some s => negb (String.eqb s "")
  end.

(** [x or default] for an [Optional[str]]. *)
Definition str_or (o : option string) (default : string) : string :=
  match o with
  | Some s => if String.eqb s "" then default else s
  | None => default
  end.

Inductive exn : Type :=
| ValueError
| TypeError
| IntegrityError
| JSONDecodeError
| JWTError.

Inductive result (A : Type) : Type :=
| Ok (a : A)
| HTTPException (status_code : Z) (detail : string)
| Uncaught (e : exn).

Arguments Ok {A} a.
Arguments HTTPException {A} status_code detail.
Arguments Uncaught {A} e.

Definition is_ok {A} (r : result A) : bool :=
  match r with Ok _ => true | _ => false end.

(** The status code of the response a failing outcome produces; [None] for a
    normal return (whose code is the route's own: 200, 201 or 204). *)
Definition error_status {A} (r : result A) : option Z :=
  match r with
  | Ok _ => None
  | HTTPException c _ => Some c
  | Uncaught _ => Some 500
  end.

(** The body of an error response: [{"detail": ...}] for an [HTTPException],
    the framework's fixed text for an uncaught exception. *)
Definition error_body {A} (r : result A) : option string :=
  match r with
  | Ok _ => None
  | HTTPException _ d => Some d
  | Uncaught _ => Some "Internal Server Error"
  end.

Definition HTTP_400_BAD_REQUEST : Z := 400.
Definition HTTP_401_UNAUTHORIZED : Z := 401.
Definition HTTP_404_NOT_FOUND : Z := 404.
Definition HTTP_409_CONFLICT : Z := 409.
Definition HTTP_502_BAD_GATEWAY : Z := 502.
Definition HTTP_503_SERVICE_UNAVAILABLE : Z := 503.

(* --------------------------------------------------------------------- *)
(** *** [int(x)] *)

(** The ASCII characters Python's [str] methods count as whitespace. *)
Definition is_py_space (c : ascii) : bool :=
  let n := nat_of_ascii c in
  (Nat.eqb n 32 || (Nat.leb 9 n && Nat.leb n 13)
   || (Nat.leb 28 n && Nat.leb n 31))%bool.

(** The characters [int] drops around a number, in a [str] of code points
    below 256: tab to carriage return and the space, and the two Unicode
    spaces above 127, U+0085 and U+00A0.  The separators U+001C to U+001F,
    whitespace for [str.split], are none for [int]. *)
Definition is_int_space (c : ascii) : bool :=
  let n := nat_of_ascii c in
  (Nat.eqb n 32 || (Nat.leb 9 n && Nat.leb n 13)
   || Nat.eqb n 133 || Nat.eqb n 160)%bool.

Fixpoint lstrip (s : string) : string :=
  match s with
  | String c r => if is_int_space c then lstrip r else s
  | EmptyString => EmptyString
  end.

Fixpoint string_rev_onto (s acc : string) : string :=
  match s with
  | EmptyString => acc
  | String c r => string_rev_onto r (String c acc)
  end.

Definition string_rev (s : string) : string := string_rev_onto s EmptyString.

Definition strip (s : string) : string :=
  string_rev (lstrip (string_rev (lstrip s))).

Definition digit_of (c : ascii) : option Z :=
  let n := nat_of_ascii c in
  if (Nat.leb 48 n && Nat.leb n 57)%bool then Some (Z.of_nat n - 48) else None.

(** Decimal digits, single underscores allowed between two digits. *)
Fixpoint parse_digits (acc : Z) (after_digit : bool) (s : string) : option Z :=
  match s with
  | EmptyString => if after_digit then Some acc else None
  | String c r =>
      if Ascii.eqb c "_"%char
      then (if after_digit then parse_digits acc false r else None)
      else match digit_of c with
           | Some d => parse_digits (10 * acc + d) true r
           | None => None
           end
  end.

(** [sys.get_int_max_str_digits()] as the interpreter starts: [int] refuses
    a text of more digits with [ValueError]. *)
Definition int_max_str_digits : Z := 4300.

Fixpoint count_digits (s : string) : Z :=
  match s with
  | EmptyString => 0
  | String c r =>
      match digit_of c with
      | Some _ => 1 + count_digits r
      | None => count_digits r
      end
  end.

Definition int_of_digits (s : string) : option Z :=
  if int_max_str_digits <? count_digits s then None
  else parse_digits 0 false s.

(** [int(s)] for a [str] of code points below 256, base 10: surrounding
    whitespace is dropped, one sign is allowed; [None] stands for
    [ValueError]. *)
Definition int_of_str (s : string) : option Z :=
  match strip s with
  | String "+"%char r => int_of_digits r
  | String "-"%char r => option_map Z.opp (int_of_digits r)
  | t => int_of_digits t
  end.

Definition py_int (v : pyval) : result Z :=
  match v with
  | PNone => Uncaught TypeError
  | PBool b => Ok (if b then 1 else 0)
  | PInt z => Ok z
  | PStr s => match int_of_str s with
              | Some z => Ok z
              | None => Uncaught ValueError
              end
  end.

(* --------------------------------------------------------------------- *)
(** *** Time *)

Definition datetime : Type := Z.
Definition clock : Type := nat -> datetime.

Definition timedelta_minutes (m : Z) : Z := m * 60 * 1000000.
Definition timedelta_days (d : Z) : Z := d * 86400 * 1000000.

(** [calendar.timegm(dt.utctimetuple())]: whole seconds since the epoch. *)
Definition timegm (dt : datetime) : Z := dt / 1000000.

(** [f"{n:06d}"]: sign, then decimal digits padded with zeros to width 6. *)
Fixpoint zfill (n : nat) (s : string) : string :=
  match n with
  | O => s
  | S n' => String "0"%char (zfill n' s)
  end.

Definition format_06d (n : Z) : string :=
  let digits := NilZero.string_of_uint (N.to_uint (Z.to_N (Z.abs n))) in
  if (n <? 0)%Z
  then String "-"%char (zfill (5 - String.length digits)%nat digits)
  else zfill (6 - String.length digits)%nat digits.

(* ===================================================================== *)
(** ** models.py *)
(* ===================================================================== *)

(** Table [users].  [u_id] is the column [id]. *)
Record User : Type := mkUser {
  u_id : Z;
  u_name : string;
  u_email : string;
  u_password : string;
  u_role : option string;
  u_reset_code_hash : option string;
  u_reset_code_expires_at : option datetime
}.

(** Table [refresh_tokens].  [rt_id] is the column [id], [rt_user_id] the
    column [user_id]; [token_hash] is declared [unique=True]. *)
Record RefreshToken : Type := mkRefreshToken {
  rt_id : Z;
  rt_user_id : Z;
  token_hash : string;
  expires_at : datetime;
  revoked : bool;
  created_at : datetime
}.

(** The committed content of the two tables, rows in insertion order. *)
Record DB : Type := mkDB {
  users : list User;
  refresh_tokens : list RefreshToken
}.

Definition empty_db : DB := mkDB [] [].

(** The primary key given to a new row: one more than the largest in use. *)
Definition next_id (ids : list Z) : Z := 1 + fold_right Z.max 0 ids.

(** [db.query(models.User).filter(models.User.email == e).first()] *)
Definition user_by_email (db : DB) (e : string) : option User :=
  find (fun u => String.eqb (u_email u) e) (users db).

(** [db.query(models.User).filter(models.User.id == i).first()] *)
Definition user_by_id (db : DB) (i : Z) : option User :=
  find (fun u => Z.eqb (u_id u) i) (users db).

(** [db.query(models.RefreshToken).filter(models.RefreshToken.token_hash == h).first()] *)
Definition token_by_hash (db : DB) (h : string) : option RefreshToken :=
  find (fun t => String.eqb (token_hash t) h) (refresh_tokens db).

(** The UPDATE a commit issues for a changed [User] object: by primary key. *)
Definition update_user (db : DB) (i : Z) (f : User -> User) : DB :=
  mkDB (map (fun u => if Z.eqb (u_id u) i then f u else u) (users db))
       (refresh_tokens db).

Definition set_revoked (t : RefreshToken) : RefreshToken :=
  mkRefreshToken (rt_id t) (rt_user_id t) (token_hash t) (expires_at t) true
                 (created_at t).

(** The UPDATE a commit issues for [db_token.revoked = True]: by primary
    key. *)
Definition revoke_token (db : DB) (i : Z) : DB :=
  mkDB (users db)
       (map (fun t => if Z.eqb (rt_id t) i then set_revoked t else t)
            (refresh_tokens db)).

(** [db.add(models.RefreshToken(...)); db.commit()]: the INSERT is refused
    with [IntegrityError] when the hash is already in the table (unique
    column); [None] stands for that refusal. *)
Definition add_refresh_token (db : DB) (user_id : Z) (h : string)
    (expiry : datetime) (now : datetime) : option DB :=
  if existsb (fun t => String.eqb (token_hash t) h) (refresh_tokens db)
  then None
  else Some (mkDB (users db)
                  (refresh_tokens db ++
                   [mkRefreshToken (next_id (map rt_id (refresh_tokens db)))
                                   user_id h expiry false now])).

(* ===================================================================== *)
(** ** auth.py *)
(* ===================================================================== *)

(** Library functions and settings the service is built on.
    - [sha256_hexdigest s] is [hashlib.sha256(s.encode("utf-8")).hexdigest()];
    - [pwd_hash salt p] is [pwd_context.hash(p)] when passlib draws [salt],
      [pwd_verify p h] is [pwd_context.verify(p, h)];
    - [jwt_encode claims key] is [jwt.encode(claims, key, algorithm="HS256")];
    - [jws_verify token key] is what [jwt.decode(token, key,
      algorithms=["HS256"])] does before it looks at the claims: it checks
      the structure and the signature and parses the payload, which must be
      a JSON object; [None] stands for [JWTError];
    - the rest are the settings read from the environment. *)
Class Externals : Type := {
  sha256_hexdigest : string -> string;
  pwd_hash : string -> string -> string;
  pwd_verify : string -> string -> bool;
  jwt_encode : dict -> string -> string;
  jws_verify : string -> string -> option dict;
  SECRET_KEY : string;
  ACCESS_TOKEN_EXPIRE_MINUTES : Z;
  REFRESH_TOKEN_EXPIRE_DAYS : Z;
  RESEND_API_KEY : option string;
  RESEND_FROM : option string
}.

Section Auth.
Context {ext : Externals}.

Definition hash_password (salt password : string) : string :=
  pwd_hash salt password.

Definition verify_password (password hash : string) : bool :=
  pwd_verify password hash.

(** [_create_token]: [jwt.encode] stores a [datetime] claim as [timegm]. *)
Definition _create_token (data : dict) (expires_delta : Z) (now : datetime)
    : string :=
  let expire := now + expires_delta in
  let payload := dict_update data "exp" (PInt (timegm expire)) in
  jwt_encode payload SECRET_KEY.

Definition create_access_token (user_id : Z) (role : string) (now : datetime)
    : string :=
  _create_token [("id", PInt user_id); ("role", PStr role); ("type", PStr "access")]
                (timedelta_minutes ACCESS_TOKEN_EXPIRE_MINUTES) now.

Definition create_refresh_token (user_id : Z) (role : string) (now : datetime)
    : string :=
  _create_token [("id", PInt user_id); ("role", PStr role); ("type", PStr "refresh")]
                (timedelta_days REFRESH_TOKEN_EXPIRE_DAYS) now.

(** [int(claims[k])] as [_validate_iat], [_validate_nbf] and [_validate_exp]
    read a time claim: [ValueError] becomes [JWTClaimsError], a [JWTError];
    [TypeError] escapes.  [None] when the claim is absent. *)
Definition time_claim (claims : dict) (k : string) : result (option Z) :=
  match dict_lookup claims k with
  | None => Ok None
  | Some v =>
      match py_int v with
      | Ok n => Ok (Some n)
      | Uncaught ValueError => Uncaught JWTError
      | Uncaught e => Uncaught e
      | HTTPException c d => HTTPException c d
      end
  end.

Definition has_claim (claims : dict) (k : string) : bool :=
  match dict_lookup claims k with
  | Some _ => true
  | None => false
  end.

(** The claim is absent or a [str]. *)
Definition absent_or_str (claims : dict) (k : string) : bool :=
  match dict_lookup claims k with
  | None | Some (PStr _) => true
  | Some _ => false
  end.

(** python-jose's [_validate_claims] as [jwt.decode] calls it here: every
    check on, nothing required, no leeway, and no [audience], [issuer],
    [subject] or [access_token] given.  In order: [iat] must read as a
    number; so must [nbf], which must not lie after the current second; so
    must [exp], which must not lie before it ([ExpiredSignatureError]); an
    [aud] claim matches no audience; [sub] and [jti] must be strings; an
    [at_hash] claim has nothing to be compared with.  Each failure is a
    [JWTError]. *)
Definition _validate_claims (claims : dict) (now : datetime) : result unit :=
  match time_claim claims "iat" with
  | Ok _ =>
      match time_claim claims "nbf" with
      | Ok nbf =>
          if match nbf with Some n => timegm now <? n | None => false end
          then Uncaught JWTError
          else
            match time_claim claims "exp" with
            | Ok exp =>
                if match exp with Some e => e <? timegm now | None => false end
                then Uncaught JWTError
                else if has_claim claims "aud" then Uncaught JWTError
                else if negb (absent_or_str claims "sub") then Uncaught JWTError
                else if negb (absent_or_str claims "jti") then Uncaught JWTError
                else if has_claim claims "at_hash" then Uncaught JWTError
                else Ok tt
            | HTTPException c d => HTTPException c d
            | Uncaught e => Uncaught e
            end
      | HTTPException c d => HTTPException c d
      | Uncaught e => Uncaught e
      end
  | HTTPException c d => HTTPException c d
  | Uncaught e => Uncaught e
  end.

(** [jwt.decode(token, key, algorithms=[ALGORITHM])]: the signature, then
    the claims. *)
Definition jwt_decode (token key : string) (now : datetime) : result dict :=
  match jws_verify token key with
  | None => Uncaught JWTError
  | Some claims =>
      match _validate_claims claims now with
      | Ok _ => Ok claims
      | HTTPException c d => HTTPException c d
      | Uncaught e => Uncaught e
      end
  end.

Definition decode_token (token : string) (now : datetime) : result dict :=
  match jwt_decode token SECRET_KEY now with
  | Uncaught JWTError =>
      HTTPException HTTP_401_UNAUTHORIZED "Invalid or expired token"
  | r => r
  end.

Definition hash_token (token : string) : string := sha256_hexdigest token.

(** [get_current_user_id], the dependency of the monolith's routes. *)
Definition get_current_user_id (credentials : string) (now : datetime)
    : result Z :=
  match decode_token credentials now with
  | Ok payload =>
      if negb (pyval_eqb (dict_get payload "type") (PStr "access"))
      then HTTPException HTTP_401_UNAUTHORIZED "Invalid token type"
      else
        match dict_get payload "id" with
        | PNone => HTTPException HTTP_401_UNAUTHORIZED "Token missing user id"
        | user_id =>
            match py_int user_id with
            | Ok n => Ok n
            | _ => HTTPException HTTP_401_UNAUTHORIZED "Invalid user id in token"
            end
        end
  | HTTPException c d => HTTPException c d
  | Uncaught e => Uncaught e
  end.


End Auth.

(* ===================================================================== *)
(** ** schemas.py *)
(* ===================================================================== *)

Record UserCreate : Type := mkUserCreate {
  uc_name : string;
  uc_email : string;
  uc_password : string
}.

Record UserLogin : Type := mkUserLogin {
  ul_email : string;
  ul_password : string
}.

Record TokenResponse : Type := mkTokenResponse {
  token : string;
  refresh_token_ : string
}.

Record RefreshTokenRequest : Type := mkRefreshTokenRequest {
  rr_refresh_token : string
}.

Record UserPublic : Type := mkUserPublic {
  up_id : Z;
  up_name : string;
  up_email : string;
  up_role : string
}.

Record ForgotPasswordRequest : Type := mkForgotPasswordRequest {
  fp_email : string
}.

Record ResetPasswordRequest : Type := mkResetPasswordRequest {
  rp_email : string;
  rp_otp : string;
  rp_new_password : string
}.

(** The body of a successful [/users/validate] response. *)
Record Validated : Type := mkValidated {
  v_user_id : Z;
  v_role : pyval
}.

(** What an [httpx] call comes to: [httpx.RequestError] was raised, or a
    response arrived. *)
Inductive httpx_outcome (B : Type) : Type :=
| RequestError
| Response (status_code : Z) (body : B).

Arguments RequestError {B}.
Arguments Response {B} status_code body.

(* ===================================================================== *)
(** ** routers/users.py *)
(* ===================================================================== *)

Section Users.
Context {ext : Externals}.

(** [_send_email]; [net] is what the POST to the mail provider comes to
    (the body is [response.text]).  Nothing is sent when the settings are
    incomplete. *)
Definition _send_email (to_email subject body : string)
    (net : httpx_outcome string) : result unit :=
  if (negb (truthy_str RESEND_API_KEY) || negb (truthy_str RESEND_FROM))%bool
  then Ok tt
  else
    match net with
    | Response status_code _ =>
        if (negb (status_code =? 200) && negb (status_code =? 201))%bool
        then HTTPException HTTP_502_BAD_GATEWAY "Failed to send email."
        else Ok tt
    | RequestError =>
        HTTPException HTTP_502_BAD_GATEWAY "Email service communication error"
    end.

(** [register]; [salt] is the salt passlib draws. *)
Definition register (user : UserCreate) (salt : string) (db : DB)
    : result UserPublic * DB :=
  match user_by_email db (uc_email user) with
  | Some _ => (HTTPException HTTP_409_CONFLICT "Email already registered", db)
  | None =>
      let hashed := hash_password salt (uc_password user) in
      let new_user :=
        mkUser (next_id (map u_id (users db))) (uc_name user) (uc_email user)
               hashed (Some "user") None None in
      (Ok (mkUserPublic (u_id new_user) (u_name new_user) (u_email new_user)
                        "user"),
       mkDB (users db ++ [new_user]) (refresh_tokens db))
  end.

(** [login]; clock readings: 0 in [create_access_token], 1 in
    [create_refresh_token], 2 for [refresh_expiry], 3 for [created_at]. *)
Definition login (user : UserLogin) (clk : clock) (db : DB)
    : result TokenResponse * DB :=
  match user_by_email db (ul_email user) with
  | None => (HTTPException HTTP_400_BAD_REQUEST "User not found", db)
  | Some db_user =>
      if negb (verify_password (ul_password user) (u_password db_user))
      then (HTTPException HTTP_400_BAD_REQUEST "Wrong password", db)
      else
        let role := str_or (u_role db_user) "user" in
        let access_token := create_access_token (u_id db_user) role (clk 0%nat) in
        let refresh_token := create_refresh_token (u_id db_user) role (clk 1%nat) in
        let refresh_hash := hash_token refresh_token in
        let refresh_expiry :=
          clk 2%nat + timedelta_days REFRESH_TOKEN_EXPIRE_DAYS in
        match add_refresh_token db (u_id db_user) refresh_hash refresh_expiry
                                (clk 3%nat) with
        | None => (Uncaught IntegrityError, db)
        | Some db' => (Ok (mkTokenResponse access_token refresh_token), db')
        end
  end.

(** The first half of [refresh_token]: the two queries and their checks.
    Clock reading 0 is the one compared with [expires_at]. *)
Definition refresh_lookup (payload : RefreshTokenRequest) (clk : clock) (db : DB)
    : result (RefreshToken * User) :=
  let token_hash := hash_token (rr_refresh_token payload) in
  match token_by_hash db token_hash with
  | None => HTTPException HTTP_401_UNAUTHORIZED "Invalid refresh token"
  | Some db_token =>
      if (revoked db_token || (expires_at db_token <? clk 0%nat))%bool
      then HTTPException HTTP_401_UNAUTHORIZED "Invalid refresh token"
      else
        match user_by_id db (rt_user_id db_token) with
        | None => HTTPException HTTP_401_UNAUTHORIZED "User not found"
        | Some db_user => Ok (db_token, db_user)
        end
  end.

(** The second half of [refresh_token] ("Rotate refresh token"): the new
    pair, and the commit that writes [revoked = True] on the row read and
    inserts the new row.  Clock readings: 1 and 2 in the two tokens, 3 for
    [new_refresh_expiry], 4 for [created_at]. *)
Definition refresh_rotate (db_token : RefreshToken) (db_user : User)
    (clk : clock) (db : DB) : result TokenResponse * DB :=
  let role := str_or (u_role db_user) "user" in
  let new_access := create_access_token (u_id db_user) role (clk 1%nat) in
  let new_refresh := create_refresh_token (u_id db_user) role (clk 2%nat) in
  let new_refresh_hash := hash_token new_refresh in
  let new_refresh_expiry :=
    clk 3%nat + timedelta_days REFRESH_TOKEN_EXPIRE_DAYS in
  match add_refresh_token (revoke_token db (rt_id db_token)) (u_id db_user)
                          new_refresh_hash new_refresh_expiry (clk 4%nat) with
  | None => (Uncaught IntegrityError, db)
  | Some db' => (Ok (mkTokenResponse new_access new_refresh), db')
  end.

(** [refresh_token], one request served alone. *)
Definition refresh_token (payload : RefreshTokenRequest) (clk : clock) (db : DB)
    : result TokenResponse * DB :=
  match refresh_lookup payload clk db with
  | Ok (db_token, db_user) => refresh_rotate db_token db_user clk db
  | HTTPException c d => (HTTPException c d, db)
  | Uncaught e => (Uncaught e, db)
  end.

(** [validate_token]; [credentials] is the bearer token of the request. *)
Definition validate_token (credentials : string) (now : datetime)
    : result Validated :=
  match decode_token credentials now with
  | Ok payload =>
      let token_type := dict_get payload "type" in
      if negb (pyval_eqb token_type (PStr "access"))
      then HTTPException HTTP_401_UNAUTHORIZED "Invalid token type"
      else
        match dict_get payload "id" with
        | PNone => HTTPException HTTP_401_UNAUTHORIZED "Token missing user id"
        | user_id =>
            match py_int user_id with
            | Ok n => Ok (mkValidated n (dict_get payload "role"))
            | HTTPException c d => HTTPException c d
            | Uncaught e => Uncaught e
            end
        end
  | HTTPException c d => HTTPException c d
  | Uncaught e => Uncaught e
  end.

Definition set_reset_code (h : option string) (e : option datetime) (u : User)
    : User :=
  mkUser (u_id u) (u_name u) (u_email u) (u_password u) (u_role u) h e.

(** [forgot_password]; [rand] is the draw of [secrets.randbelow(1000000)],
    [net] what the mail provider's endpoint comes to. *)
Definition forgot_password (payload : ForgotPasswordRequest) (rand : Z)
    (clk : clock) (net : httpx_outcome string) (db : DB) : result string * DB :=
  match user_by_email db (fp_email payload) with
  | None => (HTTPException HTTP_404_NOT_FOUND "Email not registered", db)
  | Some db_user =>
      let otp := format_06d rand in
      let otp_hash := hash_token otp in
      let db' :=
        update_user db (u_id db_user)
          (set_reset_code (Some otp_hash)
                          (Some (clk 0%nat + timedelta_minutes 15))) in
      match _send_email (fp_email payload) "Your password reset code"
              ("Your OTP code is " ++ otp ++ ". It expires in 15 minutes.") net
      with
      | Ok _ => (Ok "OTP has been sent.", db')
      | HTTPException c d => (HTTPException c d, db')
      | Uncaught e => (Uncaught e, db')
      end
  end.

(** [reset_password]; [salt] is the salt passlib draws for the new hash. *)
Definition reset_password (payload : ResetPasswordRequest) (salt : string)
    (clk : clock) (db : DB) : result string * DB :=
  match user_by_email db (rp_email payload) with
  | None => (HTTPException HTTP_400_BAD_REQUEST "Invalid email or OTP", db)
  | Some db_user =>
      match u_reset_code_hash db_user, u_reset_code_expires_at db_user with
      | Some code_hash, Some code_expires_at =>
          if String.eqb code_hash ""
          then (HTTPException HTTP_400_BAD_REQUEST "OTP not requested", db)
          else if code_expires_at <? clk 0%nat
          then (HTTPException HTTP_400_BAD_REQUEST "OTP expired", db)
          else if negb (String.eqb (hash_token (rp_otp payload)) code_hash)
          then (HTTPException HTTP_400_BAD_REQUEST "Invalid OTP", db)
          else
            (Ok "Password updated",
             update_user db (u_id db_user)
               (fun u => mkUser (u_id u) (u_name u) (u_email u)
                                (hash_password salt (rp_new_password payload))
                                (u_role u) None None))
      | _, _ => (HTTPException HTTP_400_BAD_REQUEST "OTP not requested", db)
      end
  end.

End Users.

(* ===================================================================== *)
(** ** book-service/routers/books.py: the trust adapter *)
(* ===================================================================== *)

(** [get_current_user]; [net] is what the GET of [/users/validate] on the
    auth service comes to, its body being [res.json()] ([None] when the body
    is not JSON). *)
Definition get_current_user (credentials : string)
    (net : httpx_outcome (option dict)) : result dict :=
  let token := credentials in
  if String.eqb token ""
  then HTTPException HTTP_401_UNAUTHORIZED "Missing token"
  else
    match net with
    | Response status_code body =>
        if negb (status_code =? 200)
        then HTTPException HTTP_401_UNAUTHORIZED "Invalid token"
        else match body with
             | Some user => Ok user
             | None => Uncaught JSONDecodeError
             end
    | RequestError =>
        HTTPException HTTP_503_SERVICE_UNAVAILABLE "Auth service unavailable"
    end.

(** A route declared with [user=Depends(get_current_user)] ([add_book],
    [get_books], [update_book], [upload_book_image], [delete_book]): the
    framework resolves the dependency first and calls the route's body, here
    [route], on the value it returns; [S] is whatever the body works on. *)
Definition protected_route {A S : Type} (route : dict -> S -> result A * S)
    (credentials : string) (net : httpx_outcome (option dict)) (s : S)
    : result A * S :=
  match get_current_user credentials net with
  | Ok user => route user s
  | HTTPException c d => (HTTPException c d, s)
  | Uncaught e => (Uncaught e, s)
  end.

(* ===================================================================== *)
(** ** Requests and runs of the auth service *)
(* ===================================================================== *)

(** One request to the auth service, with everything that request draws from
    outside (clock readings, salt, random number, the mail provider). *)
Inductive request : Type :=
| Register (user : UserCreate) (salt : string)
| Login (user : UserLogin) (clk : clock)
| Refresh (payload : RefreshTokenRequest) (clk : clock)
| Validate (credentials : string) (now : datetime)
| ForgotPassword (payload : ForgotPasswordRequest) (rand : Z) (clk : clock)
                 (net : httpx_outcome string)
| ResetPassword (payload : ResetPasswordRequest) (salt : string) (clk : clock).

Section Runs.
Context {ext : Externals}.

(** The store after a request served alone. *)
Definition serve (r : request) (db : DB) : DB :=
  match r with
  | Register user salt => snd (register user salt db)
  | Login user clk => snd (login user clk db)
  | Refresh payload clk => snd (refresh_token payload clk db)
  | Validate _ _ => db
  | ForgotPassword payload rand clk net =>
      snd (forgot_password payload rand clk net db)
  | ResetPassword payload salt clk => snd (reset_password payload salt clk db)
  end.

(** Requests served one after the other. *)
Definition serve_all (rs : list request) (db : DB) : DB :=
  fold_left (fun d r => serve r d) rs db.

(** A store the service can be in: reached from the empty one. *)
Definition reachable (db : DB) : Prop :=
  exists rs, serve_all rs empty_db = db.

(** The unique constraint of [refresh_tokens.token_hash]. *)
Definition token_hash_unique (db : DB) : Prop :=
  NoDup (map token_hash (refresh_tokens db)).

(** *** Overlapping refresh requests

    Each request runs in a session of its own, at the isolation the
    database has by default (read committed): its queries read the
    committed store of the moment they are issued, its commit writes to the
    committed store of the moment it is issued.  A caller is at one of three
    points. *)
Inductive caller : Type :=
| Waiting (payload : RefreshTokenRequest) (clk : clock)
| Read (db_token : RefreshToken) (db_user : User) (clk : clock)
| Finished (r : result TokenResponse).

(** One move of a caller: the two queries, or the rotation and its commit. *)
Definition move (c : caller) (db : DB) : caller * DB :=
  match c with
  | Waiting payload clk =>
      match refresh_lookup payload clk db with
      | Ok (db_token, db_user) => (Read db_token db_user clk, db)
      | HTTPException s d => (Finished (HTTPException s d), db)
      | Uncaught e => (Finished (Uncaught e), db)
      end
  | Read db_token db_user clk =>
      let '(r, db') := refresh_rotate db_token db_user clk db in
      (Finished r, db')
  | Finished r => (Finished r, db)
  end.

Fixpoint set_nth {A} (n : nat) (x : A) (l : list A) : list A :=
  match l, n with
  | [], _ => []
  | _ :: l', O => x :: l'
  | y :: l', S n' => y :: set_nth n' x l'
  end.

(** A schedule names, move by move, the caller that moves. *)
Fixpoint run_schedule (schedule : list nat) (cs : list caller) (db : DB)
    : list caller * DB :=
  match schedule with
  | [] => (cs, db)
  | i :: rest =>
      match nth_error cs i with
      | None => run_schedule rest cs db
      | Some c =>
          let '(c', db') := move c db in
          run_schedule rest (set_nth i c' cs) db'
      end
  end.

Definition succeeded (c : caller) : bool :=
  match c with
  | Finished (Ok _) => true
  | _ => false
  end.

Definition count_succeeded (cs : list caller) : nat :=
  List.length (filter succeeded cs).

(** The schedule in which caller [k] makes both its moves, then caller
    [k + 1], ... for [n] callers: no two requests overlap. *)
Fixpoint serial_schedule_from (k n : nat) : list nat :=
  match n with
  | O => []
  | S n' => k :: k :: serial_schedule_from (S k) n'
  end.

Definition serial_schedule (n : nat) : list nat := serial_schedule_from 0 n.

(** The same token presented by one request after the other. *)
Fixpoint refresh_in_turn (payload : RefreshTokenRequest) (clks : list clock)
    (db : DB) : list (result TokenResponse) * DB :=
  match clks with
  | [] => ([], db)
  | clk :: rest =>
      let '(r, db') := refresh_token payload clk db in
      let '(rs, db'') := refresh_in_turn payload rest db' in
      (r :: rs, db'')
  end.

(** The digest [h] is spent in [db]: the ledger has a row for it, and every
    row for it is revoked. *)
Definition spent (h : string) (db : DB) : Prop :=
  (exists t, In t (refresh_tokens db) /\ token_hash t = h) /\
  (forall t, In t (refresh_tokens db) -> token_hash t = h -> revoked t = true).

(** The presented text is a signed, unexpired token of type ["refresh"]. *)
Definition valid_refresh_jwt (s : string) (now : datetime) : bool :=
  match decode_token s now with
  | Ok payload => pyval_eqb (dict_get payload "type") (PStr "refresh")
  | _ => false
  end.

(** *** Why a request is refused

    The causes the interface names for a refused [resetPassword] and a
    refused [login], told apart from the store alone. *)
Inductive reset_failure : Type :=
| UnknownEmail
| NoOtpPending
| OtpExpired
| OtpMismatch.

Definition reset_failure_cause (payload : ResetPasswordRequest) (clk : clock)
    (db : DB) : option reset_failure :=
  match user_by_email db (rp_email payload) with
  | None => Some UnknownEmail
  | Some u =>
      match u_reset_code_hash u, u_reset_code_expires_at u with
      | Some h, Some e =>
          if String.eqb h "" then Some NoOtpPending
          else if e <? clk 0%nat then Some OtpExpired
          else if String.eqb (hash_token (rp_otp payload)) h then None
          else Some OtpMismatch
      | _, _ => Some NoOtpPending
      end
  end.

(** The [detail] of the response for each cause. *)
Definition reset_failure_detail (c : reset_failure) : string :=
  match c with
  | UnknownEmail => "Invalid email or OTP"
  | NoOtpPending => "OTP not requested"
  | OtpExpired => "OTP expired"
  | OtpMismatch => "Invalid OTP"
  end.

End Runs.

(* ===================================================================== *)
(** ** Constraints of the schema and the shape of a commit *)
(* ===================================================================== *)

(** The unique column [users.email] and the two primary keys. *)
Definition email_unique (db : DB) : Prop := NoDup (map u_email (users db)).
Definition user_id_unique (db : DB) : Prop := NoDup (map u_id (users db)).
Definition token_id_unique (db : DB) : Prop :=
  NoDup (map rt_id (refresh_tokens db)).

(** The foreign key [refresh_tokens.user_id]. *)
Definition ledger_owned (db : DB) : Prop :=
  forall t, In t (refresh_tokens db) ->
            In (rt_user_id t) (map u_id (users db)).

(** The row [t'] is the row [t], possibly revoked since. *)
Definition same_row_later (t t' : RefreshToken) : Prop :=
  rt_id t' = rt_id t /\ rt_user_id t' = rt_user_id t /\
  token_hash t' = token_hash t /\ expires_at t' = expires_at t /\
  created_at t' = created_at t /\ (revoked t = true -> revoked t' = true).

(** What one request can have committed: nothing; an UPDATE of a user row
    that keeps its id, name, email and role; a new user row with role
    ["user"]; or a new ledger row, with or without the revocation of another
    one. *)
Inductive store_step (db db' : DB) : Prop :=
| step_same : db' = db -> store_step db db'
| step_user_updated (i : Z) (f : User -> User) :
    (forall u, u_id (f u) = u_id u /\ u_name (f u) = u_name u /\
               u_email (f u) = u_email u /\ u_role (f u) = u_role u) ->
    db' = update_user db i f ->
    store_step db db'
| step_user_added (new : User) :
    user_by_email db (u_email new) = None ->
    u_id new = next_id (map u_id (users db)) ->
    u_role new = Some "user" ->
    db' = mkDB (users db ++ [new]) (refresh_tokens db) ->
    store_step db db'
| step_row_issued (revoke : option Z) (u : User) (h : string)
    (e c : datetime) :
    In u (users db) ->
    add_refresh_token
      (match revoke with Some i => revoke_token db i | None => db end)
      (u_id u) h e c = Some db' ->
    store_step db db'.

Section Answers.
Context {ext : Externals}.

(** Whether a request served alone is answered normally. *)
Definition answered_ok (r : request) (db : DB) : bool :=
  match r with
  | Register user salt => is_ok (fst (register user salt db))
  | Login user clk => is_ok (fst (login user clk db))
  | Refresh payload clk => is_ok (fst (refresh_token payload clk db))
  | Validate credentials now => is_ok (validate_token credentials now)
  | ForgotPassword payload rand clk net =>
      is_ok (fst (forgot_password payload rand clk net db))
  | ResetPassword payload salt clk =>
      is_ok (fst (reset_password payload salt clk db))
  end.

Definition is_forgot_password (r : request) : bool :=
  match r with
  | ForgotPassword _ _ _ _ => true
  | _ => false
  end.

(** Whether a request is a [refresh] that presents a token of digest [h]. *)
Definition presents_digest (h : string) (r : request) : bool :=
  match r with
  | Refresh payload _ => String.eqb (hash_token (rr_refresh_token payload)) h
  | _ => false
  end.



(** The ledger row [row] is in use in [db]: it is the row a query by its
    digest finds, and no row of another digest has its primary key. *)
Definition row_in_use (row : RefreshToken) (db : DB) : Prop :=
  token_by_hash db (token_hash row) = Some row /\
  forall t, In t (refresh_tokens db) -> rt_id t = rt_id row ->
            token_hash t = token_hash row.

End Answers.

(* ===================================================================== *)
(** ** Python text

    In what follows a [string] is a Python [str] of code points below 256. *)
(* ===================================================================== *)

(** [c.isspace()]. *)
Definition is_str_space (c : ascii) : bool :=
  let n := nat_of_ascii c in
  (is_py_space c || Nat.eqb n 133 || Nat.eqb n 160)%bool.

(** [s.lstrip()], [s.rstrip()] and [s.strip()]. *)
Fixpoint py_lstrip (s : string) : string :=
  match s with
  | String c r => if is_str_space c then py_lstrip r else s
  | EmptyString => EmptyString
  end.

Fixpoint py_rstrip (s : string) : string :=
  match s with
  | EmptyString => EmptyString
  | String c r =>
      match py_rstrip r with
      | EmptyString => if is_str_space c then EmptyString else String c EmptyString
      | r' => String c r'
      end
  end.

Definition py_strip (s : string) : string := py_lstrip (py_rstrip s).

(** [s.rstrip(ch)] for a single character [ch]. *)
Fixpoint rstrip_char (ch : ascii) (s : string) : string :=
  match s with
  | EmptyString => EmptyString
  | String c r =>
      match rstrip_char ch r with
      | EmptyString => if Ascii.eqb c ch then EmptyString else String c EmptyString
      | r' => String c r'
      end
  end.

(** [s.split()]: the words between runs of whitespace. *)
Fixpoint split_ws (s : string) : list string :=
  match s with
  | EmptyString => []
  | String c r =>
      if is_str_space c then split_ws r
      else match r with
           | EmptyString => [String c EmptyString]
           | String c' _ =>
               if is_str_space c' then String c EmptyString :: split_ws r
               else match split_ws r with
                    | w :: ws => String c w :: ws
                    | [] => [String c EmptyString]
                    end
           end
  end.

(** No character of [s] is whitespace. *)
Fixpoint spaceless (s : string) : bool :=
  match s with
  | EmptyString => true
  | String c r => (negb (is_str_space c) && spaceless r)%bool
  end.

(** [ch in s]. *)
Fixpoint has_char (ch : ascii) (s : string) : bool :=
  match s with
  | EmptyString => false
  | String c r => (Ascii.eqb c ch || has_char ch r)%bool
  end.

(** [s.split(ch)] for a single character [ch]. *)
Fixpoint split_char (ch : ascii) (s : string) : list string :=
  match s with
  | EmptyString => [EmptyString]
  | String c r =>
      if Ascii.eqb c ch then EmptyString :: split_char ch r
      else match split_char ch r with
           | w :: ws => String c w :: ws
           | [] => [String c EmptyString]
           end
  end.

(** [s.lower()]. *)
Definition lower_char (c : ascii) : ascii :=
  let n := nat_of_ascii c in
  if ((Nat.leb 65 n && Nat.leb n 90)
      || (Nat.leb 192 n && Nat.leb n 222 && negb (Nat.eqb n 215)))%bool
  then ascii_of_nat (n + 32)
  else c.

Fixpoint py_lower (s : string) : string :=
  match s with
  | EmptyString => EmptyString
  | String c r => String (lower_char c) (py_lower r)
  end.

(** What follows [p] in [s], when [s] starts with [p]. *)
Fixpoint prefix_rest (p s : string) : option string :=
  match p with
  | EmptyString => Some s
  | String a p' =>
      match s with
      | EmptyString => None
      | String b s' => if Ascii.eqb a b then prefix_rest p' s' else None
      end
  end.

(** [s.split(sep, 1)] as the texts before and after the first occurrence of
    [sep]; [None] when [sep not in s]. *)
Fixpoint split_once (sep s : string) : option (string * string) :=
  match prefix_rest sep s with
  | Some rest => Some (EmptyString, rest)
  | None =>
      match s with
      | EmptyString => None
      | String c r =>
          match split_once sep r with
          | Some (before, after) => Some (String c before, after)
          | None => None
          end
      end
  end.

(** [str(v)], as an f-string formats a value. *)
Definition py_str (v : pyval) : string :=
  match v with
  | PNone => "None"
  | PBool true => "True"
  | PBool false => "False"
  | PInt z => NilZero.string_of_int (Z.to_int z)
  | PStr s => s
  end.

(* ===================================================================== *)
(** ** config.py *)
(* ===================================================================== *)

(** The property [allow_origins] of the settings of both services. *)
Definition allow_origins (FRONTEND_ORIGINS : string) : list string :=
  map py_strip
      (filter (fun origin => negb (String.eqb (py_strip origin) ""))
              (split_char ","%char FRONTEND_ORIGINS)).

(* ===================================================================== *)
(** ** rate_limiter.py *)
(* ===================================================================== *)

Section RateLimiter.
Context {ext : Externals}.

(** [_get_bearer_token]; [authorization] is the request's [Authorization]
    header, [None] when it has none. *)
Definition _get_bearer_token (authorization : option string) : option string :=
  let auth_header := match authorization with Some h => h | None => "" end in
  if String.eqb auth_header "" then None
  else
    match split_ws auth_header with
    | [scheme; credentials] =>
        if String.eqb (py_lower scheme) "bearer" then Some credentials
        else None
    | _ => None
    end.

(** [rate_limit_key]; [remote_address] is [get_remote_address(request)]. *)
Definition rate_limit_key (authorization : option string)
    (remote_address : string) (now : datetime) : result string :=
  match _get_bearer_token authorization with
  | Some token =>
      if String.eqb token "" then Ok remote_address
      else
        match jwt_decode token SECRET_KEY now with
        | Ok payload =>
            match dict_get payload "id" with
            | PNone => Ok remote_address
            | user_id => Ok ("user:" ++ py_str user_id)
            end
        | Uncaught JWTError => Ok remote_address
        | HTTPException c d => HTTPException c d
        | Uncaught e => Uncaught e
        end
  | None => Ok remote_address
  end.

End RateLimiter.

(* ===================================================================== *)
(** ** book-service/routers/books.py: the blob store *)
(* ===================================================================== *)

(** The storage settings of the book service. *)
Class StorageSettings : Type := {
  SUPABASE_URL : option string;
  SUPABASE_SERVICE_ROLE_KEY : option string;
  SUPABASE_BUCKET : option string
}.

Module BookService.
Section Storage.
Context {cfg : StorageSettings}.

Definition setting (o : option string) : string :=
  match o with Some s => s | None => "" end.

Definition _ensure_image_uploads_enabled : result unit :=
  if (truthy_str SUPABASE_URL && truthy_str SUPABASE_SERVICE_ROLE_KEY
      && truthy_str SUPABASE_BUCKET)%bool
  then Ok tt
  else HTTPException HTTP_503_SERVICE_UNAVAILABLE
                     "Image uploads are disabled or not configured.".

Definition _supabase_headers (content_type : option string)
    : result (list (string * string)) :=
  match _ensure_image_uploads_enabled with
  | Ok _ =>
      let headers :=
        [("apikey", setting SUPABASE_SERVICE_ROLE_KEY);
         ("Authorization", "Bearer " ++ setting SUPABASE_SERVICE_ROLE_KEY);
         ("x-upsert", "true")]%string in
      Ok (if truthy_str content_type
          then (headers ++ [("Content-Type", setting content_type)])%list
          else headers)
  | HTTPException c d => HTTPException c d
  | Uncaught e => Uncaught e
  end.

Definition _build_public_url (object_path : string) : result string :=
  match _ensure_image_uploads_enabled with
  | Ok _ =>
      let url := rstrip_char "/"%char (setting SUPABASE_URL) in
      Ok (url ++ "/storage/v1/object/public/" ++ setting SUPABASE_BUCKET
              ++ "/" ++ object_path)%string
  | HTTPException c d => HTTPException c d
  | Uncaught e => Uncaught e
  end.

Definition _extract_object_path_from_url (image_url : option string)
    : option string :=
  if (negb (truthy_str image_url) || negb (truthy_str SUPABASE_URL)
      || negb (truthy_str SUPABASE_BUCKET))%bool
  then None
  else
    let marker :=
      ("/storage/v1/object/public/" ++ setting SUPABASE_BUCKET ++ "/")%string in
    match split_once marker (setting image_url) with
    | None => None
    | Some (_, after) =>
        let object_path := py_strip after in
        if String.eqb object_path "" then None else Some object_path
    end.

(** [_delete_existing_file]; [delete url] is what the DELETE of [url] comes
    to. *)
Definition _delete_existing_file (image_url : option string)
    (delete : string -> httpx_outcome string) : result unit :=
  match _extract_object_path_from_url image_url with
  | None => Ok tt
  | Some object_path =>
      let url := rstrip_char "/"%char (setting SUPABASE_URL) in
      let delete_url :=
        (url ++ "/storage/v1/object/" ++ setting SUPABASE_BUCKET ++ "/"
             ++ object_path)%string in
      match _supabase_headers None with
      | Ok _ =>
          match delete delete_url with
          | Response status_code _ =>
              if (negb (status_code =? 200) && negb (status_code =? 204)
                  && negb (status_code =? 404))%bool
              then HTTPException HTTP_502_BAD_GATEWAY
                     "Failed to delete existing image from storage."
              else Ok tt
          | RequestError => Ok tt
          end
      | HTTPException c d => HTTPException c d
      | Uncaught e => Uncaught e
      end
  end.

End Storage.
End BookService.

(* ===================================================================== *)
(** ** backend-legacy/routers/books.py: routes behind
       [get_current_user_id] *)
(* ===================================================================== *)

(** Table [books] of models.py.  [b_id] is the column [id], [b_owner_id] the
    column [owner_id], a foreign key to [users.id]. *)
Record Book : Type := mkBook {
  b_id : Z;
  b_title : string;
  b_author : string;
  b_year : option Z;
  b_isbn : option string;
  b_description : option string;
  b_image_url : option string;
  b_owner_id : Z
}.

(** [schemas.BookBase], the body of [BookCreate] and [BookUpdate]. *)
Record BookBase : Type := mkBookBase {
  bb_title : string;
  bb_author : string;
  bb_year : option Z;
  bb_isbn : option string;
  bb_description : option string
}.

(** The committed content of the monolith's database. *)
Record Library : Type := mkLibrary {
  accounts : DB;
  books : list Book
}.

Module Legacy.

(** [add_book]; the INSERT is refused with [IntegrityError] when no user
    has the id [user_id] (foreign key). *)
Definition add_book (book : BookBase) (user_id : Z) (lib : Library)
    : result Book * Library :=
  let new_book :=
    mkBook (next_id (map b_id (books lib))) (bb_title book) (bb_author book)
           (bb_year book) (bb_isbn book) (bb_description book) None user_id in
  if existsb (fun u => u_id u =? user_id) (users (accounts lib))
  then (Ok new_book, mkLibrary (accounts lib) (books lib ++ [new_book]))
  else (Uncaught IntegrityError, lib).

Definition set_book (book : BookBase) (b : Book) : Book :=
  mkBook (b_id b) (bb_title book) (bb_author book) (bb_year book)
         (bb_isbn book) (bb_description book) (b_image_url b) (b_owner_id b).

(** [user.role != "admin"] *)
Definition not_admin (u : User) : bool :=
  match u_role u with
  | Some role => negb (String.eqb role "admin")
  | None => true
  end.

(** [update_book]; the UPDATE at commit is by primary key. *)
Definition update_book (book_id : Z) (book : BookBase) (user_id : Z)
    (lib : Library) : result Book * Library :=
  match user_by_id (accounts lib) user_id with
  | None => (HTTPException HTTP_401_UNAUTHORIZED "User not found", lib)
  | Some user =>
      match find (fun b => (b_id b =? book_id)
                           && (if not_admin user
                               then b_owner_id b =? user_id else true))%bool
                 (books lib) with
      | None => (HTTPException HTTP_404_NOT_FOUND "Book not found", lib)
      | Some db_book =>
          (Ok (set_book book db_book),
           mkLibrary (accounts lib)
                     (map (fun b => if b_id b =? b_id db_book
                                    then set_book book b else b)
                          (books lib)))
      end
  end.

Section Routes.
Context {ext : Externals}.

(** A route declared with [user_id: int = Depends(auth.get_current_user_id)]:
    the dependency is resolved on the bearer token, then the body runs. *)
Definition with_current_user_id {A : Type}
    (route : Z -> Library -> result A * Library) (credentials : string)
    (now : datetime) (lib : Library) : result A * Library :=
  match get_current_user_id credentials now with
  | Ok user_id => route user_id lib
  | HTTPException c d => (HTTPException c d, lib)
  | Uncaught e => (Uncaught e, lib)
  end.

End Routes.
End Legacy.

(* ===================================================================== *)
(** ** Stand-ins for the libraries *)
(* ===================================================================== *)

(** Executable stand-ins for the library functions, as a test suite would
    inject them: a reversible text encoding plays the signed token, a tagged
    copy plays the digests.  They make the handlers run by computation and
    show that what the theorems assume of the libraries can be met. *)
Module Mock.

Fixpoint ser_string (s : string) : string :=
  match s with
  | EmptyString => "."
  | String c r => String "+"%char (String c (ser_string r))
  end.

Fixpoint parse_string (s : string) : option (string * string) :=
  match s with
  | EmptyString => None
  | String c r =>
      if Ascii.eqb c "."%char then Some (EmptyString, r)
      else match r with
           | EmptyString => None
           | String c' r' =>
               match parse_string r' with
               | Some (x, rest) => Some (String c' x, rest)
               | None => None
               end
           end
  end.

Fixpoint ser_pos (p : positive) : string :=
  match p with
  | xH => "."
  | xO q => String "0"%char (ser_pos q)
  | xI q => String "1"%char (ser_pos q)
  end.

Fixpoint parse_pos (s : string) : option (positive * string) :=
  match s with
  | EmptyString => None
  | String c r =>
      if Ascii.eqb c "."%char then Some (xH, r)
      else match parse_pos r with
           | Some (q, rest) =>
               Some (if Ascii.eqb c "1"%char then xI q else xO q, rest)
           | None => None
           end
  end.

Definition ser_claim (o : option pyval) : string :=
  match o with
  | None => "a"
  | Some PNone => "n"
  | Some (PBool true) => "t"
  | Some (PBool false) => "f"
  | Some (PInt 0) => "z"
  | Some (PInt (Zpos p)) => String "p"%char (ser_pos p)
  | Some (PInt (Zneg p)) => String "m"%char (ser_pos p)
  | Some (PStr s) => String "s"%char (ser_string s)
  end.

Definition parse_claim (s : string) : option (option pyval * string) :=
  match s with
  | EmptyString => None
  | String c r =>
      if Ascii.eqb c "a"%char then Some (None, r)
      else if Ascii.eqb c "n"%char then Some (Some PNone, r)
      else if Ascii.eqb c "t"%char then Some (Some (PBool true), r)
      else if Ascii.eqb c "f"%char then Some (Some (PBool false), r)
      else if Ascii.eqb c "z"%char then Some (Some (PInt 0), r)
      else if Ascii.eqb c "p"%char then
        match parse_pos r with
        | Some (q, rest) => Some (Some (PInt (Zpos q)), rest)
        | None => None
        end
      else if Ascii.eqb c "m"%char then
        match parse_pos r with
        | Some (q, rest) => Some (Some (PInt (Zneg q)), rest)
        | None => None
        end
      else if Ascii.eqb c "s"%char then
        match parse_string r with
        | Some (x, rest) => Some (Some (PStr x), rest)
        | None => None
        end
      else None
  end.

Definition entry (k : string) (o : option pyval) : dict :=
  match o with
  | Some v => [(k, v)]
  | None => []
  end.

(** The token: the key, then the claims [id], [role], [type] and [exp]. *)
Definition encode (claims : dict) (key : string) : string :=
  (ser_string key ++ ser_claim (dict_lookup claims "id")
     ++ ser_claim (dict_lookup claims "role")
     ++ ser_claim (dict_lookup claims "type")
     ++ ser_claim (dict_lookup claims "exp"))%string.

Definition verify (token key : string) : option dict :=
  match parse_string token with
  | Some (k, r0) =>
      if String.eqb k key then
        match parse_claim r0 with
        | Some (c_id, r1) =>
            match parse_claim r1 with
            | Some (c_role, r2) =>
                match parse_claim r2 with
                | Some (c_type, r3) =>
                    match parse_claim r3 with
                    | Some (c_exp, EmptyString) =>
                        Some (entry "id" c_id ++ entry "role" c_role
                                ++ entry "type" c_type ++ entry "exp" c_exp)%list
                    | _ => None
                    end
                | None => None
                end
            | None => None
            end
        | None => None
        end
      else None
  | None => None
  end.

Definition digest (s : string) : string := ("sha256:" ++ s)%string.

Definition salted_hash (salt password : string) : string :=
  (ser_string password ++ salt)%string.

Definition salted_verify (password hash : string) : bool :=
  match parse_string hash with
  | Some (p, _) => String.eqb p password
  | None => false
  end.

Definition externals : Externals := {|
  sha256_hexdigest := digest;
  pwd_hash := salted_hash;
  pwd_verify := salted_verify;
  jwt_encode := encode;
  jws_verify := verify;
  SECRET_KEY := "server-secret";
  ACCESS_TOKEN_EXPIRE_MINUTES := 30;
  REFRESH_TOKEN_EXPIRE_DAYS := 7;
  RESEND_API_KEY := Some "re_test";
  RESEND_FROM := Some "noreply@bookshelf.test"
|}.

(** The same libraries with no mail provider configured. *)
Definition externals_no_mail : Externals := {|
  sha256_hexdigest := digest;
  pwd_hash := salted_hash;
  pwd_verify := salted_verify;
  jwt_encode := encode;
  jws_verify := verify;
  SECRET_KEY := "server-secret";
  ACCESS_TOKEN_EXPIRE_MINUTES := 30;
  REFRESH_TOKEN_EXPIRE_DAYS := 7;
  RESEND_API_KEY := None;
  RESEND_FROM := Some "noreply@bookshelf.test"
|}.

(** A clock that reads [t] at every reading, and whole seconds. *)
Definition at_time (t : datetime) : clock := fun _ => t.
Definition sec (n : Z) : datetime := n * 1000000.

(** A small scenario: Alice registers, then logs in at second 100. *)
Definition alice : UserCreate := mkUserCreate "Alice" "a@x.com" "password123".
Definition alice_login : UserLogin := mkUserLogin "a@x.com" "password123".

Definition db_registered : DB :=
  snd (register (ext := externals) alice "NaCl" empty_db).

Definition db_logged_in : DB :=
  snd (login (ext := externals) alice_login (at_time (sec 100)) db_registered).

Definition tokens : TokenResponse :=
  match fst (login (ext := externals) alice_login (at_time (sec 100))
                   db_registered) with
  | Ok issued => issued
  | _ => mkTokenResponse "" ""
  end.

Definition r1 : RefreshTokenRequest :=
  mkRefreshTokenRequest (refresh_token_ tokens).

(** ... and presents her refresh token at second 200. *)
Definition db_rotated : DB :=
  snd (refresh_token (ext := externals) r1 (at_time (sec 200)) db_logged_in).

(** A ledger holding a row whose digest is that of a text that is no
    token. *)
Definition db_foreign_row : DB :=
  mkDB (users db_registered)
       [mkRefreshToken 1 1 (digest "not-a-token") (sec 1000) false (sec 0)].

(** An access-type token of the server's own key whose [id] is a word. *)
Definition word_id_token : string :=
  encode [("id", PStr "abc"); ("role", PStr "user"); ("type", PStr "access");
          ("exp", PInt 5000)] "server-secret".

(** Alice asks for a reset code at second 1000; the draw is 42. *)
Definition db_otp_pending : DB :=
  snd (forgot_password (ext := externals) (mkForgotPasswordRequest "a@x.com")
         42 (at_time (sec 1000)) (Response 200 "queued") db_registered).

Definition alice_reset : ResetPasswordRequest :=
  mkResetPasswordRequest "a@x.com" "000042" "new-password".

Definition row_of (db : DB) (email : string) : User :=
  match user_by_email db email with
  | Some u => u
  | None => mkUser 0 "" "" "" None None None
  end.

(** A login whose clock passes from second 100 to second 101 between the
    making of the refresh token and the computing of the row's expiry. *)
Definition straddling : clock :=
  fun k => match k with
           | O => 100999998
           | S O => 100999999
           | _ => 101000001
           end.

Definition db_straddled : DB :=
  snd (login (ext := externals) alice_login straddling db_registered).

Definition r_straddled : string :=
  match fst (login (ext := externals) alice_login straddling db_registered) with
  | Ok issued => refresh_token_ issued
  | _ => ""
  end.

Definition wrong_password_login : UserLogin :=
  mkUserLogin "a@x.com" "password124".
Definition unknown_email_login : UserLogin :=
  mkUserLogin "nobody@x.com" "password123".

(** A route body that counts its calls and answers with the caller. *)
Definition counting_route (user : dict) (calls : nat) : result dict * nat :=
  (Ok user, S calls).

(** The requests that lead to [db_rotated]. *)
Definition requests_so_far : list request :=
  [Register alice "NaCl"; Login alice_login (at_time (sec 100));
   Refresh r1 (at_time (sec 200))].

(** Storage settings, and a library with a book of Alice's (user 1) and a
    book of user 7. *)
Definition storage : StorageSettings := {|
  SUPABASE_URL := Some "https://proj.supabase.co/";
  SUPABASE_SERVICE_ROLE_KEY := Some "service-key";
  SUPABASE_BUCKET := Some "covers"
|}.

Definition library : Library :=
  mkLibrary db_registered
            [mkBook 1 "Dune" "Herbert" (Some 1965) None None None 1;
             mkBook 2 "Emma" "Austen" None None None None 7].

Definition new_fields : BookBase :=
  mkBookBase "Dune Messiah" "Frank Herbert" (Some 1969) None None.

(** A store that answers every DELETE with 404. *)
Definition gone (url : string) : httpx_outcome string :=
  Response 404 "not found".

Definition rotated : TokenResponse :=
  match fst (refresh_token (ext := externals) r1 (at_time (sec 200))
                           db_logged_in) with
  | Ok issued => issued
  | _ => mkTokenResponse "" ""
  end.

(** Requests served after Alice's login that do not present her refresh
    token: another login of hers, a reset code, a refresh with a text that is
    no token. *)
Definition in_between : list request :=
  [Login alice_login (at_time (sec 150));
   ForgotPassword (mkForgotPasswordRequest "a@x.com") 42 (at_time (sec 160))
                  (Response 200 "queued");
   Refresh (mkRefreshTokenRequest "not-a-token") (at_time (sec 170))].

(** A store whose one user has been given the role ["admin"] in the
    database; she logs in at second 100 and refreshes at second 200. *)
Definition db_admin : DB :=
  mkDB [mkUser 7 "Root" "root@x.com" (salted_hash "NaCl" "root-password")
               (Some "admin") None None] [].

Definition root_login : UserLogin := mkUserLogin "root@x.com" "root-password".

Definition db_admin_logged_in : DB :=
  snd (login (ext := externals) root_login (at_time (sec 100)) db_admin).

Definition root_refresh : RefreshTokenRequest :=
  mkRefreshTokenRequest
    match fst (login (ext := externals) root_login (at_time (sec 100))
                     db_admin) with
    | Ok issued => refresh_token_ issued
    | _ => ""
    end.

Definition db_admin_rotated : DB :=
  snd (refresh_token (ext := externals) root_refresh (at_time (sec 200))
                     db_admin_logged_in).

Definition root_rotated : TokenResponse :=
  match fst (refresh_token (ext := externals) root_refresh
                           (at_time (sec 200)) db_admin_logged_in) with
  | Ok issued => issued
  | _ => mkTokenResponse "" ""
  end.

End Mock.

(* ===================================================================== *)
(** ** What the proofs assume of the libraries *)
(* ===================================================================== *)

Section Laws.
Context {ext : Externals}.

(** The claims [_create_token] signs for a user. *)
Definition claims_of (user_id : Z) (role type : string) (exp : Z) : dict :=
  [("id", PInt user_id); ("role", PStr role); ("type", PStr type);
   ("exp", PInt exp)].

(** A SHA-256 hex digest is 64 characters long; only this much is used. *)
Definition digest_nonempty : Prop :=
  forall s, sha256_hexdigest s <> "".

(** passlib verifies a password against a hash it made of it. *)
Definition verify_accepts_hash : Prop :=
  forall salt password, pwd_verify password (pwd_hash salt password) = true.

(** python-jose accepts, under the same key, a token it made, and gives back
    its claims. *)
Definition decode_inverts_encode : Prop :=
  forall user_id role type exp key,
    jws_verify (jwt_encode (claims_of user_id role type exp) key) key
    = Some (claims_of user_id role type exp).

End Laws.

(* ===================================================================== *)
(** ** The stand-ins meet the assumptions *)
(* ===================================================================== *)

Module MockFacts.
Import Mock.

Lemma parse_ser_string (s rest : string) :
  parse_string (ser_string s ++ rest) = Some (s, rest).
Proof.
  induction s as [|c s IH]; simpl.
  - reflexivity.
  - rewrite IH. reflexivity.
Qed.

Lemma parse_ser_pos (p : positive) (rest : string) :
  parse_pos (ser_pos p ++ rest) = Some (p, rest).
Proof.
  induction p as [q IH|q IH|]; simpl; try rewrite IH; reflexivity.
Qed.

Lemma parse_ser_claim (o : option pyval) (rest : string) :
  parse_claim (ser_claim o ++ rest) = Some (o, rest).
Proof.
  destruct o as [[|[|]|[|q|q]|s]|]; simpl;
    rewrite ?parse_ser_pos, ?parse_ser_string; reflexivity.
Qed.

Lemma verify_encode (user_id : Z) (role type : string) (exp : Z) (key : string) :
  verify (encode (claims_of user_id role type exp) key) key
  = Some (claims_of user_id role type exp).
Proof.
  unfold verify, encode, claims_of.
  cbn [dict_lookup String.eqb Ascii.eqb Bool.eqb].
  rewrite parse_ser_string, String.eqb_refl.
  rewrite !parse_ser_claim.
  replace (ser_claim (Some (PInt exp)))
    with (ser_claim (Some (PInt exp)) ++ "")%string
    by (generalize (ser_claim (Some (PInt exp))) as t;
        induction t; simpl; congruence).
  rewrite parse_ser_claim. reflexivity.
Qed.

Lemma digest_nonempty_holds : digest_nonempty (ext := externals).
Proof. intros s. discriminate. Qed.

Lemma verify_accepts_hash_holds : verify_accepts_hash (ext := externals).
Proof.
  intros salt password. cbn. unfold salted_verify, salted_hash.
  rewrite parse_ser_string. apply String.eqb_refl.
Qed.

Lemma decode_inverts_encode_holds : decode_inverts_encode (ext := externals).
Proof. intros uid role type exp key. apply verify_encode. Qed.

End MockFacts.

(* ===================================================================== *)
(** ** The refresh-token ledger *)
(* ===================================================================== *)

(** Case analysis on the term a [match] or [if] of the goal inspects. *)
Ltac case_scrutinee :=
  match goal with
  | |- context [match ?x with _ => _ end] =>
      let E := fresh "E" in destruct x eqn:E
  end.

Ltac case_scrutinee_hyp H :=
  match type of H with
  | context [match ?x with _ => _ end] =>
      let E := fresh "E" in destruct x eqn:E
  end.

Section Ledger.
Context {ext : Externals}.

Lemma NoDup_map_eq {A B} (f : A -> B) (l : list A) (x y : A) :
  NoDup (map f l) -> In x l -> In y l -> f x = f y -> x = y.
Proof.
  induction l as [|a l IH]; simpl; intros ND Hx Hy E; [contradiction|].
  inversion ND as [|? ? Hnotin ND']; subst.
  destruct Hx as [<-|Hx], Hy as [<-|Hy]; auto.
  - exfalso. apply Hnotin. rewrite E. now apply in_map.
  - exfalso. apply Hnotin. rewrite <- E. now apply in_map.
Qed.

Lemma existsb_hash_false (l : list RefreshToken) (h : string) :
  existsb (fun t => String.eqb (token_hash t) h) l = false <->
  ~ In h (map token_hash l).
Proof.
  induction l as [|a l IH]; simpl.
  - tauto.
  - rewrite orb_false_iff, IH.
    destruct (String.eqb_spec (token_hash a) h); intuition congruence.
Qed.

Lemma revoke_token_hashes (db : DB) (i : Z) :
  map token_hash (refresh_tokens (revoke_token db i))
  = map token_hash (refresh_tokens db).
Proof.
  unfold revoke_token; simpl. rewrite map_map. apply map_ext.
  intros t. now destruct (rt_id t =? i).
Qed.

Lemma add_refresh_token_Some (db db' : DB) (uid : Z) (h : string)
    (e now : datetime) :
  add_refresh_token db uid h e now = Some db' ->
  ~ In h (map token_hash (refresh_tokens db)) /\
  users db' = users db /\
  refresh_tokens db' =
    (refresh_tokens db ++
      [mkRefreshToken (next_id (map rt_id (refresh_tokens db))) uid h e false now])%list.
Proof.
  unfold add_refresh_token. intros H.
  destruct (existsb _ _) eqn:E; [discriminate|].
  injection H as <-. apply existsb_hash_false in E. simpl. auto.
Qed.

Lemma spent_revoke_token (h : string) (db : DB) (i : Z) :
  spent h db -> spent h (revoke_token db i).
Proof.
  intros [[t [Hin Hh]] Hall]. split.
  - exists (if rt_id t =? i then set_revoked t else t).
    split.
    + unfold revoke_token; simpl.
      exact (in_map (fun t => if rt_id t =? i then set_revoked t else t) _ _ Hin).
    + now destruct (rt_id t =? i).
  - unfold revoke_token; simpl. intros t' Hin' Hh'.
    apply in_map_iff in Hin' as [t0 [<- Hin0]].
    destruct (rt_id t0 =? i); simpl in *; auto.
Qed.

Lemma spent_add_refresh_token (h : string) (db db' : DB) (uid : Z)
    (h' : string) (e now : datetime) :
  spent h db -> add_refresh_token db uid h' e now = Some db' -> spent h db'.
Proof.
  intros [[t [Hin Hh]] Hall] Hadd.
  apply add_refresh_token_Some in Hadd as [Hfresh [_ Hl]].
  split.
  - exists t. rewrite Hl. split; [apply in_or_app; now left | exact Hh].
  - intros t' Hin' Hh'. rewrite Hl in Hin'.
    apply in_app_or in Hin' as [Hin'|[<-|[]]]; [now apply Hall|].
    simpl in Hh'. subst h'. exfalso. apply Hfresh.
    rewrite <- Hh. now apply in_map.
Qed.

Lemma spent_same_ledger (h : string) (db db' : DB) :
  refresh_tokens db' = refresh_tokens db -> spent h db -> spent h db'.
Proof. unfold spent. intros ->. auto. Qed.

Lemma refresh_rotate_spent (h : string) (t : RefreshToken) (u : User)
    (clk : clock) (db : DB) :
  spent h db -> spent h (snd (refresh_rotate t u clk db)).
Proof.
  intros Hs. unfold refresh_rotate.
  case_scrutinee; simpl; [|exact Hs].
  eapply spent_add_refresh_token; [|exact E]. now apply spent_revoke_token.
Qed.

(** No request brings a spent digest back: revocation is never undone and
    the unique column keeps a second row for the digest out. *)
Lemma spent_serve (h : string) (r : request) (db : DB) :
  spent h db -> spent h (serve r db).
Proof.
  intros Hs. destruct r; simpl.
  - unfold register. case_scrutinee; simpl; auto.
  - unfold login. repeat (case_scrutinee; simpl; auto).
    eapply spent_add_refresh_token; eauto.
  - unfold refresh_token. repeat (case_scrutinee; simpl; auto).
    now apply refresh_rotate_spent.
  - exact Hs.
  - unfold forgot_password. repeat (case_scrutinee; simpl; auto).
  - unfold reset_password. repeat (case_scrutinee; simpl; auto).
Qed.

Lemma spent_serve_all (h : string) (rs : list request) (db : DB) :
  spent h db -> spent h (serve_all rs db).
Proof.
  revert db. induction rs as [|r rs IH]; simpl; intros db Hs; [exact Hs|].
  apply IH. now apply spent_serve.
Qed.

Lemma spent_refresh_lookup (payload : RefreshTokenRequest) (clk : clock)
    (db : DB) :
  spent (hash_token (rr_refresh_token payload)) db ->
  refresh_lookup payload clk db
  = HTTPException HTTP_401_UNAUTHORIZED "Invalid refresh token".
Proof.
  intros [[t [Hin Hh]] Hall]. unfold refresh_lookup, token_by_hash.
  destruct (find _ _) as [t'|] eqn:F.
  - apply find_some in F as [Hin' Hh'].
    apply String.eqb_eq in Hh'. now rewrite (Hall t' Hin' Hh').
  - reflexivity.
Qed.

Lemma refresh_lookup_Ok (payload : RefreshTokenRequest) (clk : clock)
    (db : DB) (t : RefreshToken) (u : User) :
  refresh_lookup payload clk db = Ok (t, u) ->
  token_by_hash db (hash_token (rr_refresh_token payload)) = Some t /\
  revoked t = false /\
  (expires_at t <? clk 0%nat) = false /\
  user_by_id db (rt_user_id t) = Some u.
Proof.
  unfold refresh_lookup. intros H.
  destruct (token_by_hash _ _) as [t'|]; [|discriminate].
  destruct (revoked t') eqn:R; [discriminate|].
  destruct (expires_at t' <? clk 0%nat) eqn:X; [discriminate|]. simpl in H.
  destruct (user_by_id _ _) as [u'|] eqn:U; [|discriminate].
  injection H as <- <-. auto.
Qed.

Lemma refresh_token_Ok_spent (payload : RefreshTokenRequest) (clk : clock)
    (db db1 : DB) (issued : TokenResponse) :
  token_hash_unique db ->
  refresh_token payload clk db = (Ok issued, db1) ->
  spent (hash_token (rr_refresh_token payload)) db1.
Proof.
  intros U H. unfold refresh_token in H.
  destruct (refresh_lookup payload clk db) as [[t u]| |] eqn:L;
    [|discriminate|discriminate].
  apply refresh_lookup_Ok in L as [F _].
  unfold token_by_hash in F. apply find_some in F as [Hin Hh].
  apply String.eqb_eq in Hh.
  unfold refresh_rotate in H.
  destruct (add_refresh_token _ _ _ _ _) as [db'|] eqn:A; [|discriminate].
  injection H as _ <-.
  eapply spent_add_refresh_token; [|exact A].
  split.
  - exists (set_revoked t).
    split; [|exact Hh].
    unfold revoke_token; simpl. apply in_map_iff. exists t.
    rewrite Z.eqb_refl. auto.
  - unfold revoke_token; simpl. intros t' Hin' Hh'.
    apply in_map_iff in Hin' as [t0 [<- Hin0]].
    assert (t0 = t) as ->.
    { apply (NoDup_map_eq token_hash (refresh_tokens db)); auto.
      rewrite Hh. destruct (rt_id t0 =? rt_id t); exact Hh'. }
    now rewrite Z.eqb_refl.
Qed.

End Ledger.

(* ===================================================================== *)
(** ** Rotation: a refresh token is used once *)
(* ===================================================================== *)

Section Rotation.
Context {ext : Externals}.

Lemma token_hash_unique_add (db db' : DB) (uid : Z) (h : string)
    (e now : datetime) :
  token_hash_unique db -> add_refresh_token db uid h e now = Some db' ->
  token_hash_unique db'.
Proof.
  unfold token_hash_unique. intros ND H.
  apply add_refresh_token_Some in H as [Hfresh [_ ->]].
  rewrite map_app. simpl.
  apply NoDup_app; [exact ND | repeat constructor; simpl; tauto |].
  intros x Hx [<-|[]]. now apply Hfresh.
Qed.

Lemma token_hash_unique_revoke (db : DB) (i : Z) :
  token_hash_unique db -> token_hash_unique (revoke_token db i).
Proof. unfold token_hash_unique. now rewrite revoke_token_hashes. Qed.

(** Every request keeps the unique constraint. *)
Lemma token_hash_unique_serve (r : request) (db : DB) :
  token_hash_unique db -> token_hash_unique (serve r db).
Proof.
  intros U. destruct r; simpl.
  - unfold register. case_scrutinee; simpl; auto.
  - unfold login. repeat (case_scrutinee; simpl; auto).
    eapply token_hash_unique_add; eauto.
  - unfold refresh_token, refresh_rotate. repeat (case_scrutinee; simpl; auto).
    eapply token_hash_unique_add; [|eauto].
    now apply token_hash_unique_revoke.
  - exact U.
  - unfold forgot_password. repeat (case_scrutinee; simpl; auto).
  - unfold reset_password. repeat (case_scrutinee; simpl; auto).
Qed.

Lemma token_hash_unique_serve_all (rs : list request) (db : DB) :
  token_hash_unique db -> token_hash_unique (serve_all rs db).
Proof.
  revert db. induction rs as [|r rs IH]; simpl; intros db U; [exact U|].
  apply IH. now apply token_hash_unique_serve.
Qed.

Lemma reachable_token_hash_unique (db : DB) :
  reachable db -> token_hash_unique db.
Proof.
  intros [rs <-]. apply token_hash_unique_serve_all. constructor.
Qed.

(** C1. Once [refresh] has consumed a refresh token (answering with a new
    pair), every later [refresh] presenting the same token is refused with
    401 Unauthorized and changes nothing, whatever requests were served in
    between: the token's ledger row is revoked, no request clears the flag,
    and the unique column keeps a second row for the same digest out. *)
Theorem C1_refresh_token_single_use (payload : RefreshTokenRequest)
    (clk : clock) (db db1 : DB) (issued : TokenResponse) :
  token_hash_unique db ->
  refresh_token payload clk db = (Ok issued, db1) ->
  forall (rs : list request) (clk' : clock),
    refresh_token payload clk' (serve_all rs db1)
    = (HTTPException HTTP_401_UNAUTHORIZED "Invalid refresh token",
       serve_all rs db1).
Proof.
  intros U H rs clk'.
  pose proof (refresh_token_Ok_spent _ _ _ _ _ U H) as S.
  apply (spent_serve_all _ rs) in S.
  unfold refresh_token. now rewrite (spent_refresh_lookup _ clk' _ S).
Qed.

End Rotation.

Lemma C1_refresh_token_single_use_witness :
  refresh_token (ext := Mock.externals) Mock.r1 (Mock.at_time (Mock.sec 400))
    (serve_all (ext := Mock.externals)
       [Login Mock.alice_login (Mock.at_time (Mock.sec 300))] Mock.db_rotated)
  = (HTTPException HTTP_401_UNAUTHORIZED "Invalid refresh token",
     serve_all (ext := Mock.externals)
       [Login Mock.alice_login (Mock.at_time (Mock.sec 300))] Mock.db_rotated).
Proof.
  apply (C1_refresh_token_single_use (ext := Mock.externals) Mock.r1
           (Mock.at_time (Mock.sec 200)) Mock.db_logged_in Mock.db_rotated
           Mock.rotated).
  - unfold token_hash_unique. vm_compute.
    repeat constructor. intros [].
  - vm_compute. reflexivity.
Defined.

(* ===================================================================== *)
(** ** [validate]: what is refused, what is returned *)
(* ===================================================================== *)

Section Validation.
Context {ext : Externals}.

(** A token whose signature or structure does not verify is refused. *)
Lemma validate_token_bad_signature (credentials : string) (now : datetime) :
  jws_verify credentials SECRET_KEY = None ->
  validate_token credentials now
  = HTTPException HTTP_401_UNAUTHORIZED "Invalid or expired token".
Proof.
  intros H. unfold validate_token, decode_token, jwt_decode. now rewrite H.
Qed.

(** A verified token whose expiry second has passed is refused, whatever
    else it claims, when its [iat] and [nbf] read as numbers. *)
Lemma validate_token_expired (credentials : string) (now : datetime)
    (claims : dict) (iat nbf : option Z) (exp : Z) :
  jws_verify credentials SECRET_KEY = Some claims ->
  time_claim claims "iat" = Ok iat ->
  time_claim claims "nbf" = Ok nbf ->
  dict_lookup claims "exp" = Some (PInt exp) ->
  exp < timegm now ->
  validate_token credentials now
  = HTTPException HTTP_401_UNAUTHORIZED "Invalid or expired token".
Proof.
  intros H I N E L.
  unfold validate_token, decode_token, jwt_decode, _validate_claims.
  rewrite H, I, N. unfold time_claim. rewrite E. cbn [py_int].
  apply Z.ltb_lt in L. rewrite L.
  now destruct (match nbf with Some n => timegm now <? n | None => false end).
Qed.

(** A token the service has made is decoded to its claims until its expiry
    second has passed. *)
Lemma jwt_decode_issued (uid : Z) (role type : string) (exp : Z)
    (now : datetime) :
  decode_inverts_encode ->
  jwt_decode (jwt_encode (claims_of uid role type exp) SECRET_KEY) SECRET_KEY
             now
  = if exp <? timegm now then Uncaught JWTError
    else Ok (claims_of uid role type exp).
Proof.
  intros RT. unfold jwt_decode. rewrite RT.
  unfold _validate_claims, time_claim, has_claim, absent_or_str.
  cbn [claims_of dict_lookup String.eqb Ascii.eqb Bool.eqb py_int negb].
  now destruct (exp <? timegm now).
Qed.

(** A decoded token whose [type] is not ["access"] is refused. *)
Lemma validate_token_wrong_type (credentials : string) (now : datetime)
    (payload : dict) :
  decode_token credentials now = Ok payload ->
  pyval_eqb (dict_get payload "type") (PStr "access") = false ->
  validate_token credentials now
  = HTTPException HTTP_401_UNAUTHORIZED "Invalid token type".
Proof. intros H T. unfold validate_token. now rewrite H, T. Qed.

(** In particular a refresh token is never validated. *)
Lemma validate_token_refresh_type (credentials : string) (now : datetime) :
  (forall payload, decode_token credentials now = Ok payload ->
                   dict_get payload "type" = PStr "refresh") ->
  is_ok (validate_token credentials now) = false.
Proof.
  intros H. unfold validate_token.
  destruct (decode_token credentials now) as [payload| |] eqn:D; try reflexivity.
  now rewrite (H payload eq_refl).
Qed.

(** A decoded access token without [id] is refused. *)
Lemma validate_token_missing_id (credentials : string) (now : datetime)
    (payload : dict) :
  decode_token credentials now = Ok payload ->
  dict_get payload "type" = PStr "access" ->
  dict_get payload "id" = PNone ->
  validate_token credentials now
  = HTTPException HTTP_401_UNAUTHORIZED "Token missing user id".
Proof. intros H T I. unfold validate_token. now rewrite H, T, I. Qed.

(** A decoded access token with an integer [id] is answered with that id and
    the token's role. *)
Lemma validate_token_returns (credentials : string) (now : datetime)
    (payload : dict) (n : Z) :
  decode_token credentials now = Ok payload ->
  dict_get payload "type" = PStr "access" ->
  dict_get payload "id" = PInt n ->
  validate_token credentials now
  = Ok (mkValidated n (dict_get payload "role")).
Proof. intros H T I. unfold validate_token. now rewrite H, T, I. Qed.

(** Nothing but a decoded access-type token is ever validated. *)
Lemma validate_token_Ok (credentials : string) (now : datetime)
    (v : Validated) :
  validate_token credentials now = Ok v ->
  exists payload,
    decode_token credentials now = Ok payload /\
    pyval_eqb (dict_get payload "type") (PStr "access") = true /\
    py_int (dict_get payload "id") = Ok (v_user_id v) /\
    v_role v = dict_get payload "role".
Proof.
  unfold validate_token. intros H.
  destruct (decode_token credentials now) as [payload| |]; try discriminate.
  exists payload. split; [reflexivity|].
  destruct (pyval_eqb _ _); [|discriminate]. simpl in H.
  split; [reflexivity|].
  destruct (dict_get payload "id") as [|b|z|s] eqn:I; cbn in H |- *;
    try discriminate.
  - inversion H; subst; auto.
  - inversion H; subst; auto.
  - destruct (int_of_str s); [|discriminate]. inversion H; subst; auto.
Qed.

(** C2. [validate] refuses an access token whose [id] claim is not a number
    with 401 Unauthorized.  Here the code is evaluated on such a token: the
    [int(user_id)] of [validate_token] is not guarded, [ValueError] escapes
    and the answer is 500, while [get_current_user_id], which reads the same
    claims, answers 401. *)
Theorem C2_validate_token_word_id (credentials : string) (now : datetime)
    (payload : dict) (s : string) :
  decode_token credentials now = Ok payload ->
  dict_get payload "type" = PStr "access" ->
  dict_get payload "id" = PStr s ->
  int_of_str s = None ->
  validate_token credentials now = Uncaught ValueError /\
  error_status (validate_token credentials now) = Some 500 /\
  get_current_user_id credentials now
  = HTTPException HTTP_401_UNAUTHORIZED "Invalid user id in token".
Proof.
  intros H T I P.
  assert (validate_token credentials now = Uncaught ValueError) as V.
  { unfold validate_token. rewrite H, T, I. simpl. now rewrite P. }
  rewrite V. repeat split.
  unfold get_current_user_id. rewrite H, T, I. simpl. now rewrite P.
Qed.

End Validation.

Lemma C2_validate_token_word_id_witness :
  validate_token (ext := Mock.externals) Mock.word_id_token (Mock.sec 10)
  = Uncaught ValueError /\
  error_status (validate_token (ext := Mock.externals) Mock.word_id_token
                               (Mock.sec 10)) = Some 500 /\
  get_current_user_id (ext := Mock.externals) Mock.word_id_token (Mock.sec 10)
  = HTTPException HTTP_401_UNAUTHORIZED "Invalid user id in token".
Proof.
  apply (C2_validate_token_word_id (ext := Mock.externals) Mock.word_id_token
           (Mock.sec 10)
           [("id", PStr "abc"); ("role", PStr "user"); ("type", PStr "access");
            ("exp", PInt 5000)] "abc");
    vm_compute; reflexivity.
Defined.

(* ===================================================================== *)
(** ** [refresh]: what decides acceptance *)
(* ===================================================================== *)

Section Acceptance.
Context {ext : Externals}.

(** C3, as the code has it. [refresh] accepts a presented text exactly when
    the first ledger row carrying the text's digest is not revoked and its
    [expires_at] is not before the clock's reading, the row's user exists,
    and the digest of the new refresh token is not yet in the ledger.  The
    text is only hashed: its signature, its type and its embedded expiry are
    not looked at. *)
Theorem C3_refresh_token_accepts_by_ledger (payload : RefreshTokenRequest)
    (clk : clock) (db : DB) :
  is_ok (fst (refresh_token payload clk db)) = true <->
  exists t u,
    token_by_hash db (hash_token (rr_refresh_token payload)) = Some t /\
    revoked t = false /\
    clk 0%nat <= expires_at t /\
    user_by_id db (rt_user_id t) = Some u /\
    ~ In (hash_token (create_refresh_token (u_id u) (str_or (u_role u) "user")
                                           (clk 2%nat)))
         (map token_hash (refresh_tokens db)).
Proof.
  unfold refresh_token. split.
  - destruct (refresh_lookup payload clk db) as [[t u]| |] eqn:L;
      try discriminate.
    apply refresh_lookup_Ok in L as [F [R [X U]]].
    unfold refresh_rotate.
    destruct (add_refresh_token _ _ _ _ _) as [db'|] eqn:A; [|discriminate].
    intros _. exists t, u. repeat split; auto.
    + apply Z.ltb_ge in X. exact X.
    + apply add_refresh_token_Some in A as [Hfresh _].
      now rewrite revoke_token_hashes in Hfresh.
  - intros [t [u [F [R [X [U Hfresh]]]]]].
    unfold refresh_lookup. rewrite F, R.
    apply Z.ltb_ge in X. rewrite X. simpl. rewrite U.
    unfold refresh_rotate, add_refresh_token.
    rewrite <- (revoke_token_hashes db (rt_id t)) in Hfresh.
    apply existsb_hash_false in Hfresh. now rewrite Hfresh.
Qed.

(** Two texts with the same digest are treated alike. *)
Lemma refresh_token_by_digest (s s' : string) (clk : clock) (db : DB) :
  hash_token s = hash_token s' ->
  refresh_token (mkRefreshTokenRequest s) clk db
  = refresh_token (mkRefreshTokenRequest s') clk db.
Proof.
  intros H. unfold refresh_token, refresh_lookup. simpl. now rewrite H.
Qed.

End Acceptance.

(** A text that is no token at all is accepted by [refresh] when a live
    ledger row carries its digest. *)
Lemma C3_refresh_token_unsigned_text_accepted :
  jws_verify (Externals := Mock.externals) "not-a-token"
             (SECRET_KEY (Externals := Mock.externals)) = None /\
  valid_refresh_jwt (ext := Mock.externals) "not-a-token" (Mock.sec 10) = false /\
  is_ok (fst (refresh_token (ext := Mock.externals)
                (mkRefreshTokenRequest "not-a-token")
                (Mock.at_time (Mock.sec 10)) Mock.db_foreign_row)) = true.
Proof. vm_compute. auto. Qed.

(** In a store the service reaches by a registration and a login, a refresh
    token whose embedded expiry second has passed is still accepted: the
    ledger row expires a little later than the token. *)
Lemma refresh_token_accepts_expired_jwt :
  reachable (ext := Mock.externals) Mock.db_straddled /\
  decode_token (ext := Mock.externals) Mock.r_straddled (Mock.sec 604901)
  = HTTPException HTTP_401_UNAUTHORIZED "Invalid or expired token" /\
  is_ok (fst (refresh_token (ext := Mock.externals)
                (mkRefreshTokenRequest Mock.r_straddled)
                (Mock.at_time (Mock.sec 604901)) Mock.db_straddled)) = true.
Proof.
  split.
  - exists [Register Mock.alice "NaCl"; Login Mock.alice_login Mock.straddling].
    reflexivity.
  - vm_compute. auto.
Qed.

(* ===================================================================== *)
(** ** Racing refresh requests *)
(* ===================================================================== *)

Section Racing.
Context {ext : Externals}.

(** A refused [refresh] leaves the store as it was. *)
Lemma refresh_token_refused_unchanged (payload : RefreshTokenRequest)
    (clk : clock) (db : DB) :
  is_ok (fst (refresh_token payload clk db)) = false ->
  snd (refresh_token payload clk db) = db.
Proof.
  unfold refresh_token, refresh_rotate.
  repeat (case_scrutinee; simpl; auto). discriminate.
Qed.

Lemma refresh_in_turn_spent (payload : RefreshTokenRequest)
    (clks : list clock) (db : DB) :
  spent (hash_token (rr_refresh_token payload)) db ->
  filter is_ok (fst (refresh_in_turn payload clks db)) = [].
Proof.
  revert db. induction clks as [|clk clks IH]; simpl; intros db S; [reflexivity|].
  pose proof (spent_serve _ (Refresh payload clk) db S) as S'. simpl in S'.
  destruct (refresh_token payload clk db) as [r db'] eqn:R.
  specialize (IH db' S').
  destruct (refresh_in_turn payload clks db') as [rs db''] eqn:T.
  simpl in *. rewrite IH.
  unfold refresh_token in R.
  rewrite (spent_refresh_lookup payload clk db S) in R.
  now injection R as <- _.
Qed.

Lemma refresh_in_turn_at_most_once (payload : RefreshTokenRequest)
    (clks : list clock) (db : DB) :
  token_hash_unique db ->
  (List.length (filter is_ok (fst (refresh_in_turn payload clks db))) <= 1)%nat.
Proof.
  revert db. induction clks as [|clk clks IH]; simpl; intros db U; [lia|].
  destruct (refresh_token payload clk db) as [r db'] eqn:R.
  destruct (is_ok r) eqn:K.
  - destruct r as [issued| |]; try discriminate.
    pose proof (refresh_token_Ok_spent _ _ _ _ _ U R) as S.
    pose proof (refresh_in_turn_spent payload clks db' S) as Z.
    destruct (refresh_in_turn payload clks db') as [rs db'']. simpl in *.
    rewrite Z. simpl. lia.
  - pose proof (refresh_token_refused_unchanged payload clk db) as E.
    rewrite R in E. simpl in E. specialize (E K). subst db'.
    specialize (IH db U).
    destruct (refresh_in_turn payload clks db) as [rs db'']. simpl in *.
    now rewrite K.
Qed.

(** The two moves of one caller, made in a row, are [refresh_token]. *)
Lemma move_move (payload : RefreshTokenRequest) (clk : clock) (db : DB) :
  let '(c, db1) := move (Waiting payload clk) db in
  move c db1 = (Finished (fst (refresh_token payload clk db)),
                snd (refresh_token payload clk db)).
Proof.
  unfold move, refresh_token.
  destruct (refresh_lookup payload clk db) as [[t u]| |]; try reflexivity.
  now destruct (refresh_rotate t u clk db).
Qed.

Lemma nth_error_middle {A} (l1 l2 : list A) (x : A) :
  nth_error (l1 ++ x :: l2) (List.length l1) = Some x.
Proof. induction l1; simpl; auto. Qed.

Lemma set_nth_middle {A} (l1 l2 : list A) (x y : A) :
  set_nth (List.length l1) y (l1 ++ x :: l2) = (l1 ++ y :: l2)%list.
Proof. induction l1; simpl; congruence. Qed.

Lemma run_serial_schedule_from (payload : RefreshTokenRequest)
    (clks : list clock) (done : list caller) (db : DB) :
  run_schedule (serial_schedule_from (List.length done) (List.length clks))
               (done ++ map (Waiting payload) clks) db
  = ((done ++ map Finished (fst (refresh_in_turn payload clks db)))%list,
     snd (refresh_in_turn payload clks db)).
Proof.
  revert done db. induction clks as [|clk clks IH]; intros done db.
  - reflexivity.
  - cbn [List.length serial_schedule_from map run_schedule].
    rewrite nth_error_middle.
    pose proof (move_move payload clk db) as M.
    destruct (move (Waiting payload clk) db) as [c db1].
    rewrite set_nth_middle.
    cbn [run_schedule]. rewrite nth_error_middle, M, set_nth_middle.
    cbn [refresh_in_turn].
    destruct (refresh_token payload clk db) as [r db'].
    specialize (IH (done ++ [Finished r])%list db').
    rewrite length_app, Nat.add_1_r, <- app_assoc in IH. simpl in IH.
    cbn [fst snd]. rewrite IH.
    destruct (refresh_in_turn payload clks db') as [rs db'']. simpl.
    now rewrite <- app_assoc.
Qed.

Lemma filter_succeeded_Finished (rs : list (result TokenResponse)) :
  List.length (filter succeeded (map Finished rs))
  = List.length (filter is_ok rs).
Proof.
  induction rs as [|r rs IH]; simpl; [reflexivity|].
  destruct r; simpl; congruence.
Qed.

(** C4, as the code has it. [refresh] reads the ledger row, checks it in the
    handler and writes at commit.  When [n] requests presenting the same
    token are served one after the other (the serial schedule), at most one
    of them succeeds. *)
Theorem C4_refresh_token_in_turn_at_most_once (payload : RefreshTokenRequest)
    (clks : list clock) (db : DB) :
  token_hash_unique db ->
  (count_succeeded
     (fst (run_schedule (serial_schedule (List.length clks))
                        (map (Waiting payload) clks) db)) <= 1)%nat.
Proof.
  intros U. unfold serial_schedule, count_succeeded.
  pose proof (run_serial_schedule_from payload clks [] db) as R.
  simpl in R. rewrite R. simpl.
  rewrite filter_succeeded_Finished.
  now apply refresh_in_turn_at_most_once.
Qed.

End Racing.

Lemma C4_refresh_token_in_turn_at_most_once_witness :
  (count_succeeded
     (fst (run_schedule (ext := Mock.externals) (serial_schedule 2)
             (map (Waiting Mock.r1)
                  [Mock.at_time (Mock.sec 200); Mock.at_time (Mock.sec 201)])
             Mock.db_logged_in)) <= 1)%nat.
Proof.
  apply (C4_refresh_token_in_turn_at_most_once (ext := Mock.externals) Mock.r1
           [Mock.at_time (Mock.sec 200); Mock.at_time (Mock.sec 201)]
           Mock.db_logged_in).
  unfold token_hash_unique. vm_compute. repeat constructor. intros [].
Defined.

(** Two requests presenting the same token, each making its queries before
    the other commits: both succeed. *)
Lemma C4_refresh_token_overlapping_both_succeed :
  count_succeeded
    (fst (run_schedule (ext := Mock.externals) [0; 1; 0; 1]%nat
            [Waiting Mock.r1 (Mock.at_time (Mock.sec 200));
             Waiting Mock.r1 (Mock.at_time (Mock.sec 201))]
            Mock.db_logged_in)) = 2%nat.
Proof. vm_compute. reflexivity. Qed.

(* ===================================================================== *)
(** ** Register, login, validate *)
(* ===================================================================== *)

Section RegisterLogin.
Context {ext : Externals}.

Lemma le_fold_max (ids : list Z) (x : Z) :
  In x ids -> x <= fold_right Z.max 0 ids.
Proof.
  induction ids as [|a ids IH]; simpl; [contradiction|].
  intros [->|H]; [lia|]. specialize (IH H). lia.
Qed.

(** The primary key of a new row is not in use. *)
Lemma next_id_fresh (ids : list Z) : ~ In (next_id ids) ids.
Proof.
  intros H. apply le_fold_max in H. unfold next_id in H. lia.
Qed.

Lemma create_refresh_token_claims (uid : Z) (role : string) (now : datetime) :
  create_refresh_token uid role now
  = jwt_encode (claims_of uid role "refresh"
                  (timegm (now + timedelta_days REFRESH_TOKEN_EXPIRE_DAYS)))
               SECRET_KEY.
Proof. reflexivity. Qed.

Lemma create_access_token_claims (uid : Z) (role : string) (now : datetime) :
  create_access_token uid role now
  = jwt_encode (claims_of uid role "access"
                  (timegm (now + timedelta_minutes ACCESS_TOKEN_EXPIRE_MINUTES)))
               SECRET_KEY.
Proof. reflexivity. Qed.

Lemma update_user_ids (db : DB) (i : Z) (f : User -> User) :
  (forall u, u_id (f u) = u_id u) ->
  map u_id (users (update_user db i f)) = map u_id (users db).
Proof.
  intros H. unfold update_user; simpl. rewrite map_map. apply map_ext.
  intros u. destruct (u_id u =? i); auto.
Qed.

Lemma user_by_email_In (db : DB) (e : string) (u : User) :
  user_by_email db e = Some u -> In u (users db) /\ u_email u = e.
Proof.
  unfold user_by_email. intros H. apply find_some in H as [Hin He].
  now apply String.eqb_eq in He.
Qed.

Lemma user_by_id_In (db : DB) (i : Z) (u : User) :
  user_by_id db i = Some u -> In u (users db) /\ u_id u = i.
Proof.
  unfold user_by_id. intros H. apply find_some in H as [Hin He].
  now apply Z.eqb_eq in He.
Qed.


Lemma register_Ok (user : UserCreate) (salt : string) (db db1 : DB)
    (u : UserPublic) :
  register user salt db = (Ok u, db1) ->
  let new_user :=
    mkUser (next_id (map u_id (users db))) (uc_name user) (uc_email user)
           (hash_password salt (uc_password user)) (Some "user") None None in
  user_by_email db (uc_email user) = None /\
  u = mkUserPublic (u_id new_user) (uc_name user) (uc_email user) "user" /\
  db1 = mkDB (users db ++ [new_user]) (refresh_tokens db).
Proof.
  unfold register. destruct (user_by_email db (uc_email user)); [discriminate|].
  intros H. injection H as <- <-. auto.
Qed.


End RegisterLogin.

(* ===================================================================== *)
(** ** The reset code *)
(* ===================================================================== *)

Section ResetCode.
Context {ext : Externals}.

(** The row a query by email finds, after an UPDATE by primary key that
    keeps emails. *)
Lemma user_by_email_update_user (db : DB) (e : string) (u : User)
    (f : User -> User) :
  (forall x, u_email (f x) = u_email x) ->
  user_by_email db e = Some u ->
  user_by_email (update_user db (u_id u) f) e = Some (f u).
Proof.
  intros Hf. unfold user_by_email, update_user; simpl.
  induction (users db) as [|a l IH]; simpl; [discriminate|].
  destruct (String.eqb_spec (u_email a) e) as [Ea|Na].
  - intros H. injection H as ->. rewrite Z.eqb_refl, Hf.
    now rewrite Ea, String.eqb_refl.
  - intros H. specialize (IH H).
    assert (u_email (if u_id a =? u_id u then f a else a) = u_email a) as Em
      by (destruct (u_id a =? u_id u); auto).
    rewrite Em. destruct (String.eqb_spec (u_email a) e); [contradiction|].
    exact IH.
Qed.

(** A pending, unexpired code that matches is accepted; the row then holds
    the new password hash and no code. *)
Lemma reset_password_accepts (payload : ResetPasswordRequest) (salt : string)
    (clk : clock) (db : DB) (u : User) (e : datetime) :
  digest_nonempty ->
  user_by_email db (rp_email payload) = Some u ->
  u_reset_code_hash u = Some (hash_token (rp_otp payload)) ->
  u_reset_code_expires_at u = Some e ->
  clk 0%nat <= e ->
  let u' := mkUser (u_id u) (u_name u) (u_email u)
                   (hash_password salt (rp_new_password payload))
                   (u_role u) None None in
  reset_password payload salt clk db
  = (Ok "Password updated",
     update_user db (u_id u)
       (fun x => mkUser (u_id x) (u_name x) (u_email x)
                        (hash_password salt (rp_new_password payload))
                        (u_role x) None None)) /\
  user_by_email (snd (reset_password payload salt clk db)) (rp_email payload)
  = Some u'.
Proof.
  intros NE F Hh He L u'.
  assert (reset_password payload salt clk db
          = (Ok "Password updated",
             update_user db (u_id u)
               (fun x => mkUser (u_id x) (u_name x) (u_email x)
                                (hash_password salt (rp_new_password payload))
                                (u_role x) None None))) as R.
  { unfold reset_password. rewrite F, Hh, He.
    destruct (String.eqb_spec (hash_token (rp_otp payload)) "") as [E0|_];
      [now apply NE in E0|].
    apply Z.ltb_ge in L. rewrite L, String.eqb_refl. reflexivity. }
  split; [exact R|]. rewrite R. cbn [snd].
  now apply (user_by_email_update_user db (rp_email payload) u
               (fun x => mkUser (u_id x) (u_name x) (u_email x)
                                (hash_password salt (rp_new_password payload))
                                (u_role x) None None)).
Qed.

(** C6. When the row found for the email holds the digest of the supplied
    code and an expiry that has not passed, [resetPassword] succeeds, puts
    the hash of the new password in the row and clears the code's digest and
    expiry; the same request made again is refused: the code is used once. *)
Theorem C6_reset_password_single_use (payload : ResetPasswordRequest)
    (salt : string) (clk : clock) (db : DB) (u : User) (e : datetime) :
  digest_nonempty ->
  user_by_email db (rp_email payload) = Some u ->
  u_reset_code_hash u = Some (hash_token (rp_otp payload)) ->
  u_reset_code_expires_at u = Some e ->
  clk 0%nat <= e ->
  exists db' u',
    reset_password payload salt clk db = (Ok "Password updated", db') /\
    user_by_email db' (rp_email payload) = Some u' /\
    u_id u' = u_id u /\
    u_password u' = hash_password salt (rp_new_password payload) /\
    u_reset_code_hash u' = None /\
    u_reset_code_expires_at u' = None /\
    forall (salt' : string) (clk' : clock),
      reset_password payload salt' clk' db'
      = (HTTPException HTTP_400_BAD_REQUEST "OTP not requested", db').
Proof.
  intros NE F Hh He L.
  destruct (reset_password_accepts payload salt clk db u e NE F Hh He L)
    as [R F'].
  rewrite R in F'. cbn [snd] in F'.
  eexists _, _. split; [exact R|]. split; [exact F'|].
  cbn [u_id u_password u_reset_code_hash u_reset_code_expires_at].
  repeat split.
  intros salt' clk'. unfold reset_password. now rewrite F'.
Qed.

Lemma reset_failure_detail_inj (c1 c2 : reset_failure) :
  reset_failure_detail c1 = reset_failure_detail c2 -> c1 = c2.
Proof. destruct c1, c2; simpl; intros H; try reflexivity; discriminate. Qed.

(** C7, as the code has it. Every refused [resetPassword] is answered with
    status 400 and leaves the store as it was, but the [detail] of the answer
    is the text of its cause, and the four causes have four different
    texts. *)
Theorem C7_reset_password_refusals (payload : ResetPasswordRequest)
    (salt : string) (clk : clock) (db : DB) :
  is_ok (fst (reset_password payload salt clk db)) = false ->
  (exists cause,
     reset_failure_cause payload clk db = Some cause /\
     reset_password payload salt clk db
     = (HTTPException HTTP_400_BAD_REQUEST (reset_failure_detail cause), db)) /\
  (forall c1 c2,
     reset_failure_detail c1 = reset_failure_detail c2 -> c1 = c2).
Proof.
  intros K. split; [|exact reset_failure_detail_inj].
  unfold reset_password, reset_failure_cause in *.
  destruct (user_by_email db (rp_email payload)) as [u|];
    [|exists UnknownEmail; auto].
  destruct (u_reset_code_hash u) as [h|], (u_reset_code_expires_at u) as [e|];
    try (exists NoOtpPending; split; reflexivity).
  destruct (String.eqb h ""); [exists NoOtpPending; auto|].
  destruct (e <? clk 0%nat); [exists OtpExpired; auto|].
  destruct (String.eqb (hash_token (rp_otp payload)) h); cbn [negb] in *;
    [discriminate | exists OtpMismatch; auto].
Qed.

End ResetCode.

Lemma C6_reset_password_single_use_witness :
  exists db' u',
    reset_password (ext := Mock.externals) Mock.alice_reset "KCl"
                   (Mock.at_time (Mock.sec 1100)) Mock.db_otp_pending
    = (Ok "Password updated", db') /\
    user_by_email db' "a@x.com" = Some u' /\
    u_id u' = 1 /\
    u_password u'
    = hash_password (ext := Mock.externals) "KCl" "new-password" /\
    u_reset_code_hash u' = None /\
    u_reset_code_expires_at u' = None /\
    forall (salt' : string) (clk' : clock),
      reset_password (ext := Mock.externals) Mock.alice_reset salt' clk' db'
      = (HTTPException HTTP_400_BAD_REQUEST "OTP not requested", db').
Proof.
  apply (C6_reset_password_single_use (ext := Mock.externals) Mock.alice_reset
           "KCl" (Mock.at_time (Mock.sec 1100)) Mock.db_otp_pending
           (Mock.row_of Mock.db_otp_pending "a@x.com")
           (Mock.sec 1000 + timedelta_minutes 15)
           MockFacts.digest_nonempty_holds).
  - vm_compute. reflexivity.
  - vm_compute. reflexivity.
  - vm_compute. reflexivity.
  - vm_compute. discriminate.
Defined.

Lemma C7_reset_password_refusals_witness :
  (exists cause,
     reset_failure_cause (ext := Mock.externals) Mock.alice_reset
                         (Mock.at_time (Mock.sec 1100)) Mock.db_registered
     = Some cause /\
     reset_password (ext := Mock.externals) Mock.alice_reset "KCl"
                    (Mock.at_time (Mock.sec 1100)) Mock.db_registered
     = (HTTPException HTTP_400_BAD_REQUEST (reset_failure_detail cause),
        Mock.db_registered)) /\
  (forall c1 c2,
     reset_failure_detail c1 = reset_failure_detail c2 -> c1 = c2).
Proof.
  apply (C7_reset_password_refusals (ext := Mock.externals) Mock.alice_reset
           "KCl" (Mock.at_time (Mock.sec 1100)) Mock.db_registered).
  vm_compute. reflexivity.
Defined.

(** Two refused [resetPassword] requests, one for an email nobody has and
    one for Alice, who asked for no code: the answers differ. *)
Lemma C7_reset_password_refusals_differ :
  let unknown :=
    fst (reset_password (ext := Mock.externals)
           (mkResetPasswordRequest "nobody@x.com" "000042" "new-password")
           "KCl" (Mock.at_time (Mock.sec 1100)) Mock.db_registered) in
  let no_code :=
    fst (reset_password (ext := Mock.externals) Mock.alice_reset "KCl"
           (Mock.at_time (Mock.sec 1100)) Mock.db_registered) in
  is_ok unknown = false /\ is_ok no_code = false /\
  error_body unknown = Some "Invalid email or OTP" /\
  error_body no_code = Some "OTP not requested" /\
  unknown <> no_code.
Proof. vm_compute. repeat split; discriminate. Qed.

(* ===================================================================== *)
(** ** Refused logins *)
(* ===================================================================== *)

Section LoginRefusals.
Context {ext : Externals}.

(** C8, as the code has it. A [login] for an email the store does not have
    and a [login] for a known email with a password that does not verify are
    both answered with status 400 and leave the store as it was, but with
    different [detail] texts: ["User not found"] and ["Wrong password"]. *)
Theorem C8_login_refusals (unknown known : UserLogin) (clk clk' : clock)
    (db : DB) (u : User) :
  user_by_email db (ul_email unknown) = None ->
  user_by_email db (ul_email known) = Some u ->
  verify_password (ul_password known) (u_password u) = false ->
  login unknown clk db
  = (HTTPException HTTP_400_BAD_REQUEST "User not found", db) /\
  login known clk' db
  = (HTTPException HTTP_400_BAD_REQUEST "Wrong password", db) /\
  error_status (fst (login unknown clk db))
  = error_status (fst (login known clk' db)) /\
  error_body (fst (login unknown clk db))
  <> error_body (fst (login known clk' db)).
Proof.
  intros N K V.
  assert (login unknown clk db
          = (HTTPException HTTP_400_BAD_REQUEST "User not found", db)) as L1
    by (unfold login; now rewrite N).
  assert (login known clk' db
          = (HTTPException HTTP_400_BAD_REQUEST "Wrong password", db)) as L2
    by (unfold login; now rewrite K, V).
  rewrite L1, L2. repeat split. simpl. discriminate.
Qed.

End LoginRefusals.

Lemma C8_login_refusals_witness :
  login (ext := Mock.externals) Mock.unknown_email_login
        (Mock.at_time (Mock.sec 100)) Mock.db_registered
  = (HTTPException HTTP_400_BAD_REQUEST "User not found", Mock.db_registered) /\
  login (ext := Mock.externals) Mock.wrong_password_login
        (Mock.at_time (Mock.sec 100)) Mock.db_registered
  = (HTTPException HTTP_400_BAD_REQUEST "Wrong password", Mock.db_registered) /\
  error_status
    (fst (login (ext := Mock.externals) Mock.unknown_email_login
                (Mock.at_time (Mock.sec 100)) Mock.db_registered))
  = error_status
      (fst (login (ext := Mock.externals) Mock.wrong_password_login
                  (Mock.at_time (Mock.sec 100)) Mock.db_registered)) /\
  error_body
    (fst (login (ext := Mock.externals) Mock.unknown_email_login
                (Mock.at_time (Mock.sec 100)) Mock.db_registered))
  <> error_body
       (fst (login (ext := Mock.externals) Mock.wrong_password_login
                   (Mock.at_time (Mock.sec 100)) Mock.db_registered)).
Proof.
  apply (C8_login_refusals (ext := Mock.externals) Mock.unknown_email_login
           Mock.wrong_password_login (Mock.at_time (Mock.sec 100))
           (Mock.at_time (Mock.sec 100)) Mock.db_registered
           (Mock.row_of Mock.db_registered "a@x.com"));
    vm_compute; reflexivity.
Defined.

(** A refused login for an unknown email and one for a wrong password: the
    answers differ. *)
Lemma C8_login_refusals_differ :
  let unknown :=
    fst (login (ext := Mock.externals) Mock.unknown_email_login
               (Mock.at_time (Mock.sec 100)) Mock.db_registered) in
  let wrong :=
    fst (login (ext := Mock.externals) Mock.wrong_password_login
               (Mock.at_time (Mock.sec 100)) Mock.db_registered) in
  is_ok unknown = false /\ is_ok wrong = false /\
  error_body unknown = Some "User not found" /\
  error_body wrong = Some "Wrong password" /\
  unknown <> wrong.
Proof. vm_compute. repeat split; discriminate. Qed.

(* ===================================================================== *)
(** ** The trust adapter fails closed *)
(* ===================================================================== *)

(** C9. For a protected route of the book service whose bearer token is
    forwarded: when the auth service answers with a status other than 200
    the request is refused with 401, and when the call fails
    ([httpx.RequestError]) it is refused with 503.  In both cases the
    route's body is not run: the answer and the state do not depend on
    it. *)
Theorem C9_protected_route_fails_closed {A S : Type}
    (route : dict -> S -> result A * S) (credentials : string) (s : S) :
  credentials <> "" ->
  (forall status_code body,
     status_code <> 200 ->
     protected_route route credentials (Response status_code body) s
     = (HTTPException HTTP_401_UNAUTHORIZED "Invalid token", s)) /\
  protected_route route credentials RequestError s
  = (HTTPException HTTP_503_SERVICE_UNAVAILABLE "Auth service unavailable", s).
Proof.
  intros NE. unfold protected_route, get_current_user.
  destruct (String.eqb_spec credentials "") as [E|_]; [contradiction|].
  split; [|reflexivity].
  intros c body Hc. apply Z.eqb_neq in Hc. now rewrite Hc.
Qed.

Lemma C9_protected_route_fails_closed_witness :
  (forall status_code body,
     status_code <> 200 ->
     protected_route Mock.counting_route "some.bearer.token"
                     (Response status_code body) 0%nat
     = (HTTPException HTTP_401_UNAUTHORIZED "Invalid token", 0%nat)) /\
  protected_route Mock.counting_route "some.bearer.token" RequestError 0%nat
  = (HTTPException HTTP_503_SERVICE_UNAVAILABLE "Auth service unavailable",
     0%nat).
Proof.
  apply (C9_protected_route_fails_closed Mock.counting_route
           "some.bearer.token" 0%nat).
  discriminate.
Defined.

(* ===================================================================== *)
(** ** The reset code is stored before the mail is sent *)
(* ===================================================================== *)

Section ForgotPassword.
Context {ext : Externals}.

(** With the mail settings complete, a failed call or a status other than
    200 and 201 makes [_send_email] raise 502. *)
Lemma _send_email_fails (to_email subject body : string)
    (net : httpx_outcome string) :
  truthy_str RESEND_API_KEY = true ->
  truthy_str RESEND_FROM = true ->
  (net = RequestError \/
   exists status_code text,
     net = Response status_code text /\
     status_code <> 200 /\ status_code <> 201) ->
  exists detail,
    _send_email to_email subject body net
    = HTTPException HTTP_502_BAD_GATEWAY detail.
Proof.
  intros K F H. unfold _send_email. rewrite K, F. simpl.
  destruct H as [->|[c [text [-> [H0 H1]]]]]; [eauto|].
  apply Z.eqb_neq in H0, H1. rewrite H0, H1. simpl. eauto.
Qed.

(** C10. [forgotPassword] commits the digest of the new code and its
    15-minute expiry before it asks for the mail to be sent.  When the mail
    settings are complete and the delivery fails, the caller gets 502, the
    row nevertheless holds the new code, and [resetPassword] with that code
    succeeds until the expiry. *)
Theorem C10_forgot_password_commits_before_sending
    (payload : ForgotPasswordRequest) (rand : Z) (clk : clock)
    (net : httpx_outcome string) (db : DB) (u : User) :
  digest_nonempty ->
  user_by_email db (fp_email payload) = Some u ->
  truthy_str RESEND_API_KEY = true ->
  truthy_str RESEND_FROM = true ->
  (net = RequestError \/
   exists status_code text,
     net = Response status_code text /\
     status_code <> 200 /\ status_code <> 201) ->
  exists detail db' u',
    forgot_password payload rand clk net db
    = (HTTPException HTTP_502_BAD_GATEWAY detail, db') /\
    user_by_email db' (fp_email payload) = Some u' /\
    u_reset_code_hash u' = Some (hash_token (format_06d rand)) /\
    u_reset_code_expires_at u' = Some (clk 0%nat + timedelta_minutes 15) /\
    forall (new_password salt : string) (clk' : clock),
      clk' 0%nat <= clk 0%nat + timedelta_minutes 15 ->
      fst (reset_password
             (mkResetPasswordRequest (fp_email payload) (format_06d rand)
                                     new_password)
             salt clk' db')
      = Ok "Password updated".
Proof.
  intros NE F K Fr H.
  destruct (_send_email_fails (fp_email payload) "Your password reset code"
              ("Your OTP code is " ++ format_06d rand
                 ++ ". It expires in 15 minutes.")%string net K Fr H)
    as [detail Hs].
  pose proof (user_by_email_update_user db (fp_email payload) u
                (set_reset_code (Some (hash_token (format_06d rand)))
                                (Some (clk 0%nat + timedelta_minutes 15)))
                (fun x => eq_refl) F) as F'.
  eexists detail, _, _. split.
  - unfold forgot_password. rewrite F, Hs. reflexivity.
  - split; [exact F'|]. split; [reflexivity|]. split; [reflexivity|].
    intros new_password salt clk' L.
    destruct (reset_password_accepts
                (mkResetPasswordRequest (fp_email payload) (format_06d rand)
                                        new_password)
                salt clk' _ _ _ NE F' eq_refl eq_refl L) as [R _].
    now rewrite R.
Qed.

End ForgotPassword.

Lemma C10_forgot_password_commits_before_sending_witness :
  exists detail db' u',
    forgot_password (ext := Mock.externals)
      (mkForgotPasswordRequest "a@x.com") 42 (Mock.at_time (Mock.sec 1000))
      (Response 500 "provider down") Mock.db_registered
    = (HTTPException HTTP_502_BAD_GATEWAY detail, db') /\
    user_by_email db' "a@x.com" = Some u' /\
    u_reset_code_hash u'
    = Some (hash_token (ext := Mock.externals) (format_06d 42)) /\
    u_reset_code_expires_at u' = Some (Mock.sec 1000 + timedelta_minutes 15) /\
    forall (new_password salt : string) (clk' : clock),
      clk' 0%nat <= Mock.sec 1000 + timedelta_minutes 15 ->
      fst (reset_password (ext := Mock.externals)
             (mkResetPasswordRequest "a@x.com" (format_06d 42) new_password)
             salt clk' db')
      = Ok "Password updated".
Proof.
  apply (C10_forgot_password_commits_before_sending (ext := Mock.externals)
           (mkForgotPasswordRequest "a@x.com") 42
           (Mock.at_time (Mock.sec 1000)) (Response 500 "provider down")
           Mock.db_registered (Mock.row_of Mock.db_registered "a@x.com")
           MockFacts.digest_nonempty_holds).
  - vm_compute. reflexivity.
  - vm_compute. reflexivity.
  - vm_compute. reflexivity.
  - right. exists 500, "provider down". repeat split; discriminate.
Defined.

(* ===================================================================== *)
(** ** What every request keeps *)
(* ===================================================================== *)

Section Commits.
Context {ext : Externals}.

(** Every request commits one of the four shapes of [store_step]. *)
Lemma serve_store_step (r : request) (db : DB) : store_step db (serve r db).
Proof.
  destruct r; simpl.
  - unfold register. case_scrutinee; simpl; [now apply step_same|].
    eapply step_user_added; [| | |reflexivity]; auto.
  - unfold login. case_scrutinee; simpl; [|now apply step_same].
    case_scrutinee; simpl; [now apply step_same|].
    case_scrutinee; simpl; [|now apply step_same].
    apply user_by_email_In in E as [Hin _].
    exact (step_row_issued db d None u _ _ _ Hin E1).
  - unfold refresh_token. case_scrutinee; simpl; try now apply step_same.
    destruct a as [t u]. apply refresh_lookup_Ok in E as [_ [_ [_ Eu]]].
    apply user_by_id_In in Eu as [Hin _].
    unfold refresh_rotate. case_scrutinee; simpl; [|now apply step_same].
    exact (step_row_issued db d (Some (rt_id t)) u _ _ _ Hin E).
  - now apply step_same.
  - unfold forgot_password. case_scrutinee; simpl; [|now apply step_same].
    assert (store_step db
              (update_user db (u_id u)
                 (set_reset_code (Some (hash_token (format_06d rand)))
                                 (Some (clk 0%nat + timedelta_minutes 15)))))
      by (eapply step_user_updated; [|reflexivity]; intros x; simpl; auto).
    repeat (case_scrutinee; simpl; auto).
  - unfold reset_password. repeat (case_scrutinee; simpl; try now apply step_same).
    eapply step_user_updated; [|reflexivity]. intros x; simpl; auto.
Qed.

End Commits.

Section Invariants.
Context {ext : Externals}.

Lemma serve_all_app (rs rs' : list request) (db : DB) :
  serve_all (rs ++ rs') db = serve_all rs' (serve_all rs db).
Proof. unfold serve_all. apply fold_left_app. Qed.

(** What holds of the empty store and is kept by every commit holds of every
    store the service can be in. *)
Lemma reachable_invariant (P : DB -> Prop) :
  P empty_db ->
  (forall db db', P db -> store_step db db' -> P db') ->
  forall db, reachable db -> P db.
Proof.
  intros P0 Pstep db [rs <-]. unfold serve_all.
  revert P0. generalize empty_db.
  induction rs as [|r rs IH]; simpl; intros d Pd; [exact Pd|].
  apply IH. eapply Pstep; [exact Pd|]. apply serve_store_step.
Qed.

Lemma serve_all_invariant (P : DB -> Prop) :
  (forall db db', P db -> store_step db db' -> P db') ->
  forall rs db, P db -> P (serve_all rs db).
Proof.
  intros Pstep rs. induction rs as [|r rs IH]; simpl; intros db Pd; [exact Pd|].
  apply IH. eapply Pstep; [exact Pd|]. apply serve_store_step.
Qed.

Lemma update_user_map (db : DB) (i : Z) (f : User -> User) {B}
    (g : User -> B) :
  (forall u, g (f u) = g u) ->
  map g (users (update_user db i f)) = map g (users db).
Proof.
  intros H. unfold update_user; simpl. rewrite map_map. apply map_ext.
  intros u. destruct (u_id u =? i); auto.
Qed.

Lemma user_by_email_None (db : DB) (e : string) :
  user_by_email db e = None <-> ~ In e (map u_email (users db)).
Proof.
  unfold user_by_email. split.
  - intros H Hin. apply in_map_iff in Hin as [u [<- Hu]].
    pose proof (find_none _ _ H u Hu) as F. simpl in F.
    now rewrite String.eqb_refl in F.
  - intros H. destruct (find _ _) as [u|] eqn:F; [|reflexivity].
    apply find_some in F as [Hin He]. apply String.eqb_eq in He.
    exfalso. apply H. rewrite <- He. now apply in_map.
Qed.

Lemma NoDup_snoc {A} (l : list A) (x : A) :
  NoDup l -> ~ In x l -> NoDup (l ++ [x]).
Proof.
  intros ND H. apply NoDup_app; [exact ND | repeat constructor; simpl; tauto |].
  intros y Hy [<-|[]]. now apply H.
Qed.

Lemma store_step_email_unique (db db' : DB) :
  email_unique db -> store_step db db' -> email_unique db'.
Proof.
  unfold email_unique. intros U [->|i f Hf ->|new Hn _ _ ->|rv u h e c _ A];
    auto.
  - rewrite (update_user_map db i f u_email); [exact U|]. intros x; apply Hf.
  - simpl. rewrite map_app. simpl. apply NoDup_snoc; [exact U|].
    now apply user_by_email_None.
  - apply add_refresh_token_Some in A as [_ [-> _]]. now destruct rv.
Qed.

Lemma store_step_user_id_unique (db db' : DB) :
  user_id_unique db -> store_step db db' -> user_id_unique db'.
Proof.
  unfold user_id_unique. intros U [->|i f Hf ->|new _ Hid _ ->|rv u h e c _ A];
    auto.
  - rewrite (update_user_map db i f u_id); [exact U|]. intros x; apply Hf.
  - simpl. rewrite map_app. simpl. apply NoDup_snoc; [exact U|].
    rewrite Hid. apply next_id_fresh.
  - apply add_refresh_token_Some in A as [_ [-> _]]. now destruct rv.
Qed.

Lemma revoke_token_ids (db : DB) (i : Z) :
  map rt_id (refresh_tokens (revoke_token db i))
  = map rt_id (refresh_tokens db).
Proof.
  unfold revoke_token; simpl. rewrite map_map. apply map_ext.
  intros t. now destruct (rt_id t =? i).
Qed.

Lemma store_step_token_id_unique (db db' : DB) :
  token_id_unique db -> store_step db db' -> token_id_unique db'.
Proof.
  unfold token_id_unique. intros U [->|i f Hf ->|new _ _ _ ->|rv u h e c _ A];
    auto.
  apply add_refresh_token_Some in A as [_ [_ ->]].
  rewrite map_app. simpl. apply NoDup_snoc.
  - destruct rv; [now rewrite revoke_token_ids | exact U].
  - apply next_id_fresh.
Qed.

Lemma store_step_token_hash_unique (db db' : DB) :
  token_hash_unique db -> store_step db db' -> token_hash_unique db'.
Proof.
  intros U [->|i f Hf ->|new _ _ _ ->|rv u h e c _ A]; auto.
  eapply token_hash_unique_add; [|exact A].
  destruct rv; [now apply token_hash_unique_revoke | exact U].
Qed.

Lemma store_step_user_ids_kept (db db' : DB) (i : Z) :
  store_step db db' -> In i (map u_id (users db)) -> In i (map u_id (users db')).
Proof.
  intros [->|j f Hf ->|new _ _ _ ->|rv u h e c _ A] H; auto.
  - rewrite (update_user_map db j f u_id); [exact H|]. intros x; apply Hf.
  - simpl. rewrite map_app. apply in_or_app. now left.
  - apply add_refresh_token_Some in A as [_ [-> _]]. now destruct rv.
Qed.

Lemma store_step_ledger_owned (db db' : DB) :
  ledger_owned db -> store_step db db' -> ledger_owned db'.
Proof.
  intros O S t' Hin'.
  destruct S as [->|j f Hf ->|new Hn Hid Hr ->|rv u h e c Hu A].
  - now apply O.
  - rewrite (update_user_map db j f u_id); [now apply O|]. intros x; apply Hf.
  - simpl. rewrite map_app. apply in_or_app. left. now apply O.
  - apply add_refresh_token_Some in A as [_ [Eu El]].
    assert (users db' = users db) as -> by (rewrite Eu; now destruct rv).
    rewrite El in Hin'. apply in_app_or in Hin' as [Hin'|[<-|[]]].
    + destruct rv as [i|]; [|now apply O].
      unfold revoke_token in Hin'; simpl in Hin'.
      apply in_map_iff in Hin' as [t [<- Hin]].
      assert (rt_user_id (if rt_id t =? i then set_revoked t else t)
              = rt_user_id t) as -> by (now destruct (rt_id t =? i)).
      now apply O.
    + simpl. now apply in_map.
Qed.

Lemma store_step_roles (db db' : DB) :
  (forall u, In u (users db) -> u_role u = Some "user") ->
  store_step db db' ->
  forall u, In u (users db') -> u_role u = Some "user".
Proof.
  intros R [->|j f Hf ->|new _ _ Hr ->|rv x h e c _ A] u Hin; auto.
  - unfold update_user in Hin; simpl in Hin.
    apply in_map_iff in Hin as [u0 [<- Hin0]].
    destruct (u_id u0 =? j); [|now apply R].
    destruct (Hf u0) as [_ [_ [_ ->]]]. now apply R.
  - simpl in Hin. apply in_app_or in Hin as [Hin|[<-|[]]]; auto.
  - apply add_refresh_token_Some in A as [_ [Eu _]].
    apply R. rewrite Eu in Hin. now destruct rv.
Qed.

(** X1. In every store the service can be in, the schema's constraints
    hold: emails, user ids, ledger ids and ledger digests are unique, and
    every ledger row belongs to a user of the store. *)
Theorem reachable_schema_constraints (db : DB) :
  reachable db ->
  email_unique db /\ user_id_unique db /\ token_id_unique db /\
  token_hash_unique db /\ ledger_owned db.
Proof.
  intros R.
  apply (reachable_invariant
           (fun d => email_unique d /\ user_id_unique d /\ token_id_unique d /\
                     token_hash_unique d /\ ledger_owned d)); [| |exact R].
  - repeat split; try constructor. intros t [].
  - intros d d' [E [I [T [H O]]]] S. repeat split.
    + eapply store_step_email_unique; eauto.
    + eapply store_step_user_id_unique; eauto.
    + eapply store_step_token_id_unique; eauto.
    + eapply store_step_token_hash_unique; eauto.
    + eapply store_step_ledger_owned; eauto.
Qed.

(** X2. The service has no way to make an administrator: in every store it
    can be in each user has role ["user"], so the two tokens a login returns
    are the ones made for the user's id with role ["user"]. *)
Theorem reachable_roles_are_user (db : DB) :
  reachable db ->
  (forall u, In u (users db) -> u_role u = Some "user") /\
  forall user clk issued db',
    login user clk db = (Ok issued, db') ->
    exists u,
      user_by_email db (ul_email user) = Some u /\
      token issued = create_access_token (u_id u) "user" (clk 0%nat) /\
      refresh_token_ issued = create_refresh_token (u_id u) "user" (clk 1%nat).
Proof.
  intros R.
  assert (forall u, In u (users db) -> u_role u = Some "user") as Roles.
  { apply (reachable_invariant
             (fun d => forall u, In u (users d) -> u_role u = Some "user"));
      [intros u [] | apply store_step_roles | exact R]. }
  split; [exact Roles|].
  intros user clk issued db' L. unfold login in L.
  destruct (user_by_email db (ul_email user)) as [u|] eqn:F; [|discriminate].
  destruct (verify_password _ _); [|discriminate]. simpl in L.
  destruct (add_refresh_token _ _ _ _ _); [|discriminate].
  injection L as <- _. exists u.
  apply user_by_email_In in F as [Hin _]. rewrite (Roles u Hin).
  repeat split.
Qed.

(** X3. In every store the service can be in, [refresh] never answers
    ["User not found"]: each of its refusals is 401 with the one detail
    ["Invalid refresh token"], or the 500 of a refused insert. *)
Theorem reachable_refresh_refusals_uniform (db : DB)
    (payload : RefreshTokenRequest) (clk : clock) :
  reachable db ->
  is_ok (fst (refresh_token payload clk db)) = false ->
  fst (refresh_token payload clk db)
  = HTTPException HTTP_401_UNAUTHORIZED "Invalid refresh token" \/
  fst (refresh_token payload clk db) = Uncaught IntegrityError.
Proof.
  intros R K.
  assert (ledger_owned db) as O.
  { apply (reachable_invariant ledger_owned);
      [intros t [] | apply store_step_ledger_owned | exact R]. }
  unfold refresh_token, refresh_lookup in *.
  destruct (token_by_hash db _) as [t|] eqn:F; [|now left].
  destruct (revoked t || (expires_at t <? clk 0%nat))%bool; [now left|].
  unfold token_by_hash in F. apply find_some in F as [Hin _].
  apply O in Hin. apply in_map_iff in Hin as [u [Hid Hu]].
  destruct (user_by_id db (rt_user_id t)) as [u'|] eqn:U.
  - unfold refresh_rotate in *.
    destruct (add_refresh_token _ _ _ _ _); [discriminate|now right].
  - exfalso. unfold user_by_id in U.
    pose proof (find_none _ _ U u Hu) as N. simpl in N.
    rewrite Hid, Z.eqb_refl in N. discriminate.
Qed.

End Invariants.

Section Keeping.
Context {ext : Externals}.

Lemma same_row_later_refl (t : RefreshToken) : same_row_later t t.
Proof. repeat split; auto. Qed.

Lemma same_row_later_trans (t1 t2 t3 : RefreshToken) :
  same_row_later t1 t2 -> same_row_later t2 t3 -> same_row_later t1 t3.
Proof.
  unfold same_row_later. intros [A1 [A2 [A3 [A4 [A5 A6]]]]]
    [B1 [B2 [B3 [B4 [B5 B6]]]]].
  repeat split; try congruence. auto.
Qed.

Lemma store_step_row_kept (db db' : DB) (t : RefreshToken) :
  store_step db db' -> In t (refresh_tokens db) ->
  exists t', In t' (refresh_tokens db') /\ same_row_later t t'.
Proof.
  intros [->|j f Hf ->|new _ _ _ ->|rv u h e c _ A] Hin;
    try (exists t; split; [exact Hin | apply same_row_later_refl]).
  apply add_refresh_token_Some in A as [_ [_ El]]. rewrite El.
  destruct rv as [i|].
  - exists (if rt_id t =? i then set_revoked t else t). split.
    + apply in_or_app. left. unfold revoke_token; simpl.
      exact (in_map (fun t => if rt_id t =? i then set_revoked t else t) _ _ Hin).
    + destruct (rt_id t =? i); repeat split; auto.
  - exists t. split; [apply in_or_app; now left | apply same_row_later_refl].
Qed.

(** X4. The ledger is an audit trail: whatever requests are served, every
    row stays in it with its id, user, digest, expiry and creation time, and
    a revoked row stays revoked. *)
Theorem ledger_rows_kept (rs : list request) (db : DB) (t : RefreshToken) :
  In t (refresh_tokens db) ->
  exists t',
    In t' (refresh_tokens (serve_all rs db)) /\
    rt_id t' = rt_id t /\ rt_user_id t' = rt_user_id t /\
    token_hash t' = token_hash t /\ expires_at t' = expires_at t /\
    created_at t' = created_at t /\ (revoked t = true -> revoked t' = true).
Proof.
  revert db t. induction rs as [|r rs IH]; simpl; intros db t Hin.
  - exists t. repeat split; auto.
  - destruct (store_step_row_kept db (serve r db) t (serve_store_step r db) Hin)
      as [t1 [Hin1 S1]].
    destruct (IH (serve r db) t1 Hin1) as [t2 [Hin2 S2]].
    exists t2. split; [exact Hin2|].
    exact (same_row_later_trans t t1 t2 S1 S2).
Qed.

Lemma store_step_user_kept (db db' : DB) (u : User) :
  store_step db db' -> In u (users db) ->
  exists u', In u' (users db') /\ u_id u' = u_id u /\ u_name u' = u_name u /\
             u_email u' = u_email u /\ u_role u' = u_role u.
Proof.
  intros [->|j f Hf ->|new _ _ _ ->|rv x h e c _ A] Hin.
  - exists u. auto.
  - exists (if u_id u =? j then f u else u). split.
    + unfold update_user; simpl.
      exact (in_map (fun u => if u_id u =? j then f u else u) _ _ Hin).
    + destruct (u_id u =? j); [apply Hf | auto].
  - exists u. split; [simpl; apply in_or_app; now left | auto].
  - apply add_refresh_token_Some in A as [_ [Eu _]].
    exists u. split; [rewrite Eu; now destruct rv | auto].
Qed.

(** X5. No request deletes or renames an account: whatever requests are
    served, every user row stays with its id, name, email and role. *)
Theorem accounts_kept (rs : list request) (db : DB) (u : User) :
  In u (users db) ->
  exists u',
    In u' (users (serve_all rs db)) /\ u_id u' = u_id u /\
    u_name u' = u_name u /\ u_email u' = u_email u /\ u_role u' = u_role u.
Proof.
  revert db u. induction rs as [|r rs IH]; simpl; intros db u Hin.
  - exists u. auto.
  - destruct (store_step_user_kept db (serve r db) u (serve_store_step r db) Hin)
      as [u1 [Hin1 [A1 [A2 [A3 A4]]]]].
    destruct (IH (serve r db) u1 Hin1) as [u2 [Hin2 [B1 [B2 [B3 B4]]]]].
    exists u2. repeat split; congruence.
Qed.

(** X6. An email that has been registered stays taken: after a successful
    [register], every later [register] with the same email is refused with
    409 Conflict and changes nothing, whatever requests were served in
    between. *)
Theorem register_email_stays_taken (user : UserCreate) (salt : string)
    (db db1 : DB) (u : UserPublic) :
  register user salt db = (Ok u, db1) ->
  forall (rs : list request) (again : UserCreate) (salt' : string),
    uc_email again = uc_email user ->
    register again salt' (serve_all rs db1)
    = (HTTPException HTTP_409_CONFLICT "Email already registered",
       serve_all rs db1).
Proof.
  intros H rs again salt' E.
  apply register_Ok in H as [_ [_ ->]].
  set (new := mkUser _ _ _ _ _ _ _).
  assert (In (uc_email user)
             (map u_email (users (serve_all rs
                (mkDB (users db ++ [new]) (refresh_tokens db)))))) as Taken.
  { apply (serve_all_invariant
             (fun d => In (uc_email user) (map u_email (users d)))).
    - intros d d' Hd S. apply in_map_iff in Hd as [x [Hx Hin]].
      destruct (store_step_user_kept d d' x S Hin)
        as [x' [Hin' [_ [_ [He _]]]]].
      rewrite <- Hx, <- He. now apply in_map.
    - simpl. rewrite map_app. apply in_or_app. right. now left. }
  unfold register. rewrite E.
  destruct (user_by_email _ (uc_email user)) eqn:F; [reflexivity|].
  apply user_by_email_None in F. contradiction.
Qed.

(** X7. Each handler commits once or not at all: a request that is not
    answered normally leaves the store as it was.  [forgotPassword] is the one
    exception, its commit coming before the mail is sent. *)
Theorem refused_request_changes_nothing (r : request) (db : DB) :
  is_forgot_password r = false ->
  answered_ok r db = false ->
  serve r db = db.
Proof.
  destruct r; simpl; intros F; try discriminate; clear F.
  - unfold register. case_scrutinee; simpl; auto. discriminate.
  - unfold login. repeat (case_scrutinee; simpl; auto). discriminate.
  - apply refresh_token_refused_unchanged.
  - reflexivity.
  - unfold reset_password. repeat (case_scrutinee; simpl; auto). discriminate.
Qed.

End Keeping.

(* ===================================================================== *)
(** ** Issued tokens *)
(* ===================================================================== *)

Section IssuedTokens.
Context {ext : Externals}.

Lemma login_Ok (user : UserLogin) (clk : clock) (db db' : DB)
    (issued : TokenResponse) :
  login user clk db = (Ok issued, db') ->
  exists u,
    user_by_email db (ul_email user) = Some u /\
    verify_password (ul_password user) (u_password u) = true /\
    issued = mkTokenResponse
               (create_access_token (u_id u) (str_or (u_role u) "user")
                                    (clk 0%nat))
               (create_refresh_token (u_id u) (str_or (u_role u) "user")
                                     (clk 1%nat)) /\
    add_refresh_token db (u_id u)
      (hash_token (create_refresh_token (u_id u) (str_or (u_role u) "user")
                                        (clk 1%nat)))
      (clk 2%nat + timedelta_days REFRESH_TOKEN_EXPIRE_DAYS) (clk 3%nat)
    = Some db'.
Proof.
  unfold login. intros H.
  destruct (user_by_email db (ul_email user)) as [u|]; [|discriminate].
  destruct (verify_password _ _) eqn:V; [|discriminate]. simpl in H.
  destruct (add_refresh_token _ _ _ _ _) as [d|] eqn:A; [|discriminate].
  injection H as <- <-. exists u. auto.
Qed.

Lemma find_snoc_fresh {A} (f : A -> bool) (l : list A) (y : A) :
  (forall x, In x l -> f x = false) -> f y = true ->
  find f (l ++ [y]) = Some y.
Proof.
  intros Hl Hy. induction l as [|a l IH]; simpl.
  - now rewrite Hy.
  - rewrite (Hl a (or_introl eq_refl)). apply IH.
    intros x Hx. apply Hl. now right.
Qed.

(** The row an insert has added is the one a query by its digest finds. *)
Lemma token_by_hash_added (db db' : DB) (uid : Z) (h : string)
    (e c : datetime) :
  add_refresh_token db uid h e c = Some db' ->
  token_by_hash db' h
  = Some (mkRefreshToken (next_id (map rt_id (refresh_tokens db))) uid h e
                         false c).
Proof.
  intros A. apply add_refresh_token_Some in A as [Hfresh [_ El]].
  unfold token_by_hash. rewrite El. apply find_snoc_fresh.
  - intros t Hin. simpl. apply String.eqb_neq. intros E. apply Hfresh.
    rewrite <- E. now apply in_map.
  - simpl. apply String.eqb_refl.
Qed.

Lemma user_by_id_found (db : DB) (u : User) :
  In u (users db) -> exists u', user_by_id db (u_id u) = Some u'.
Proof.
  intros Hin. unfold user_by_id.
  destruct (find _ _) as [u'|] eqn:F; [eauto|].
  pose proof (find_none _ _ F u Hin) as N. simpl in N.
  now rewrite Z.eqb_refl in N.
Qed.

Lemma user_by_id_unique (db : DB) (u : User) :
  user_id_unique db -> In u (users db) -> user_by_id db (u_id u) = Some u.
Proof.
  intros U Hin. destruct (user_by_id_found db u Hin) as [u' F].
  rewrite F. f_equal.
  apply user_by_id_In in F as [Hin' Hid].
  exact (NoDup_map_eq u_id (users db) u' u U Hin' Hin Hid).
Qed.

(** After a successful [login] the returned refresh token is found in the
    ledger on a live row of the user. *)
Lemma login_Ok_row (user : UserLogin) (clk : clock) (db db' : DB)
    (issued : TokenResponse) :
  login user clk db = (Ok issued, db') ->
  exists u,
    user_by_email db (ul_email user) = Some u /\
    refresh_token_ issued
    = create_refresh_token (u_id u) (str_or (u_role u) "user") (clk 1%nat) /\
    token_by_hash db' (hash_token (refresh_token_ issued))
    = Some (mkRefreshToken (next_id (map rt_id (refresh_tokens db))) (u_id u)
              (hash_token (refresh_token_ issued))
              (clk 2%nat + timedelta_days REFRESH_TOKEN_EXPIRE_DAYS) false
              (clk 3%nat)) /\
    users db' = users db.
Proof.
  intros H. apply login_Ok in H as [u [F [_ [-> A]]]].
  pose proof (token_by_hash_added _ _ _ _ _ _ A) as T.
  apply add_refresh_token_Some in A as [_ [Eu _]].
  exists u. cbn [refresh_token_]. auto.
Qed.

(** X8. A successful [login] adds one ledger row and changes nothing else:
    the row is the one a lookup by the digest of the returned refresh token
    finds; it belongs to the user, is not revoked, and expires
    [REFRESH_TOKEN_EXPIRE_DAYS] days after the clock's reading. *)
Theorem login_issues_live_row (user : UserLogin) (clk : clock) (db db' : DB)
    (issued : TokenResponse) :
  login user clk db = (Ok issued, db') ->
  exists u row,
    user_by_email db (ul_email user) = Some u /\
    token_by_hash db' (hash_token (refresh_token_ issued)) = Some row /\
    rt_user_id row = u_id u /\ revoked row = false /\
    expires_at row
    = clk 2%nat + timedelta_days REFRESH_TOKEN_EXPIRE_DAYS /\
    users db' = users db /\
    refresh_tokens db' = (refresh_tokens db ++ [row])%list.
Proof.
  intros H. apply login_Ok in H as [u [F [_ [-> A]]]].
  pose proof (token_by_hash_added _ _ _ _ _ _ A) as T.
  apply add_refresh_token_Some in A as [_ [Eu El]].
  eexists u, _. split; [exact F|]. split; [exact T|]. simpl. auto.
Qed.

Lemma find_app_Some {A} (f : A -> bool) (l l' : list A) (x : A) :
  find f l = Some x -> find f (l ++ l') = Some x.
Proof.
  induction l as [|a l IH]; simpl; [discriminate|].
  destruct (f a); auto.
Qed.

Lemma find_map_same {A} (p : A -> bool) (g : A -> A) (l : list A) :
  (forall x, p (g x) = p x) ->
  find p (map g l) = option_map g (find p l).
Proof.
  intros H. induction l as [|a l IH]; simpl; [reflexivity|].
  rewrite H. destruct (p a); auto.
Qed.

Lemma token_by_hash_In (db : DB) (h : string) (t : RefreshToken) :
  token_by_hash db h = Some t -> In t (refresh_tokens db) /\ token_hash t = h.
Proof.
  unfold token_by_hash. intros H. apply find_some in H as [Hin He].
  now apply String.eqb_eq in He.
Qed.

(** An insert leaves the rows in use in use. *)
Lemma row_in_use_add (row : RefreshToken) (db db' : DB) (uid : Z)
    (h : string) (e c : datetime) :
  row_in_use row db -> add_refresh_token db uid h e c = Some db' ->
  row_in_use row db'.
Proof.
  intros [F I] A. apply add_refresh_token_Some in A as [_ [_ El]].
  split.
  - unfold token_by_hash in *. rewrite El. now apply find_app_Some.
  - intros t Hin Hid. rewrite El in Hin.
    apply in_app_or in Hin as [Hin|[<-|[]]]; [now apply I|].
    exfalso. cbn [rt_id] in Hid.
    apply token_by_hash_In in F as [Hrow _].
    apply (next_id_fresh (map rt_id (refresh_tokens db))).
    rewrite Hid. now apply in_map.
Qed.

(** So does the revocation of a row with another primary key. *)
Lemma row_in_use_revoke (row : RefreshToken) (db : DB) (i : Z) :
  row_in_use row db -> i <> rt_id row -> row_in_use row (revoke_token db i).
Proof.
  intros [F I] N. split.
  - unfold token_by_hash, revoke_token in *. cbn [refresh_tokens].
    rewrite find_map_same, F.
    + cbn [option_map]. destruct (Z.eqb_spec (rt_id row) i); congruence.
    + intros x. now destruct (rt_id x =? i).
  - intros t Hin Hid. unfold revoke_token in Hin. cbn [refresh_tokens] in Hin.
    apply in_map_iff in Hin as [t0 [<- Hin0]].
    assert (rt_id (if rt_id t0 =? i then set_revoked t0 else t0) = rt_id t0)
      as Eid by (now destruct (rt_id t0 =? i)).
    assert (token_hash (if rt_id t0 =? i then set_revoked t0 else t0)
            = token_hash t0) as -> by (now destruct (rt_id t0 =? i)).
    apply I; congruence.
Qed.

Lemma row_in_use_same_ledger (row : RefreshToken) (db db' : DB) :
  row_in_use row db -> refresh_tokens db' = refresh_tokens db ->
  row_in_use row db'.
Proof.
  unfold row_in_use, token_by_hash. intros H E. now rewrite E.
Qed.

(** A request that is no [refresh] of the row's digest leaves the row in
    use. *)
Lemma row_in_use_serve (row : RefreshToken) (r : request) (db : DB) :
  row_in_use row db -> presents_digest (token_hash row) r = false ->
  row_in_use row (serve r db).
Proof.
  intros U P. destruct r; cbn [serve].
  - apply (row_in_use_same_ledger row db); [exact U|].
    unfold register. now case_scrutinee.
  - unfold login. repeat (case_scrutinee; cbn [snd]; auto).
    eapply row_in_use_add; eauto.
  - unfold refresh_token.
    destruct (refresh_lookup payload clk db) as [[t u]| |] eqn:L;
      cbn [snd]; auto.
    apply refresh_lookup_Ok in L as [Ft _].
    apply token_by_hash_In in Ft as [Hin Hh].
    unfold refresh_rotate. case_scrutinee; cbn [snd]; auto.
    eapply row_in_use_add; [|exact E].
    apply row_in_use_revoke; [exact U|].
    intros Eid. cbn [presents_digest] in P. apply String.eqb_neq in P.
    apply P. rewrite <- Hh. destruct U as [_ I]. now apply I.
  - exact U.
  - apply (row_in_use_same_ledger row db); [exact U|].
    unfold forgot_password. now repeat (case_scrutinee; cbn [snd]).
  - apply (row_in_use_same_ledger row db); [exact U|].
    unfold reset_password. now repeat (case_scrutinee; cbn [snd]).
Qed.

Lemma row_in_use_serve_all (row : RefreshToken) (rs : list request) (db : DB) :
  row_in_use row db ->
  forallb (fun r => negb (presents_digest (token_hash row) r)) rs = true ->
  row_in_use row (serve_all rs db).
Proof.
  revert db. induction rs as [|r rs IH]; cbn [serve_all fold_left forallb];
    intros db U P; [exact U|].
  apply andb_prop in P as [Pr Prs]. apply negb_true_iff in Pr.
  apply IH; [|exact Prs]. now apply row_in_use_serve.
Qed.

(** The row an insert has added is in use. *)
Lemma row_in_use_added (db db' : DB) (uid : Z) (h : string) (e c : datetime) :
  add_refresh_token db uid h e c = Some db' ->
  row_in_use
    (mkRefreshToken (next_id (map rt_id (refresh_tokens db))) uid h e false c)
    db'.
Proof.
  intros A. split; [exact (token_by_hash_added _ _ _ _ _ _ A)|].
  apply add_refresh_token_Some in A as [_ [_ El]].
  intros t Hin Hid. rewrite El in Hin.
  apply in_app_or in Hin as [Hin|[<-|[]]]; [|reflexivity].
  exfalso. cbn [rt_id] in Hid.
  apply (next_id_fresh (map rt_id (refresh_tokens db))).
  rewrite <- Hid. now apply in_map.
Qed.

(** X9. The refresh token a [login] has returned stays usable until it is
    used: whatever requests are served after the login, as long as none of
    them is a [refresh] presenting a token of the same digest, presenting it
    no later than the expiry of its ledger row is not refused as
    unauthorized.  It is rotated, unless the insert of the new row is refused
    (500), and then nothing changes. *)
Theorem login_then_refresh (user : UserLogin) (clk : clock) (db db' : DB)
    (issued : TokenResponse) :
  login user clk db = (Ok issued, db') ->
  forall (rs : list request) (clk' : clock),
    forallb (fun r => negb (presents_digest
                              (hash_token (refresh_token_ issued)) r)) rs
    = true ->
    clk' 0%nat <= clk 2%nat + timedelta_days REFRESH_TOKEN_EXPIRE_DAYS ->
    (exists issued' db'',
       refresh_token (mkRefreshTokenRequest (refresh_token_ issued)) clk'
                     (serve_all rs db')
       = (Ok issued', db'')) \/
    refresh_token (mkRefreshTokenRequest (refresh_token_ issued)) clk'
                  (serve_all rs db')
    = (Uncaught IntegrityError, serve_all rs db').
Proof.
  intros H rs clk' P L.
  apply login_Ok in H as [u [F [_ [-> A]]]]. cbn [refresh_token_] in *.
  set (h := hash_token _) in *.
  pose proof (row_in_use_added _ _ _ _ _ _ A) as U.
  set (row := mkRefreshToken _ _ _ _ _ _) in U.
  apply (row_in_use_serve_all row rs) in U; [|exact P].
  destruct U as [T _]. cbn [token_hash row] in T.
  assert (In (u_id u) (map u_id (users (serve_all rs db')))) as Hu.
  { apply (serve_all_invariant (fun d => In (u_id u) (map u_id (users d)))).
    - intros d d' Hd S. now apply (store_step_user_ids_kept d d').
    - apply add_refresh_token_Some in A as [_ [-> _]].
      apply user_by_email_In in F as [Hin _]. now apply in_map. }
  apply in_map_iff in Hu as [u0 [Hid Hin0]].
  destruct (user_by_id_found _ u0 Hin0) as [u' F']. rewrite Hid in F'.
  unfold refresh_token, refresh_lookup. cbn [rr_refresh_token].
  fold h. rewrite T. unfold row. cbn [revoked expires_at rt_user_id].
  apply Z.ltb_ge in L. rewrite L. cbn [orb].
  rewrite F'. unfold refresh_rotate. clear A.
  case_scrutinee; [left; eauto | now right].
Qed.

(** X10. Presenting a refresh token in the very second it was issued fails:
    the new refresh token is made of the same claims, so it is the same text
    with the same digest, the unique column refuses the new row, and the
    answer is 500 with nothing changed (the old token stays usable). *)
Theorem refresh_in_the_issuing_second (user : UserLogin) (clk clk' : clock)
    (db db' : DB) (issued : TokenResponse) :
  user_id_unique db ->
  login user clk db = (Ok issued, db') ->
  timegm (clk' 2%nat + timedelta_days REFRESH_TOKEN_EXPIRE_DAYS)
  = timegm (clk 1%nat + timedelta_days REFRESH_TOKEN_EXPIRE_DAYS) ->
  clk' 0%nat <= clk 2%nat + timedelta_days REFRESH_TOKEN_EXPIRE_DAYS ->
  refresh_token (mkRefreshTokenRequest (refresh_token_ issued)) clk' db'
  = (Uncaught IntegrityError, db').
Proof.
  intros U H S L.
  destruct (login_Ok_row _ _ _ _ _ H) as [u [F [R [T Eu]]]].
  apply user_by_email_In in F as [Hin _].
  assert (user_by_id db' (u_id u) = Some u) as F'.
  { unfold user_by_id. rewrite Eu. now apply user_by_id_unique. }
  unfold refresh_token, refresh_lookup. cbn [rr_refresh_token].
  rewrite T. cbn [revoked expires_at rt_user_id rt_id].
  apply Z.ltb_ge in L. rewrite L. cbn [orb].
  rewrite F'. unfold refresh_rotate, add_refresh_token.
  assert (create_refresh_token (u_id u) (str_or (u_role u) "user") (clk' 2%nat)
          = refresh_token_ issued)
    as -> by (rewrite R, !create_refresh_token_claims; now rewrite S).
  destruct (existsb _ _) eqn:X; [reflexivity|].
  exfalso. apply existsb_hash_false in X. apply X.
  rewrite revoke_token_hashes.
  unfold token_by_hash in T. apply find_some in T as [Hrow _].
  exact (in_map token_hash _ _ Hrow).
Qed.

(** [role = db_user.role or "user"], case by case. *)
Lemma str_or_role (o : option string) (role : string) :
  (o = Some role /\ role <> "") \/
  ((o = None \/ o = Some "") /\ role = "user") ->
  str_or o "user" = role.
Proof.
  intros [[-> N]|[[->| ->] ->]]; cbn; auto.
  destruct (String.eqb_spec role ""); [contradiction | reflexivity].
Qed.

(** X11. A successful [refresh] hands out a pair for the owner of the
    consumed row, with the role stored on the owner's row (["user"] when
    that is null or empty): the two tokens are the ones made for that id and
    role, the new refresh token's digest is found in the ledger on a row of
    that user that is not revoked, and the user table is as it was. *)
Theorem refresh_issues_live_row (payload : RefreshTokenRequest) (clk : clock)
    (db db' : DB) (issued : TokenResponse) :
  refresh_token payload clk db = (Ok issued, db') ->
  exists t u row,
    token_by_hash db (hash_token (rr_refresh_token payload)) = Some t /\
    user_by_id db (rt_user_id t) = Some u /\
    (forall role,
       (u_role u = Some role /\ role <> "") \/
       ((u_role u = None \/ u_role u = Some "") /\ role = "user") ->
       token issued = create_access_token (u_id u) role (clk 1%nat) /\
       refresh_token_ issued
       = create_refresh_token (u_id u) role (clk 2%nat)) /\
    token_by_hash db' (hash_token (refresh_token_ issued)) = Some row /\
    rt_user_id row = rt_user_id t /\ revoked row = false /\
    expires_at row = clk 3%nat + timedelta_days REFRESH_TOKEN_EXPIRE_DAYS /\
    users db' = users db.
Proof.
  unfold refresh_token. intros H.
  destruct (refresh_lookup payload clk db) as [[t u]| |] eqn:L;
    try discriminate.
  apply refresh_lookup_Ok in L as [F [_ [_ Fu]]].
  unfold refresh_rotate in H.
  destruct (add_refresh_token _ _ _ _ _) as [d|] eqn:A; [|discriminate].
  injection H as <- <-.
  pose proof (token_by_hash_added _ _ _ _ _ _ A) as T.
  apply add_refresh_token_Some in A as [_ [Eu _]].
  pose proof (user_by_id_In _ _ _ Fu) as [_ Hid].
  exists t, u. eexists. split; [exact F|]. split; [exact Fu|].
  split.
  { intros role Hrole. cbn [token refresh_token_].
    now rewrite (str_or_role _ _ Hrole). }
  split; [exact T|]. simpl. auto.
Qed.

End IssuedTokens.

(* ===================================================================== *)
(** ** Register, then login *)
(* ===================================================================== *)

Section RegisterThenLogin.
Context {ext : Externals}.







End RegisterThenLogin.



Section TokenChecks.
Context {ext : Externals}.

Lemma decode_token_issued (uid : Z) (role type : string) (exp : Z)
    (now : datetime) :
  decode_inverts_encode ->
  decode_token (jwt_encode (claims_of uid role type exp) SECRET_KEY) now
  = if exp <? timegm now
    then HTTPException HTTP_401_UNAUTHORIZED "Invalid or expired token"
    else Ok (claims_of uid role type exp).
Proof.
  intros RT. unfold decode_token. rewrite (jwt_decode_issued _ _ _ _ _ RT).
  now destruct (exp <? timegm now).
Qed.

(** X12. The life of an access token: [validate] answers with the user's id
    and role up to and including the second
    [ACCESS_TOKEN_EXPIRE_MINUTES] minutes after the issue, and with 401
    from the next second on. *)
Theorem access_token_lifetime (uid : Z) (role : string)
    (issued_at now : datetime) :
  decode_inverts_encode ->
  validate_token (create_access_token uid role issued_at) now
  = if timegm now
         <=? timegm (issued_at
                     + timedelta_minutes ACCESS_TOKEN_EXPIRE_MINUTES)
    then Ok (mkValidated uid (PStr role))
    else HTTPException HTTP_401_UNAUTHORIZED "Invalid or expired token".
Proof.
  intros RT. rewrite create_access_token_claims.
  unfold validate_token. rewrite (decode_token_issued _ _ _ _ _ RT).
  rewrite Z.leb_antisym. now destruct (_ <? _).
Qed.

(** X13. A refresh token the service has made is no access token: at any
    time, [validate] and [get_current_user_id] refuse it with 401. *)
Theorem refresh_token_never_validates (uid : Z) (role : string)
    (issued_at now : datetime) :
  decode_inverts_encode ->
  error_status (validate_token (create_refresh_token uid role issued_at) now)
  = Some 401 /\
  error_status
    (get_current_user_id (create_refresh_token uid role issued_at) now)
  = Some 401.
Proof.
  intros RT. rewrite create_refresh_token_claims.
  unfold validate_token, get_current_user_id.
  rewrite (decode_token_issued _ _ _ _ _ RT).
  destruct (_ <? _); split; reflexivity.
Qed.

(** X14. The endpoint and the dependency accept the same tokens:
    [get_current_user_id] returns an id exactly when [validate] answers
    with that id. *)
Theorem validate_agrees_with_get_current_user_id (credentials : string)
    (now : datetime) (n : Z) :
  get_current_user_id credentials now = Ok n <->
  exists role, validate_token credentials now = Ok (mkValidated n role).
Proof.
  unfold get_current_user_id, validate_token.
  destruct (decode_token credentials now) as [payload| |];
    [|split; [discriminate | intros [? ?]; discriminate]..].
  destruct (pyval_eqb _ _); cbn [negb];
    [|split; [discriminate | intros [? ?]; discriminate]].
  destruct (dict_get payload "id") as [|b|z|s]; cbn [py_int].
  - split; [discriminate | intros [? ?]; discriminate].
  - split; [intros H; injection H as <-; eauto
           | intros [r H]; injection H as <- _; reflexivity].
  - split; [intros H; injection H as <-; eauto
           | intros [r H]; injection H as <- _; reflexivity].
  - destruct (int_of_str s).
    + split; [intros H; injection H as <-; eauto
             | intros [r H]; injection H as <- _; reflexivity].
    + split; [discriminate | intros [? ?]; discriminate].
Qed.

End TokenChecks.

(* ===================================================================== *)
(** ** More on the reset code *)
(* ===================================================================== *)

Section MoreResetCode.
Context {ext : Externals}.

(** Whatever becomes of the mail, [forgot_password] has committed the new
    code on the row found for the email. *)
Lemma forgot_password_store (payload : ForgotPasswordRequest) (rand : Z)
    (clk : clock) (net : httpx_outcome string) (db : DB) (u : User) :
  user_by_email db (fp_email payload) = Some u ->
  snd (forgot_password payload rand clk net db)
  = update_user db (u_id u)
      (set_reset_code (Some (hash_token (format_06d rand)))
                      (Some (clk 0%nat + timedelta_minutes 15))).
Proof.
  intros F. unfold forgot_password. rewrite F.
  now destruct (_send_email _ _ _ _).
Qed.

Lemma forgot_password_row (payload : ForgotPasswordRequest) (rand : Z)
    (clk : clock) (net : httpx_outcome string) (db : DB) (u : User) :
  user_by_email db (fp_email payload) = Some u ->
  user_by_email (snd (forgot_password payload rand clk net db))
                (fp_email payload)
  = Some (set_reset_code (Some (hash_token (format_06d rand)))
                         (Some (clk 0%nat + timedelta_minutes 15)) u).
Proof.
  intros F. rewrite (forgot_password_store _ _ _ _ _ _ F).
  now apply user_by_email_update_user.
Qed.

(** X15. With the mail settings incomplete, [forgotPassword] for a known
    email succeeds whatever the network would do (nothing is sent), and the
    code it drew is stored and accepted by [resetPassword] until its
    expiry. *)
Theorem forgot_password_without_mail_settings
    (payload : ForgotPasswordRequest) (rand : Z) (clk : clock)
    (net : httpx_outcome string) (db : DB) (u : User) :
  digest_nonempty ->
  truthy_str RESEND_API_KEY = false \/ truthy_str RESEND_FROM = false ->
  user_by_email db (fp_email payload) = Some u ->
  exists db',
    forgot_password payload rand clk net db = (Ok "OTP has been sent.", db') /\
    forall (new_password salt : string) (clk' : clock),
      clk' 0%nat <= clk 0%nat + timedelta_minutes 15 ->
      fst (reset_password
             (mkResetPasswordRequest (fp_email payload) (format_06d rand)
                                     new_password)
             salt clk' db')
      = Ok "Password updated".
Proof.
  intros NE S F.
  pose proof (forgot_password_row payload rand clk net db u F) as F'.
  assert (forgot_password payload rand clk net db
          = (Ok "OTP has been sent.",
             snd (forgot_password payload rand clk net db))) as R.
  { unfold forgot_password, _send_email. rewrite F.
    destruct S as [-> | ->]; [reflexivity|].
    now destruct (truthy_str RESEND_API_KEY). }
  eexists. split; [exact R|].
  intros new_password salt clk' L.
  destruct (reset_password_accepts
              (mkResetPasswordRequest (fp_email payload) (format_06d rand)
                                      new_password)
              salt clk' _ _ _ NE F' eq_refl eq_refl L) as [Q _].
  now rewrite Q.
Qed.

(** X16. A user has at most one code: a second [forgotPassword] replaces the
    first one's code.  The earlier code is then refused (its digest being
    different), the later one is accepted. *)
Theorem forgot_password_replaces_code (payload : ForgotPasswordRequest)
    (first second : Z) (clk1 clk2 : clock) (net1 net2 : httpx_outcome string)
    (db : DB) (u : User) :
  digest_nonempty ->
  user_by_email db (fp_email payload) = Some u ->
  hash_token (format_06d first) <> hash_token (format_06d second) ->
  let db2 :=
    snd (forgot_password payload second clk2 net2
           (snd (forgot_password payload first clk1 net1 db))) in
  forall (new_password salt : string) (clk' : clock),
    clk' 0%nat <= clk2 0%nat + timedelta_minutes 15 ->
    reset_password
      (mkResetPasswordRequest (fp_email payload) (format_06d first)
                              new_password) salt clk' db2
    = (HTTPException HTTP_400_BAD_REQUEST "Invalid OTP", db2) /\
    fst (reset_password
           (mkResetPasswordRequest (fp_email payload) (format_06d second)
                                   new_password) salt clk' db2)
    = Ok "Password updated".
Proof.
  intros NE F D db2 new_password salt clk' L.
  pose proof (forgot_password_row payload first clk1 net1 db u F) as F1.
  pose proof (forgot_password_row payload second clk2 net2 _ _ F1) as F2.
  fold db2 in F2. split.
  - unfold reset_password. cbn [rp_email rp_otp]. rewrite F2.
    cbn [set_reset_code u_reset_code_hash u_reset_code_expires_at].
    destruct (String.eqb_spec (hash_token (format_06d second)) "") as [E|_];
      [now apply NE in E|].
    apply Z.ltb_ge in L. rewrite L.
    destruct (String.eqb_spec (hash_token (format_06d first))
                              (hash_token (format_06d second)));
      [contradiction | reflexivity].
  - destruct (reset_password_accepts
                (mkResetPasswordRequest (fp_email payload) (format_06d second)
                                        new_password)
                salt clk' _ _ _ NE F2 eq_refl eq_refl L) as [Q _].
    now rewrite Q.
Qed.

(** X17. A code is refused once its 15 minutes have passed, even the right
    one: the answer is 400 ["OTP expired"] and nothing changes (the stale
    code stays on the row). *)
Theorem reset_password_after_expiry (payload : ForgotPasswordRequest)
    (rand : Z) (clk : clock) (net : httpx_outcome string) (db : DB) (u : User) :
  digest_nonempty ->
  user_by_email db (fp_email payload) = Some u ->
  let db' := snd (forgot_password payload rand clk net db) in
  forall (new_password salt : string) (clk' : clock),
    clk 0%nat + timedelta_minutes 15 < clk' 0%nat ->
    reset_password
      (mkResetPasswordRequest (fp_email payload) (format_06d rand)
                              new_password) salt clk' db'
    = (HTTPException HTTP_400_BAD_REQUEST "OTP expired", db').
Proof.
  intros NE F db' new_password salt clk' L.
  pose proof (forgot_password_row payload rand clk net db u F) as F'.
  fold db' in F'. unfold reset_password. cbn [rp_email rp_otp]. rewrite F'.
  cbn [set_reset_code u_reset_code_hash u_reset_code_expires_at].
  destruct (String.eqb_spec (hash_token (format_06d rand)) "") as [E|_];
    [now apply NE in E|].
  apply Z.ltb_lt in L. now rewrite L.
Qed.

Lemma user_by_id_update_user (db : DB) (i j : Z) (f : User -> User) :
  (forall x, u_id (f x) = u_id x) ->
  user_by_id (update_user db i f) j
  = option_map (fun u => if u_id u =? i then f u else u) (user_by_id db j).
Proof.
  intros Hf. unfold user_by_id, update_user; simpl.
  induction (users db) as [|a l IH]; simpl; [reflexivity|].
  assert (u_id (if u_id a =? i then f a else a) = u_id a) as ->
    by (destruct (u_id a =? i); auto).
  destruct (u_id a =? j); [reflexivity | exact IH].
Qed.

(** An UPDATE of a user row that keeps id and role does not change what
    [refresh] answers. *)
Lemma refresh_token_after_user_update (db : DB) (i : Z) (f : User -> User)
    (rp : RefreshTokenRequest) (clk : clock) :
  (forall x, u_id (f x) = u_id x /\ u_role (f x) = u_role x) ->
  fst (refresh_token rp clk (update_user db i f))
  = fst (refresh_token rp clk db).
Proof.
  intros Hf. unfold refresh_token, refresh_lookup.
  change (token_by_hash (update_user db i f)) with (token_by_hash db).
  destruct (token_by_hash db _) as [t|]; [|reflexivity].
  destruct (revoked t || _)%bool; [reflexivity|].
  rewrite user_by_id_update_user by (intros x; apply Hf).
  destruct (user_by_id db (rt_user_id t)) as [u|]; [|reflexivity].
  cbn [option_map]. unfold refresh_rotate.
  assert (u_id (if u_id u =? i then f u else u) = u_id u) as ->
    by (destruct (u_id u =? i); [apply Hf | reflexivity]).
  assert (u_role (if u_id u =? i then f u else u) = u_role u) as ->
    by (destruct (u_id u =? i); [apply Hf | reflexivity]).
  unfold add_refresh_token.
  change (refresh_tokens (revoke_token (update_user db i f) (rt_id t)))
    with (refresh_tokens (revoke_token db (rt_id t))).
  now destruct (existsb _ _).
Qed.

(** X18. A password reset does not end the user's sessions: the ledger is
    untouched, and every refresh token gets from [refresh] the answer it
    would have got without the reset. *)
Theorem reset_password_keeps_sessions (payload : ResetPasswordRequest)
    (salt : string) (clk : clock) (db : DB) :
  refresh_tokens (snd (reset_password payload salt clk db))
  = refresh_tokens db /\
  forall (rp : RefreshTokenRequest) (clk' : clock),
    fst (refresh_token rp clk' (snd (reset_password payload salt clk db)))
    = fst (refresh_token rp clk' db).
Proof.
  unfold reset_password.
  repeat (case_scrutinee; cbn [snd]; try (split; reflexivity)).
  split; [reflexivity|]. intros rp clk'.
  apply refresh_token_after_user_update. intros x; auto.
Qed.

Lemma reset_password_Ok (payload : ResetPasswordRequest) (salt : string)
    (clk : clock) (db db' : DB) (msg : string) :
  reset_password payload salt clk db = (Ok msg, db') ->
  exists u,
    user_by_email db (rp_email payload) = Some u /\
    db' = update_user db (u_id u)
            (fun x => mkUser (u_id x) (u_name x) (u_email x)
                             (hash_password salt (rp_new_password payload))
                             (u_role x) None None).
Proof.
  unfold reset_password. intros H.
  destruct (user_by_email db (rp_email payload)) as [u|]; [|discriminate].
  exists u. split; [reflexivity|].
  repeat (case_scrutinee_hyp H; try discriminate).
  now injection H as _ <-.
Qed.

(** X19. After a successful [resetPassword] the new password opens the
    account: a [login] with it is never refused with 400; it returns a
    pair, unless the insert of the ledger row is refused (500). *)
Theorem reset_password_then_login (payload : ResetPasswordRequest)
    (salt : string) (clk clk' : clock) (db db' : DB) (msg : string) :
  verify_accepts_hash ->
  reset_password payload salt clk db = (Ok msg, db') ->
  (exists issued db'',
     login (mkUserLogin (rp_email payload) (rp_new_password payload)) clk' db'
     = (Ok issued, db'')) \/
  login (mkUserLogin (rp_email payload) (rp_new_password payload)) clk' db'
  = (Uncaught IntegrityError, db').
Proof.
  intros PV H. apply reset_password_Ok in H as [u [F ->]].
  pose proof (user_by_email_update_user db (rp_email payload) u
                (fun x => mkUser (u_id x) (u_name x) (u_email x)
                                 (hash_password salt (rp_new_password payload))
                                 (u_role x) None None)
                (fun x => eq_refl) F) as F'.
  unfold login. cbn [ul_email ul_password]. rewrite F'.
  cbn [u_password]. unfold verify_password, hash_password. rewrite PV.
  cbn [negb]. destruct (add_refresh_token _ _ _ _ _); [left; eauto | now right].
Qed.

End MoreResetCode.

(* ===================================================================== *)
(** ** The rate limiter's key *)
(* ===================================================================== *)

Section RateLimiterFacts.
Context {ext : Externals}.

Lemma split_ws_cons (c : ascii) (r : string) :
  split_ws (String c r)
  = if is_str_space c then split_ws r
    else match r with
         | EmptyString => [String c EmptyString]
         | String c' _ =>
             if is_str_space c' then String c EmptyString :: split_ws r
             else match split_ws r with
                  | w :: ws => String c w :: ws
                  | [] => [String c EmptyString]
                  end
         end.
Proof. reflexivity. Qed.

Lemma split_ws_word (w rest : string) :
  w <> "" -> spaceless w = true ->
  (rest = "" \/ exists c r, rest = String c r /\ is_str_space c = true) ->
  split_ws (w ++ rest) = w :: split_ws rest.
Proof.
  induction w as [|c w IH]; [congruence|]. intros _ S R.
  cbn [spaceless] in S. apply andb_prop in S as [Sc Sw].
  apply negb_true_iff in Sc.
  destruct w as [|c' w'].
  - change ((String c "" ++ rest)%string) with (String c rest).
    rewrite split_ws_cons, Sc.
    destruct R as [->|[sp [r [-> Hsp]]]]; [reflexivity|]. now rewrite Hsp.
  - change ((String c (String c' w') ++ rest)%string)
      with (String c (String c' w' ++ rest)%string).
    rewrite split_ws_cons, Sc.
    pose proof Sw as Sw'. cbn [spaceless] in Sw'.
    apply andb_prop in Sw' as [Sc' _]. apply negb_true_iff in Sc'.
    rewrite IH by (auto; discriminate).
    change ((String c' w' ++ rest)%string) with (String c' (w' ++ rest)%string).
    cbv beta iota. now rewrite Sc'.
Qed.

Lemma split_ws_words (s : string) :
  Forall (fun w => w <> "" /\ spaceless w = true) (split_ws s).
Proof.
  induction s as [|c r IH]; [constructor|].
  cbn [split_ws]. destruct (is_str_space c) eqn:Sc; [exact IH|].
  destruct r as [|c' r'].
  - repeat constructor; [discriminate | cbn; now rewrite Sc].
  - destruct (is_str_space c') eqn:Sc'.
    + constructor; [|exact IH]. split; [discriminate | cbn; now rewrite Sc].
    + destruct (split_ws (String c' r')) as [|w ws].
      * repeat constructor; [discriminate | cbn; now rewrite Sc].
      * inversion IH as [|? ? [Hw Sw] Hws]; subst.
        constructor; [|exact Hws].
        split; [discriminate | cbn; now rewrite Sc, Sw].
Qed.

Lemma lower_char_space (c : ascii) :
  is_str_space c = true -> lower_char c = c.
Proof.
  destruct c as [[] [] [] [] [] [] [] []]; vm_compute;
    intros H; try reflexivity; discriminate.
Qed.

Lemma spaceless_lower (s : string) :
  spaceless (py_lower s) = true -> spaceless s = true.
Proof.
  induction s as [|c r IH]; [reflexivity|]. cbn [py_lower spaceless].
  intros H. apply andb_prop in H as [Hc Hr]. rewrite (IH Hr), andb_true_r.
  destruct (is_str_space c) eqn:Sc; [|reflexivity].
  rewrite (lower_char_space c Sc), Sc in Hc. discriminate.
Qed.

Lemma append_nil_r (s : string) : (s ++ "")%string = s.
Proof. induction s as [|c s IH]; simpl; congruence. Qed.

Lemma get_bearer_token_accepts (scheme credentials : string) :
  py_lower scheme = "bearer" ->
  credentials <> "" ->
  spaceless credentials = true ->
  _get_bearer_token (Some (scheme ++ " " ++ credentials)) = Some credentials.
Proof.
  intros L NE S.
  assert (scheme <> "") as NS by (intros ->; discriminate).
  assert (spaceless scheme = true) as SS
    by (apply spaceless_lower; rewrite L; reflexivity).
  unfold _get_bearer_token.
  destruct (String.eqb_spec (scheme ++ " " ++ credentials) "") as [E|_].
  { destruct scheme; [congruence | discriminate]. }
  rewrite (split_ws_word scheme (" " ++ credentials) NS SS)
    by (right; exists " "%char, credentials; split; reflexivity).
  change (split_ws (" " ++ credentials)) with (split_ws credentials).
  rewrite <- (append_nil_r credentials) at 1.
  rewrite (split_ws_word credentials "" NE S) by now left.
  cbn [split_ws]. now rewrite L.
Qed.

(** X20. [_get_bearer_token] reads a header of the form
    [<scheme> <credentials>] whose scheme is "bearer" in any letter case and
    returns the credentials; and what it returns is never empty and never
    holds whitespace. *)
Theorem get_bearer_token_reads_bearer (scheme credentials : string) :
  py_lower scheme = "bearer" ->
  credentials <> "" ->
  spaceless credentials = true ->
  _get_bearer_token (Some (scheme ++ " " ++ credentials)) = Some credentials /\
  forall authorization token,
    _get_bearer_token authorization = Some token ->
    token <> "" /\ spaceless token = true.
Proof.
  intros L NE S. split; [now apply get_bearer_token_accepts|].
  clear L NE S.
  intros authorization token H. unfold _get_bearer_token in H.
  destruct (String.eqb _ ""); [discriminate|].
  pose proof (split_ws_words
                (match authorization with Some h => h | None => "" end)) as F.
  destruct (split_ws _) as [|w1 [|w2 [|w3 ws]]]; try discriminate.
  destruct (String.eqb (py_lower w1) "bearer"); [|discriminate].
  injection H as <-.
  inversion F as [|? ? _ F2]; subst. now inversion F2.
Qed.

Lemma to_int_nonnil (z : Z) :
  Z.to_int z <> Decimal.Pos Decimal.Nil /\
  Z.to_int z <> Decimal.Neg Decimal.Nil.
Proof.
  destruct z as [|p|p]; simpl; split; try discriminate;
    intros H; injection H as H;
    exact (DecimalPos.Unsigned.to_uint_nonnil p H).
Qed.

Lemma py_str_int_inj (a b : Z) :
  py_str (PInt a) = py_str (PInt b) -> a = b.
Proof.
  simpl. intros H. apply DecimalZ.to_int_inj.
  destruct (to_int_nonnil a) as [A1 A2], (to_int_nonnil b) as [B1 B2].
  pose proof (NilZero.isi (Z.to_int a) A1 A2) as Ia.
  pose proof (NilZero.isi (Z.to_int b) B1 B2) as Ib.
  rewrite H in Ia. rewrite Ia in Ib. now injection Ib.
Qed.

(** X21. The key of a request that carries a token the service has made,
    of either type: ["user:<id>"] up to the token's expiry second, the
    remote address after it; and two users never share a key. *)
Theorem rate_limit_key_of_issued_token (uid : Z) (role type : string)
    (exp : Z) (remote_address : string) (now : datetime) :
  decode_inverts_encode ->
  let token := jwt_encode (claims_of uid role type exp) SECRET_KEY in
  token <> "" ->
  spaceless token = true ->
  rate_limit_key (Some ("Bearer " ++ token)) remote_address now
  = Ok (if exp <? timegm now then remote_address
        else "user:" ++ py_str (PInt uid)) /\
  forall uid', ("user:" ++ py_str (PInt uid) = "user:" ++ py_str (PInt uid'))%string ->
               uid = uid'.
Proof.
  intros RT token NE S. split.
  - unfold rate_limit_key.
    pose proof (get_bearer_token_accepts "Bearer" token eq_refl NE S) as G.
    change ("Bearer" ++ " " ++ token)%string with ("Bearer " ++ token)%string
      in G.
    rewrite G.
    destruct (String.eqb_spec token "") as [E|_]; [contradiction|].
    unfold token. rewrite (jwt_decode_issued _ _ _ _ _ RT).
    now destruct (exp <? timegm now).
  - intros uid' H. apply py_str_int_inj.
    now injection H.
Qed.

(** Without a usable token the key is the remote address: no header, a
    header that is not a bearer header, or a token that does not verify. *)
Lemma rate_limit_key_falls_back (authorization : option string)
    (remote_address : string) (now : datetime) :
  (forall token, _get_bearer_token authorization = Some token ->
                 jws_verify token SECRET_KEY = None) ->
  rate_limit_key authorization remote_address now = Ok remote_address.
Proof.
  intros H. unfold rate_limit_key.
  destruct (_get_bearer_token authorization) as [token|]; [|reflexivity].
  destruct (String.eqb token ""); [reflexivity|].
  unfold jwt_decode. now rewrite (H token eq_refl).
Qed.

End RateLimiterFacts.

(* ===================================================================== *)
(** ** The blob store's URLs *)
(* ===================================================================== *)

Section StorageFacts.
Context {cfg : StorageSettings}.
Import BookService.

Lemma append_assoc (a b c : string) :
  ((a ++ b) ++ c = a ++ (b ++ c))%string.
Proof. induction a as [|x a IH]; simpl; congruence. Qed.

Lemma length_append (a b : string) :
  String.length (a ++ b) = (String.length a + String.length b)%nat.
Proof. induction a as [|x a IH]; simpl; congruence. Qed.

Lemma prefix_rest_append (m p : string) : prefix_rest m (m ++ p) = Some p.
Proof.
  induction m as [|a m IH]; simpl; [reflexivity|].
  now rewrite Ascii.eqb_refl.
Qed.

(** A text that does not start with [m], and is as long as [m], does not
    start with [m] however it is continued. *)
Lemma prefix_rest_None_append (m x p : string) :
  prefix_rest m x = None ->
  (String.length m <= String.length x)%nat ->
  prefix_rest m (x ++ p) = None.
Proof.
  revert x. induction m as [|a m IH]; intros x H L; [discriminate|].
  destruct x as [|b x]; [simpl in L; lia|].
  simpl in *. destruct (Ascii.eqb a b); [|reflexivity].
  apply IH; [exact H | lia].
Qed.

Lemma split_once_eq (sep s : string) :
  split_once sep s
  = match prefix_rest sep s with
    | Some rest => Some (EmptyString, rest)
    | None =>
        match s with
        | EmptyString => None
        | String c r =>
            match split_once sep r with
            | Some (before, after) => Some (String c before, after)
            | None => None
            end
        end
    end.
Proof. destruct s; reflexivity. Qed.

Lemma split_once_extend (m a p : string) :
  split_once m (a ++ m) = Some (a, "") ->
  split_once m (a ++ m ++ p) = Some (a, p).
Proof.
  induction a as [|c a IH]; intros H.
  - cbn [String.append]. now rewrite split_once_eq, prefix_rest_append.
  - change ((String c a ++ m ++ p)%string)
      with (String c (a ++ m ++ p)%string).
    change ((String c a ++ m)%string) with (String c (a ++ m)%string) in H.
    rewrite split_once_eq in H. rewrite split_once_eq.
    destruct (prefix_rest m (String c (a ++ m))) eqn:P; [discriminate|].
    destruct (split_once m (a ++ m)) as [[before after]|] eqn:Sp;
      [|discriminate].
    injection H as -> ->.
    pose proof (prefix_rest_None_append m (String c (a ++ m)) p P) as N.
    change ((String c (a ++ m) ++ p)%string)
      with (String c ((a ++ m) ++ p)%string) in N.
    rewrite append_assoc in N. rewrite N.
    + now rewrite (IH eq_refl).
    + simpl. rewrite length_append. lia.
Qed.

Lemma _ensure_Ok :
  _ensure_image_uploads_enabled = Ok tt ->
  truthy_str SUPABASE_URL = true /\
  truthy_str SUPABASE_SERVICE_ROLE_KEY = true /\
  truthy_str SUPABASE_BUCKET = true.
Proof.
  unfold _ensure_image_uploads_enabled.
  destruct (truthy_str SUPABASE_URL), (truthy_str SUPABASE_SERVICE_ROLE_KEY),
    (truthy_str SUPABASE_BUCKET); simpl; intros H; try discriminate; auto.
Qed.

Lemma _build_public_url_Ok (object_path url : string) :
  _build_public_url object_path = Ok url ->
  _ensure_image_uploads_enabled = Ok tt /\
  url = (rstrip_char "/" (setting SUPABASE_URL)
         ++ ("/storage/v1/object/public/" ++ setting SUPABASE_BUCKET ++ "/")
         ++ object_path)%string.
Proof.
  unfold _build_public_url.
  destruct _ensure_image_uploads_enabled as [[]| |]; try discriminate.
  intros H. injection H as <-. split; [reflexivity|].
  now rewrite !append_assoc.
Qed.

Lemma _extract_of_built (object_path url : string) :
  _build_public_url object_path = Ok url ->
  let base := rstrip_char "/" (setting SUPABASE_URL) in
  let marker :=
    ("/storage/v1/object/public/" ++ setting SUPABASE_BUCKET ++ "/")%string in
  split_once marker (base ++ marker) = Some (base, "") ->
  _extract_object_path_from_url (Some url)
  = if String.eqb (py_strip object_path) "" then None
    else Some (py_strip object_path).
Proof.
  intros B base marker H.
  apply _build_public_url_Ok in B as [E ->].
  apply _ensure_Ok in E as [U [_ Bk]].
  fold base marker. unfold _extract_object_path_from_url.
  rewrite U, Bk. cbn [negb orb setting].
  assert (truthy_str (Some (base ++ marker ++ object_path)%string) = true) as T.
  { unfold truthy_str. apply negb_true_iff. apply String.eqb_neq.
    destruct base; discriminate. }
  rewrite T. cbn [negb]. fold marker.
  now rewrite (split_once_extend marker base object_path H).
Qed.

(** X22. The public URL of an object leads back to the object:
    [_extract_object_path_from_url] of the URL [_build_public_url] makes for
    a path is that path, less surrounding whitespace (nothing when only
    whitespace is left), provided the marker
    ["/storage/v1/object/public/<bucket>/"] does not already occur in the
    base URL followed by the marker before its end. *)
Theorem extract_object_path_of_public_url (object_path url : string) :
  _build_public_url object_path = Ok url ->
  split_once
    ("/storage/v1/object/public/" ++ setting SUPABASE_BUCKET ++ "/")
    (rstrip_char "/" (setting SUPABASE_URL)
     ++ "/storage/v1/object/public/" ++ setting SUPABASE_BUCKET ++ "/")
  = Some (rstrip_char "/" (setting SUPABASE_URL), "") ->
  _extract_object_path_from_url (Some url)
  = if String.eqb (py_strip object_path) "" then None
    else Some (py_strip object_path).
Proof.
  intros B H.
  apply _build_public_url_Ok in B as [E ->].
  apply _ensure_Ok in E as [U [_ Bk]].
  unfold _extract_object_path_from_url. rewrite U, Bk.
  cbn [negb orb setting truthy_str].
  destruct (String.eqb_spec
              (rstrip_char "/" (setting SUPABASE_URL)
               ++ ("/storage/v1/object/public/" ++ setting SUPABASE_BUCKET ++ "/")
               ++ object_path) "") as [E0|_].
  { destruct (rstrip_char "/" (setting SUPABASE_URL)); discriminate. }
  cbn [negb orb].
  now rewrite (split_once_extend _ _ object_path H).
Qed.

(** X23. Removing a stored image never fails because the object is already
    gone or the store cannot be reached: with the service key set, a DELETE
    that ends in [httpx.RequestError] or in status 200, 204 or 404 leaves
    [_delete_existing_file] without an error, whatever the image URL. *)
Theorem delete_existing_file_tolerant (image_url : option string)
    (delete : string -> httpx_outcome string) :
  truthy_str SUPABASE_SERVICE_ROLE_KEY = true ->
  (forall url status_code text,
     delete url = Response status_code text ->
     status_code = 200 \/ status_code = 204 \/ status_code = 404) ->
  _delete_existing_file image_url delete = Ok tt.
Proof.
  intros K H. unfold _delete_existing_file.
  destruct (_extract_object_path_from_url image_url) as [p|] eqn:X;
    [|reflexivity].
  unfold _extract_object_path_from_url in X.
  destruct (truthy_str image_url); [|discriminate].
  destruct (truthy_str SUPABASE_URL) eqn:U; [|discriminate].
  destruct (truthy_str SUPABASE_BUCKET) eqn:B; [|discriminate].
  unfold _supabase_headers, _ensure_image_uploads_enabled.
  rewrite U, K, B. cbn [andb].
  destruct (delete _) as [|c text] eqn:D; [reflexivity|].
  destruct (H _ _ _ D) as [ -> | [ -> | -> ] ]; reflexivity.
Qed.

(** X24. Removing the image a public URL names asks the store to delete
    the object that URL was made for, and fails (502) only on an answer
    other than 200, 204 and 404. *)
Theorem delete_existing_file_of_public_url (object_path url : string)
    (delete : string -> httpx_outcome string) :
  _build_public_url object_path = Ok url ->
  split_once
    ("/storage/v1/object/public/" ++ setting SUPABASE_BUCKET ++ "/")
    (rstrip_char "/" (setting SUPABASE_URL)
     ++ "/storage/v1/object/public/" ++ setting SUPABASE_BUCKET ++ "/")
  = Some (rstrip_char "/" (setting SUPABASE_URL), "") ->
  py_strip object_path = object_path ->
  object_path <> "" ->
  _delete_existing_file (Some url) delete
  = match delete (rstrip_char "/" (setting SUPABASE_URL)
                  ++ "/storage/v1/object/" ++ setting SUPABASE_BUCKET ++ "/"
                  ++ object_path)%string with
    | Response status_code _ =>
        if (negb (status_code =? 200) && negb (status_code =? 204)
            && negb (status_code =? 404))%bool
        then HTTPException HTTP_502_BAD_GATEWAY
               "Failed to delete existing image from storage."
        else Ok tt
    | RequestError => Ok tt
    end.
Proof.
  intros B H S NE. unfold _delete_existing_file.
  rewrite (_extract_of_built object_path url B H), S.
  destruct (String.eqb_spec object_path "") as [E|_]; [contradiction|].
  apply _build_public_url_Ok in B as [E _].
  unfold _supabase_headers. now rewrite E.
Qed.

End StorageFacts.

(* ===================================================================== *)
(** ** The monolith's book routes *)
(* ===================================================================== *)

Section LegacyRoutes.
Context {ext : Externals}.
Import Legacy.

Lemma update_book_Ok (book_id : Z) (book : BookBase) (user_id : Z)
    (lib lib' : Library) (b' : Book) :
  update_book book_id book user_id lib = (Ok b', lib') ->
  exists u b,
    user_by_id (accounts lib) user_id = Some u /\
    In b (books lib) /\ b_id b = book_id /\
    (not_admin u = true -> b_owner_id b = user_id) /\
    b' = set_book book b /\
    lib' = mkLibrary (accounts lib)
             (map (fun x => if b_id x =? b_id b then set_book book x else x)
                  (books lib)).
Proof.
  unfold update_book. intros H.
  destruct (user_by_id (accounts lib) user_id) as [u|]; [|discriminate].
  destruct (find _ (books lib)) as [b|] eqn:F; [|discriminate].
  injection H as <- <-. exists u, b.
  apply find_some in F as [Hin Hp]. apply andb_prop in Hp as [Hi Ho].
  apply Z.eqb_eq in Hi. repeat split; auto.
  intros N. rewrite N in Ho. now apply Z.eqb_eq in Ho.
Qed.

(** X25. A caller who is not an administrator cannot change another user's
    book: [update_book] succeeds only on a book with the requested id that
    the caller owns (or for an administrator), and when every book with that
    id belongs to someone else the answer is 404 and nothing changes. *)
Theorem update_book_only_own_books (book_id : Z) (book : BookBase)
    (user_id : Z) (lib : Library) (u : User) :
  user_by_id (accounts lib) user_id = Some u ->
  not_admin u = true ->
  (forall b' lib',
     update_book book_id book user_id lib = (Ok b', lib') ->
     b_id b' = book_id /\ b_owner_id b' = user_id) /\
  ((forall b, In b (books lib) -> b_id b = book_id ->
              b_owner_id b <> user_id) ->
   update_book book_id book user_id lib
   = (HTTPException HTTP_404_NOT_FOUND "Book not found", lib)).
Proof.
  intros U N. split.
  - intros b' lib' H.
    apply update_book_Ok in H as [u0 [b [U0 [_ [Hid [Ho [-> _]]]]]]].
    rewrite U in U0. injection U0 as <-. simpl. auto.
  - intros H. unfold update_book. rewrite U, N.
    destruct (find _ (books lib)) as [b|] eqn:F; [|reflexivity].
    apply find_some in F as [Hin Hp]. apply andb_prop in Hp as [Hi Ho].
    apply Z.eqb_eq in Hi, Ho. now elim (H b Hin Hi).
Qed.

(** X26. What [update_book] leaves alone: the accounts, the number and
    order of the books, every book's id, owner and image, and every book
    with another id altogether. *)
Theorem update_book_frame (book_id : Z) (book : BookBase) (user_id : Z)
    (lib : Library) :
  let lib' := snd (update_book book_id book user_id lib) in
  accounts lib' = accounts lib /\
  map b_id (books lib') = map b_id (books lib) /\
  map b_owner_id (books lib') = map b_owner_id (books lib) /\
  map b_image_url (books lib') = map b_image_url (books lib) /\
  filter (fun b => negb (b_id b =? book_id)) (books lib')
  = filter (fun b => negb (b_id b =? book_id)) (books lib).
Proof.
  intros lib'.
  destruct (update_book book_id book user_id lib) as [r l] eqn:H.
  subst lib'. cbn [snd].
  destruct r as [b'| |].
  - apply update_book_Ok in H as [u [b [_ [_ [Hid [_ [_ ->]]]]]]].
    cbn [accounts books]. rewrite !map_map. repeat split.
    + apply map_ext. intros x. now destruct (b_id x =? b_id b).
    + apply map_ext. intros x. now destruct (b_id x =? b_id b).
    + apply map_ext. intros x. now destruct (b_id x =? b_id b).
    + rewrite Hid. induction (books lib) as [|x l IH]; [reflexivity|].
      cbn [map filter].
      destruct (b_id x =? book_id) eqn:E; cbn [set_book b_id negb];
        rewrite ?E; cbn [negb]; [exact IH | now rewrite IH].
  - unfold update_book in H. repeat (case_scrutinee_hyp H; try discriminate);
      injection H as _ _ <-; repeat split; reflexivity.
  - unfold update_book in H. repeat (case_scrutinee_hyp H; try discriminate).
Qed.

Lemma existsb_user_by_id (db : DB) (i : Z) :
  existsb (fun u => u_id u =? i) (users db) = true ->
  exists u, user_by_id db i = Some u.
Proof.
  intros H. apply existsb_exists in H as [u [Hin Hi]].
  unfold user_by_id. destruct (find _ _) as [u'|] eqn:F; [eauto|].
  pose proof (find_none _ _ F u Hin) as N. simpl in N. congruence.
Qed.

(** X27. A book just added can be updated by the one who added it:
    [add_book] gives it an id no book has and the caller as owner, and an
    [update_book] of that id by the same caller succeeds, replaces its fields
    and leaves the other books as they were. *)
Theorem add_book_then_update_book (book book2 : BookBase) (user_id : Z)
    (lib lib1 : Library) (b : Book) :
  add_book book user_id lib = (Ok b, lib1) ->
  b_owner_id b = user_id /\
  ~ In (b_id b) (map b_id (books lib)) /\
  books lib1 = (books lib ++ [b])%list /\
  update_book (b_id b) book2 user_id lib1
  = (Ok (set_book book2 b),
     mkLibrary (accounts lib) (books lib ++ [set_book book2 b])).
Proof.
  unfold add_book. intros H.
  destruct (existsb _ _) eqn:X; [|discriminate].
  injection H as <- <-. cbn [b_owner_id b_id books accounts].
  split; [reflexivity|]. split; [apply next_id_fresh|].
  split; [reflexivity|].
  apply existsb_user_by_id in X as [u U].
  unfold update_book. cbn [accounts books]. rewrite U.
  set (new := mkBook _ _ _ _ _ _ _ _).
  assert (forall x, In x (books lib) -> (b_id x =? b_id new) = false) as Old.
  { intros x Hin. apply Z.eqb_neq. intros E.
    apply (next_id_fresh (map b_id (books lib))).
    change (next_id (map b_id (books lib))) with (b_id new).
    rewrite <- E. now apply in_map. }
  rewrite (find_snoc_fresh _ (books lib) new).
  - f_equal. f_equal. rewrite map_app. cbn [map]. rewrite Z.eqb_refl.
    f_equal. rewrite <- (map_id (books lib)) at 2. apply map_ext_in.
    intros x Hin. now rewrite (Old x Hin).
  - intros x Hin. change (b_id new) with (next_id (map b_id (books lib))).
    change (next_id (map b_id (books lib))) with (b_id new).
    now rewrite (Old x Hin).
  - cbn [b_id b_owner_id new]. rewrite !Z.eqb_refl. now destruct (not_admin u).
Qed.

(** X28. A request the auth endpoint would refuse never reaches the body
    of a route behind [get_current_user_id]: the route answers with an error
    and the database is as it was. *)
Theorem with_current_user_id_fails_closed {A : Type}
    (route : Z -> Library -> result A * Library) (credentials : string)
    (now : datetime) (lib : Library) :
  is_ok (validate_token credentials now) = false ->
  is_ok (fst (with_current_user_id route credentials now lib)) = false /\
  snd (with_current_user_id route credentials now lib) = lib.
Proof.
  unfold with_current_user_id, get_current_user_id, validate_token.
  destruct (decode_token credentials now) as [payload| |]; auto.
  destruct (pyval_eqb _ _); cbn [negb]; auto.
  destruct (dict_get payload "id") as [|b|z|s]; cbn [py_int fst snd is_ok];
    auto; try discriminate.
  destruct (int_of_str s); cbn [fst snd is_ok]; auto. discriminate.
Qed.

End LegacyRoutes.

(* ===================================================================== *)
(** ** The allowed origins *)
(* ===================================================================== *)

Section Origins.

Lemma py_lstrip_idem (s : string) : py_lstrip (py_lstrip s) = py_lstrip s.
Proof.
  induction s as [|c r IH]; [reflexivity|]. cbn [py_lstrip].
  destruct (is_str_space c) eqn:E; [exact IH|]. cbn [py_lstrip]. now rewrite E.
Qed.

Lemma py_rstrip_cons (c : ascii) (r : string) :
  py_rstrip (String c r)
  = match py_rstrip r with
    | EmptyString => if is_str_space c then EmptyString else String c EmptyString
    | r' => String c r'
    end.
Proof. reflexivity. Qed.

Lemma py_rstrip_idem (s : string) : py_rstrip (py_rstrip s) = py_rstrip s.
Proof.
  induction s as [|c r IH]; [reflexivity|]. rewrite py_rstrip_cons.
  destruct (py_rstrip r) as [|c' r'] eqn:E.
  - destruct (is_str_space c) eqn:Sc; [reflexivity|].
    rewrite py_rstrip_cons. cbn [py_rstrip]. now rewrite Sc.
  - rewrite py_rstrip_cons, IH. reflexivity.
Qed.

(** Dropping leading whitespace keeps a text free of trailing whitespace. *)
Lemma py_rstrip_lstrip (t : string) :
  py_rstrip t = t -> py_rstrip (py_lstrip t) = py_lstrip t.
Proof.
  induction t as [|c r IH]; [reflexivity|]. intros H. cbn [py_lstrip].
  destruct (is_str_space c) eqn:Sc; [|exact H].
  apply IH. rewrite py_rstrip_cons in H.
  destruct (py_rstrip r) as [|c' r'] eqn:E.
  - rewrite Sc in H. discriminate.
  - now injection H.
Qed.

Lemma py_strip_idem (s : string) : py_strip (py_strip s) = py_strip s.
Proof.
  unfold py_strip.
  rewrite (py_rstrip_lstrip (py_rstrip s) (py_rstrip_idem s)).
  apply py_lstrip_idem.
Qed.

Lemma has_char_lstrip (ch : ascii) (s : string) :
  has_char ch s = false -> has_char ch (py_lstrip s) = false.
Proof.
  induction s as [|c r IH]; [reflexivity|]. intros H. cbn [py_lstrip].
  destruct (is_str_space c); [|exact H].
  apply IH. cbn [has_char] in H. now apply orb_false_iff in H.
Qed.

Lemma has_char_rstrip (ch : ascii) (s : string) :
  has_char ch s = false -> has_char ch (py_rstrip s) = false.
Proof.
  induction s as [|c r IH]; [reflexivity|]. intros H.
  cbn [has_char] in H. apply orb_false_iff in H as [Hc Hr].
  rewrite py_rstrip_cons. specialize (IH Hr).
  destruct (py_rstrip r) as [|c' r'].
  - destruct (is_str_space c); [reflexivity|]. cbn [has_char].
    now rewrite Hc.
  - cbn [has_char] in *. now rewrite Hc, IH.
Qed.

Lemma split_char_pieces (ch : ascii) (s : string) :
  Forall (fun w => has_char ch w = false) (split_char ch s).
Proof.
  induction s as [|c r IH]; [repeat constructor|]. cbn [split_char].
  destruct (Ascii.eqb c ch) eqn:E; [constructor; [reflexivity | exact IH]|].
  destruct (split_char ch r) as [|w ws].
  - repeat constructor. cbn [has_char]. now rewrite E.
  - inversion IH as [|? ? Hw Hws]; subst. constructor; [|exact Hws].
    cbn [has_char]. now rewrite E, Hw.
Qed.

(** X29. The allowed origins read from [FRONTEND_ORIGINS] are clean: none is
    empty, none begins or ends with whitespace, none holds a comma. *)
Theorem allow_origins_clean (FRONTEND_ORIGINS : string) :
  Forall (fun origin =>
            origin <> "" /\ py_strip origin = origin /\
            has_char ","%char origin = false)
         (allow_origins FRONTEND_ORIGINS).
Proof.
  unfold allow_origins. apply Forall_forall. intros o Hin.
  apply in_map_iff in Hin as [w [<- Hw]].
  apply filter_In in Hw as [Hin Hne].
  apply negb_true_iff, String.eqb_neq in Hne.
  split; [exact Hne|]. split; [apply py_strip_idem|].
  pose proof (split_char_pieces ","%char FRONTEND_ORIGINS) as F.
  rewrite Forall_forall in F. specialize (F w Hin).
  unfold py_strip. now apply has_char_lstrip, has_char_rstrip.
Qed.

End Origins.

(* ===================================================================== *)
(** ** The theorems above, at the stand-ins *)
(* ===================================================================== *)

Section AtTheStandIns.
#[local] Existing Instance Mock.externals.
#[local] Existing Instance Mock.storage.

Lemma db_rotated_reachable : reachable Mock.db_rotated.
Proof. exists Mock.requests_so_far. vm_compute. reflexivity. Qed.

Lemma reachable_schema_constraints_witness :
  email_unique Mock.db_rotated /\ user_id_unique Mock.db_rotated /\
  token_id_unique Mock.db_rotated /\ token_hash_unique Mock.db_rotated /\
  ledger_owned Mock.db_rotated.
Proof.
  apply (reachable_schema_constraints Mock.db_rotated).
  exists Mock.requests_so_far. vm_compute. reflexivity.
Defined.

Lemma reachable_roles_are_user_witness :
  (forall u, In u (users Mock.db_rotated) -> u_role u = Some "user") /\
  forall user clk issued db',
    login user clk Mock.db_rotated = (Ok issued, db') ->
    exists u,
      user_by_email Mock.db_rotated (ul_email user) = Some u /\
      token issued = create_access_token (u_id u) "user" (clk 0%nat) /\
      refresh_token_ issued = create_refresh_token (u_id u) "user" (clk 1%nat).
Proof.
  apply (reachable_roles_are_user Mock.db_rotated).
  exists Mock.requests_so_far. vm_compute. reflexivity.
Defined.

Lemma reachable_refresh_refusals_uniform_witness :
  fst (refresh_token Mock.r1 (Mock.at_time (Mock.sec 300)) Mock.db_rotated)
  = HTTPException HTTP_401_UNAUTHORIZED "Invalid refresh token" \/
  fst (refresh_token Mock.r1 (Mock.at_time (Mock.sec 300)) Mock.db_rotated)
  = Uncaught IntegrityError.
Proof.
  apply (reachable_refresh_refusals_uniform Mock.db_rotated Mock.r1
           (Mock.at_time (Mock.sec 300))).
  - exists Mock.requests_so_far. vm_compute. reflexivity.
  - vm_compute. reflexivity.
Defined.

Lemma ledger_rows_kept_witness :
  exists t',
    In t' (refresh_tokens
             (serve_all [Refresh Mock.r1 (Mock.at_time (Mock.sec 200))]
                        Mock.db_logged_in)) /\
    rt_id t' = 1 /\ rt_user_id t' = 1 /\
    token_hash t' = hash_token (refresh_token_ Mock.tokens) /\
    expires_at t' = Mock.sec 100 + timedelta_days 7 /\
    created_at t' = Mock.sec 100 /\ (false = true -> revoked t' = true).
Proof.
  apply (ledger_rows_kept [Refresh Mock.r1 (Mock.at_time (Mock.sec 200))]
           Mock.db_logged_in
           (mkRefreshToken 1 1 (hash_token (refresh_token_ Mock.tokens))
                           (Mock.sec 100 + timedelta_days 7) false
                           (Mock.sec 100))).
  vm_compute. left. reflexivity.
Defined.

Lemma accounts_kept_witness :
  exists u',
    In u' (users (serve_all
                    [ResetPassword Mock.alice_reset "KCl"
                                   (Mock.at_time (Mock.sec 300))]
                    (serve_all Mock.requests_so_far empty_db))) /\
    u_id u' = 1 /\ u_name u' = "Alice" /\ u_email u' = "a@x.com" /\
    u_role u' = Some "user".
Proof.
  apply (accounts_kept
           [ResetPassword Mock.alice_reset "KCl" (Mock.at_time (Mock.sec 300))]
           (serve_all Mock.requests_so_far empty_db)
           (Mock.row_of Mock.db_rotated "a@x.com")).
  vm_compute. left. reflexivity.
Defined.

Lemma register_email_stays_taken_witness :
  register (mkUserCreate "Eve" "a@x.com" "hunter22") "KCl"
           (serve_all [Login Mock.alice_login (Mock.at_time (Mock.sec 100))]
                      Mock.db_registered)
  = (HTTPException HTTP_409_CONFLICT "Email already registered",
     serve_all [Login Mock.alice_login (Mock.at_time (Mock.sec 100))]
               Mock.db_registered).
Proof.
  apply (register_email_stays_taken Mock.alice "NaCl" empty_db
           Mock.db_registered (mkUserPublic 1 "Alice" "a@x.com" "user")).
  - vm_compute. reflexivity.
  - reflexivity.
Defined.

Lemma refused_request_changes_nothing_witness :
  serve (Login Mock.wrong_password_login (Mock.at_time (Mock.sec 100)))
        Mock.db_registered
  = Mock.db_registered.
Proof.
  apply (refused_request_changes_nothing
           (Login Mock.wrong_password_login (Mock.at_time (Mock.sec 100)))
           Mock.db_registered).
  - reflexivity.
  - vm_compute. reflexivity.
Defined.

Lemma login_issues_live_row_witness :
  exists u row,
    user_by_email Mock.db_registered (ul_email Mock.alice_login) = Some u /\
    token_by_hash Mock.db_logged_in (hash_token (refresh_token_ Mock.tokens))
    = Some row /\
    rt_user_id row = u_id u /\ revoked row = false /\
    expires_at row
    = Mock.at_time (Mock.sec 100) 2%nat
      + timedelta_days REFRESH_TOKEN_EXPIRE_DAYS /\
    users Mock.db_logged_in = users Mock.db_registered /\
    refresh_tokens Mock.db_logged_in
    = (refresh_tokens Mock.db_registered ++ [row])%list.
Proof.
  apply (login_issues_live_row Mock.alice_login (Mock.at_time (Mock.sec 100))
           Mock.db_registered Mock.db_logged_in Mock.tokens).
  vm_compute. reflexivity.
Defined.

Lemma login_then_refresh_witness :
  (exists issued' db'',
     refresh_token (mkRefreshTokenRequest (refresh_token_ Mock.tokens))
                   (Mock.at_time (Mock.sec 200))
                   (serve_all Mock.in_between Mock.db_logged_in)
     = (Ok issued', db'')) \/
  refresh_token (mkRefreshTokenRequest (refresh_token_ Mock.tokens))
                (Mock.at_time (Mock.sec 200))
                (serve_all Mock.in_between Mock.db_logged_in)
  = (Uncaught IntegrityError, serve_all Mock.in_between Mock.db_logged_in).
Proof.
  apply (login_then_refresh Mock.alice_login (Mock.at_time (Mock.sec 100))
           Mock.db_registered Mock.db_logged_in Mock.tokens).
  - vm_compute. reflexivity.
  - vm_compute. reflexivity.
  - vm_compute. discriminate.
Defined.

Lemma refresh_in_the_issuing_second_witness :
  refresh_token (mkRefreshTokenRequest (refresh_token_ Mock.tokens))
                (Mock.at_time (Mock.sec 100 + 999999)) Mock.db_logged_in
  = (Uncaught IntegrityError, Mock.db_logged_in).
Proof.
  apply (refresh_in_the_issuing_second Mock.alice_login
           (Mock.at_time (Mock.sec 100))
           (Mock.at_time (Mock.sec 100 + 999999))
           Mock.db_registered Mock.db_logged_in Mock.tokens).
  - unfold user_id_unique. vm_compute. repeat constructor. intros [].
  - vm_compute. reflexivity.
  - vm_compute. reflexivity.
  - vm_compute. discriminate.
Defined.

Lemma refresh_issues_live_row_witness :
  exists t u row,
    token_by_hash Mock.db_admin_logged_in
                  (hash_token (rr_refresh_token Mock.root_refresh)) = Some t /\
    user_by_id Mock.db_admin_logged_in (rt_user_id t) = Some u /\
    (forall role,
       (u_role u = Some role /\ role <> "") \/
       ((u_role u = None \/ u_role u = Some "") /\ role = "user") ->
       token Mock.root_rotated
       = create_access_token (u_id u) role
                             (Mock.at_time (Mock.sec 200) 1%nat) /\
       refresh_token_ Mock.root_rotated
       = create_refresh_token (u_id u) role
                              (Mock.at_time (Mock.sec 200) 2%nat)) /\
    token_by_hash Mock.db_admin_rotated
                  (hash_token (refresh_token_ Mock.root_rotated))
    = Some row /\
    rt_user_id row = rt_user_id t /\ revoked row = false /\
    expires_at row
    = Mock.at_time (Mock.sec 200) 3%nat
      + timedelta_days REFRESH_TOKEN_EXPIRE_DAYS /\
    users Mock.db_admin_rotated = users Mock.db_admin_logged_in.
Proof.
  apply (refresh_issues_live_row Mock.root_refresh
           (Mock.at_time (Mock.sec 200)) Mock.db_admin_logged_in
           Mock.db_admin_rotated Mock.root_rotated).
  vm_compute. reflexivity.
Defined.

(** The administrator's new access token says ["admin"]. *)
Lemma refresh_keeps_the_stored_role :
  validate_token (token Mock.root_rotated) (Mock.sec 250)
  = Ok (mkValidated 7 (PStr "admin")).
Proof. vm_compute. reflexivity. Qed.

Lemma access_token_lifetime_witness :
  validate_token (create_access_token 1 "user" (Mock.sec 100)) (Mock.sec 1901)
  = if timegm (Mock.sec 1901)
         <=? timegm (Mock.sec 100
                     + timedelta_minutes ACCESS_TOKEN_EXPIRE_MINUTES)
    then Ok (mkValidated 1 (PStr "user"))
    else HTTPException HTTP_401_UNAUTHORIZED "Invalid or expired token".
Proof.
  apply (access_token_lifetime 1 "user" (Mock.sec 100) (Mock.sec 1901)).
  exact MockFacts.decode_inverts_encode_holds.
Defined.

Lemma refresh_token_never_validates_witness :
  error_status
    (validate_token (create_refresh_token 1 "user" (Mock.sec 100))
                    (Mock.sec 200)) = Some 401 /\
  error_status
    (get_current_user_id (create_refresh_token 1 "user" (Mock.sec 100))
                         (Mock.sec 200)) = Some 401.
Proof.
  apply (refresh_token_never_validates 1 "user" (Mock.sec 100) (Mock.sec 200)).
  exact MockFacts.decode_inverts_encode_holds.
Defined.

Lemma forgot_password_without_mail_settings_witness :
  exists db',
    forgot_password (ext := Mock.externals_no_mail)
      (mkForgotPasswordRequest "a@x.com") 42 (Mock.at_time (Mock.sec 1000))
      RequestError Mock.db_registered
    = (Ok "OTP has been sent.", db') /\
    forall (new_password salt : string) (clk' : clock),
      clk' 0%nat <= Mock.sec 1000 + timedelta_minutes 15 ->
      fst (reset_password (ext := Mock.externals_no_mail)
             (mkResetPasswordRequest "a@x.com" (format_06d 42) new_password)
             salt clk' db')
      = Ok "Password updated".
Proof.
  apply (forgot_password_without_mail_settings (ext := Mock.externals_no_mail)
           (mkForgotPasswordRequest "a@x.com") 42
           (Mock.at_time (Mock.sec 1000)) RequestError Mock.db_registered
           (Mock.row_of Mock.db_registered "a@x.com")).
  - intros s. discriminate.
  - left. reflexivity.
  - vm_compute. reflexivity.
Defined.

Lemma forgot_password_replaces_code_witness :
    reset_password
      (mkResetPasswordRequest "a@x.com" (format_06d 42) "new-password") "NaCl"
      (Mock.at_time (Mock.sec 1100))
      (snd (forgot_password (mkForgotPasswordRequest "a@x.com") 7
              (Mock.at_time (Mock.sec 1060)) (Response 200 "queued")
              (snd (forgot_password (mkForgotPasswordRequest "a@x.com") 42
                      (Mock.at_time (Mock.sec 1000)) (Response 200 "queued")
                      Mock.db_registered))))
    = (HTTPException HTTP_400_BAD_REQUEST "Invalid OTP",
       snd (forgot_password (mkForgotPasswordRequest "a@x.com") 7
              (Mock.at_time (Mock.sec 1060)) (Response 200 "queued")
              (snd (forgot_password (mkForgotPasswordRequest "a@x.com") 42
                      (Mock.at_time (Mock.sec 1000)) (Response 200 "queued")
                      Mock.db_registered)))) /\
    fst (reset_password
           (mkResetPasswordRequest "a@x.com" (format_06d 7) "new-password")
           "NaCl" (Mock.at_time (Mock.sec 1100))
           (snd (forgot_password (mkForgotPasswordRequest "a@x.com") 7
                   (Mock.at_time (Mock.sec 1060)) (Response 200 "queued")
                   (snd (forgot_password (mkForgotPasswordRequest "a@x.com") 42
                           (Mock.at_time (Mock.sec 1000))
                           (Response 200 "queued") Mock.db_registered)))))
    = Ok "Password updated".
Proof.
  apply (forgot_password_replaces_code (mkForgotPasswordRequest "a@x.com")
           42 7 (Mock.at_time (Mock.sec 1000)) (Mock.at_time (Mock.sec 1060))
           (Response 200 "queued") (Response 200 "queued") Mock.db_registered
           (Mock.row_of Mock.db_registered "a@x.com")
           MockFacts.digest_nonempty_holds).
  - vm_compute. reflexivity.
  - vm_compute. discriminate.
  - vm_compute. discriminate.
Defined.

Lemma reset_password_after_expiry_witness :
    reset_password
      (mkResetPasswordRequest "a@x.com" (format_06d 42) "new-password") "NaCl"
      (Mock.at_time (Mock.sec 2000))
      (snd (forgot_password (mkForgotPasswordRequest "a@x.com") 42
              (Mock.at_time (Mock.sec 1000)) (Response 200 "queued")
              Mock.db_registered))
    = (HTTPException HTTP_400_BAD_REQUEST "OTP expired",
       snd (forgot_password (mkForgotPasswordRequest "a@x.com") 42
              (Mock.at_time (Mock.sec 1000)) (Response 200 "queued")
              Mock.db_registered)).
Proof.
  apply (reset_password_after_expiry (mkForgotPasswordRequest "a@x.com") 42
           (Mock.at_time (Mock.sec 1000)) (Response 200 "queued")
           Mock.db_registered (Mock.row_of Mock.db_registered "a@x.com")
           MockFacts.digest_nonempty_holds).
  - vm_compute. reflexivity.
  - vm_compute. reflexivity.
Defined.

Lemma reset_password_then_login_witness :
  (exists issued db'',
     login (mkUserLogin "a@x.com" "new-password") (Mock.at_time (Mock.sec 1200))
           (snd (reset_password Mock.alice_reset "KCl"
                   (Mock.at_time (Mock.sec 1100)) Mock.db_otp_pending))
     = (Ok issued, db'')) \/
  login (mkUserLogin "a@x.com" "new-password") (Mock.at_time (Mock.sec 1200))
        (snd (reset_password Mock.alice_reset "KCl"
                (Mock.at_time (Mock.sec 1100)) Mock.db_otp_pending))
  = (Uncaught IntegrityError,
     snd (reset_password Mock.alice_reset "KCl"
            (Mock.at_time (Mock.sec 1100)) Mock.db_otp_pending)).
Proof.
  apply (reset_password_then_login Mock.alice_reset "KCl"
           (Mock.at_time (Mock.sec 1100)) (Mock.at_time (Mock.sec 1200))
           Mock.db_otp_pending
           (snd (reset_password Mock.alice_reset "KCl"
                   (Mock.at_time (Mock.sec 1100)) Mock.db_otp_pending))
           "Password updated" MockFacts.verify_accepts_hash_holds).
  vm_compute. reflexivity.
Defined.

Lemma get_bearer_token_reads_bearer_witness :
  _get_bearer_token (Some ("BEARER" ++ " " ++ "abc.def.ghi"))
  = Some "abc.def.ghi".
Proof.
  apply (get_bearer_token_reads_bearer "BEARER" "abc.def.ghi").
  - reflexivity.
  - discriminate.
  - reflexivity.
Defined.

Lemma rate_limit_key_of_issued_token_witness :
  rate_limit_key
    (Some ("Bearer "
           ++ jwt_encode (claims_of 1 "user" "refresh" 604900) SECRET_KEY))
    "203.0.113.9" (Mock.sec 200)
  = Ok (if 604900 <? timegm (Mock.sec 200) then "203.0.113.9"
        else "user:" ++ py_str (PInt 1)).
Proof.
  apply (rate_limit_key_of_issued_token 1 "user" "refresh" 604900
           "203.0.113.9" (Mock.sec 200)
           MockFacts.decode_inverts_encode_holds).
  - vm_compute. discriminate.
  - vm_compute. reflexivity.
Defined.

Lemma extract_object_path_of_public_url_witness :
  BookService._extract_object_path_from_url
    (Some "https://proj.supabase.co/storage/v1/object/public/covers/books/1/ab12.png")
  = if String.eqb (py_strip "books/1/ab12.png") "" then None
    else Some (py_strip "books/1/ab12.png").
Proof.
  apply (extract_object_path_of_public_url "books/1/ab12.png").
  - vm_compute. reflexivity.
  - vm_compute. reflexivity.
Defined.

Lemma delete_existing_file_tolerant_witness :
  BookService._delete_existing_file
    (Some "https://proj.supabase.co/storage/v1/object/public/covers/books/1/ab12.png")
    Mock.gone
  = Ok tt.
Proof.
  apply (delete_existing_file_tolerant
           (Some "https://proj.supabase.co/storage/v1/object/public/covers/books/1/ab12.png")
           Mock.gone).
  - reflexivity.
  - intros url c text H. injection H as <- _. right. right. reflexivity.
Defined.

Lemma delete_existing_file_of_public_url_witness :
  BookService._delete_existing_file
    (Some "https://proj.supabase.co/storage/v1/object/public/covers/books/1/ab12.png")
    Mock.gone
  = match Mock.gone
            (rstrip_char "/" (BookService.setting SUPABASE_URL)
             ++ "/storage/v1/object/" ++ BookService.setting SUPABASE_BUCKET
             ++ "/" ++ "books/1/ab12.png")%string with
    | Response status_code _ =>
        if (negb (status_code =? 200) && negb (status_code =? 204)
            && negb (status_code =? 404))%bool
        then HTTPException HTTP_502_BAD_GATEWAY
               "Failed to delete existing image from storage."
        else Ok tt
    | RequestError => Ok tt
    end.
Proof.
  apply (delete_existing_file_of_public_url "books/1/ab12.png").
  - vm_compute. reflexivity.
  - vm_compute. reflexivity.
  - vm_compute. reflexivity.
  - discriminate.
Defined.

Lemma update_book_only_own_books_witness :
  (forall b' lib',
     Legacy.update_book 2 Mock.new_fields 1 Mock.library = (Ok b', lib') ->
     b_id b' = 2 /\ b_owner_id b' = 1) /\
  ((forall b, In b (books Mock.library) -> b_id b = 2 -> b_owner_id b <> 1) ->
   Legacy.update_book 2 Mock.new_fields 1 Mock.library
   = (HTTPException HTTP_404_NOT_FOUND "Book not found", Mock.library)).
Proof.
  apply (update_book_only_own_books 2 Mock.new_fields 1 Mock.library
           (Mock.row_of Mock.db_registered "a@x.com")).
  - vm_compute. reflexivity.
  - vm_compute. reflexivity.
Defined.

Lemma add_book_then_update_book_witness :
  1 = 1 /\
  ~ In 3 (map b_id (books Mock.library)) /\
  books (snd (Legacy.add_book Mock.new_fields 1 Mock.library))
  = (books Mock.library
     ++ [mkBook 3 "Dune Messiah" "Frank Herbert" (Some 1969) None None None 1])%list /\
  Legacy.update_book 3 (mkBookBase "Children of Dune" "Frank Herbert"
                                   (Some 1976) None None)
                     1 (snd (Legacy.add_book Mock.new_fields 1 Mock.library))
  = (Ok (Legacy.set_book
           (mkBookBase "Children of Dune" "Frank Herbert" (Some 1976) None None)
           (mkBook 3 "Dune Messiah" "Frank Herbert" (Some 1969) None None None 1)),
     mkLibrary (accounts Mock.library)
       (books Mock.library
        ++ [Legacy.set_book
              (mkBookBase "Children of Dune" "Frank Herbert" (Some 1976)
                          None None)
              (mkBook 3 "Dune Messiah" "Frank Herbert" (Some 1969) None None
                      None 1)])).
Proof.
  apply (add_book_then_update_book Mock.new_fields
           (mkBookBase "Children of Dune" "Frank Herbert" (Some 1976) None None)
           1 Mock.library
           (snd (Legacy.add_book Mock.new_fields 1 Mock.library))
           (mkBook 3 "Dune Messiah" "Frank Herbert" (Some 1969) None None None 1)).
  vm_compute. reflexivity.
Defined.

Lemma with_current_user_id_fails_closed_witness :
  is_ok (fst (Legacy.with_current_user_id (Legacy.add_book Mock.new_fields)
                (refresh_token_ Mock.tokens) (Mock.sec 200) Mock.library))
  = false /\
  snd (Legacy.with_current_user_id (Legacy.add_book Mock.new_fields)
         (refresh_token_ Mock.tokens) (Mock.sec 200) Mock.library)
  = Mock.library.
Proof.
  apply (with_current_user_id_fails_closed (Legacy.add_book Mock.new_fields)
           (refresh_token_ Mock.tokens) (Mock.sec 200) Mock.library).
  vm_compute. reflexivity.
Defined.

End AtTheStandIns.

(* ===================================================================== *)
(** ** The text of a reset code *)
(* ===================================================================== *)

Section CodeText.
Import Decimal.

(** The number a big-endian row of decimal digits continues [acc] to. *)
Fixpoint uint_value (acc : Z) (u : uint) : Z :=
  match u with
  | Nil => acc
  | D0 r => uint_value (10 * acc) r
  | D1 r => uint_value (10 * acc + 1) r
  | D2 r => uint_value (10 * acc + 2) r
  | D3 r => uint_value (10 * acc + 3) r
  | D4 r => uint_value (10 * acc + 4) r
  | D5 r => uint_value (10 * acc + 5) r
  | D6 r => uint_value (10 * acc + 6) r
  | D7 r => uint_value (10 * acc + 7) r
  | D8 r => uint_value (10 * acc + 8) r
  | D9 r => uint_value (10 * acc + 9) r
  end.

Fixpoint digits_only (s : string) : bool :=
  match s with
  | EmptyString => true
  | String c r =>
      (match digit_of c with Some _ => true | None => false end
       && digits_only r)%bool
  end.

Lemma of_uint_acc_value (d : uint) (acc : positive) :
  Z.pos (Pos.of_uint_acc d acc) = uint_value (Z.pos acc) d.
Proof.
  revert acc. induction d; intros acc; cbn [Pos.of_uint_acc uint_value];
    try reflexivity; rewrite IHd; apply (f_equal (fun a => uint_value a d));
    lia.
Qed.

Lemma of_uint_value (d : uint) : Z.of_N (Pos.of_uint d) = uint_value 0 d.
Proof.
  induction d; simpl; try reflexivity; try exact IHd;
    rewrite of_uint_acc_value; reflexivity.
Qed.

Lemma to_uint_value (m : N) : uint_value 0 (N.to_uint m) = Z.of_N m.
Proof.
  rewrite <- of_uint_value.
  change (Pos.of_uint (N.to_uint m)) with (N.of_uint (N.to_uint m)).
  now rewrite DecimalN.Unsigned.of_to.
Qed.

Lemma parse_digits_step (c : ascii) (k acc : Z) (b : bool) (r : string) :
  digit_of c = Some k ->
  parse_digits acc b (String c r) = parse_digits (10 * acc + k) true r.
Proof.
  intros D. cbn [parse_digits]. rewrite D.
  destruct (Ascii.eqb_spec c "_"%char) as [->|_]; [|reflexivity].
  vm_compute in D. discriminate.
Qed.

Lemma parse_digits_uint (d : uint) (acc : Z) :
  parse_digits acc true (NilEmpty.string_of_uint d) = Some (uint_value acc d).
Proof.
  revert acc.
  induction d; intros acc; cbn [NilEmpty.string_of_uint uint_value];
    [reflexivity|..];
    (erewrite parse_digits_step by (vm_compute; reflexivity));
    rewrite IHd; apply (f_equal (fun a => Some (uint_value a d))); lia.
Qed.

Lemma parse_digits_uint_start (d : uint) (acc : Z) :
  d <> Nil ->
  parse_digits acc false (NilEmpty.string_of_uint d) = Some (uint_value acc d).
Proof.
  destruct d; intros H; try congruence;
    cbn [NilEmpty.string_of_uint uint_value];
    (erewrite parse_digits_step by (vm_compute; reflexivity));
    rewrite parse_digits_uint;
    apply (f_equal (fun a => Some (uint_value a d))); lia.
Qed.

Lemma parse_digits_zfill (k : nat) (s : string) (b : bool) :
  parse_digits 0 b (zfill k s)
  = parse_digits 0 (match k with O => b | S _ => true end) s.
Proof.
  revert b. induction k as [|k IH]; intros b; [reflexivity|].
  cbn [zfill].
  rewrite (parse_digits_step "0" 0) by reflexivity.
  change (10 * 0 + 0) with 0. rewrite IH. now destruct k.
Qed.

Lemma digits_only_uint (d : uint) :
  digits_only (NilEmpty.string_of_uint d) = true.
Proof. induction d; simpl; auto. Qed.

Lemma digits_only_zfill (k : nat) (s : string) :
  digits_only s = true -> digits_only (zfill k s) = true.
Proof. intros H. induction k; simpl; auto. Qed.

Lemma digit_not_space (c : ascii) (z : Z) :
  digit_of c = Some z -> is_int_space c = false.
Proof.
  destruct c as [[] [] [] [] [] [] [] []]; vm_compute; intros H;
    try reflexivity; discriminate.
Qed.

Lemma digits_only_rev_onto (s acc : string) :
  digits_only (string_rev_onto s acc)
  = (digits_only s && digits_only acc)%bool.
Proof.
  revert acc. induction s as [|c r IH]; intros acc; [reflexivity|].
  cbn [string_rev_onto digits_only]. rewrite IH. cbn [digits_only].
  destruct (digit_of c); cbn; [reflexivity|].
  now rewrite andb_false_r.
Qed.

Lemma lstrip_digits (s : string) : digits_only s = true -> lstrip s = s.
Proof.
  destruct s as [|c r]; [reflexivity|]. cbn [digits_only lstrip].
  destruct (digit_of c) as [z|] eqn:D; [|discriminate].
  now rewrite (digit_not_space c z D).
Qed.

Lemma string_rev_onto_twice (s a b : string) :
  string_rev_onto (string_rev_onto s a) b = string_rev_onto a (s ++ b).
Proof.
  revert a b. induction s as [|c r IH]; intros a b; [reflexivity|].
  cbn [string_rev_onto]. rewrite IH. reflexivity.
Qed.

Lemma strip_digits (s : string) : digits_only s = true -> strip s = s.
Proof.
  intros H. unfold strip, string_rev.
  rewrite (lstrip_digits s H).
  rewrite lstrip_digits
    by (rewrite digits_only_rev_onto, H; reflexivity).
  rewrite string_rev_onto_twice. cbn [string_rev_onto].
  induction s as [|c r IH]; [reflexivity|]. cbn [String.append].
  f_equal. apply IH. cbn [digits_only] in H.
  now apply andb_prop in H.
Qed.

Lemma count_digits_le_length (s : string) :
  count_digits s <= Z.of_nat (String.length s).
Proof.
  induction s as [|c r IH]; [cbn; lia|].
  cbn [count_digits String.length]. rewrite Nat2Z.inj_succ.
  destruct (digit_of c); lia.
Qed.

(** A text of digits, not too many, is read by [int(...)] as its digits
    are. *)
Lemma int_of_str_digits (s : string) :
  digits_only s = true ->
  Z.of_nat (String.length s) <= int_max_str_digits ->
  int_of_str s = parse_digits 0 false s.
Proof.
  intros H Len.
  assert (int_of_digits s = parse_digits 0 false s) as D.
  { unfold int_of_digits. pose proof (count_digits_le_length s).
    destruct (Z.ltb_spec int_max_str_digits (count_digits s)); [lia|].
    reflexivity. }
  unfold int_of_str. rewrite (strip_digits s H).
  destruct s as [|c r]; [exact D|].
  cbn [digits_only] in H. apply andb_prop in H as [H _].
  destruct c as [[] [] [] [] [] [] [] []];
    try exact D; vm_compute in H; discriminate.
Qed.

Lemma length_string_of_uint (d : uint) :
  String.length (NilEmpty.string_of_uint d) = nb_digits d.
Proof. induction d; simpl; congruence. Qed.

Lemma length_zfill (k : nat) (s : string) :
  String.length (zfill k s) = (k + String.length s)%nat.
Proof. induction k; simpl; congruence. Qed.

Lemma uint_value_lower (u : uint) (acc : Z) :
  0 <= acc -> acc * 10 ^ Z.of_nat (nb_digits u) <= uint_value acc u.
Proof.
  revert acc. induction u; intros acc H; cbn [nb_digits uint_value];
    [rewrite Z.pow_0_r; lia|..];
    rewrite Nat2Z.inj_succ, Z.pow_succ_r by lia;
    (etransitivity; [|apply IHu; lia]);
    assert (0 < 10 ^ Z.of_nat (nb_digits u)) by (apply Z.pow_pos_nonneg; lia);
    nia.
Qed.

Lemma nzhead_not_D0 (u r : uint) : nzhead u <> D0 r.
Proof. induction u; simpl; auto; discriminate. Qed.

Lemma nb_digits_to_uint (m : N) :
  (m < 1000000)%N -> (nb_digits (N.to_uint m) <= 6)%nat /\ N.to_uint m <> Nil.
Proof.
  intros L.
  pose proof (to_uint_value m) as V.
  pose proof (DecimalN.Unsigned.to_of (N.to_uint m)) as F.
  rewrite DecimalN.Unsigned.of_to in F.
  set (u := N.to_uint m) in *.
  assert (forall k r, 1 <= k -> uint_value k r = Z.of_N m ->
                      (nb_digits r < 6)%nat) as Bound.
  { intros k r Hk E.
    pose proof (uint_value_lower r k ltac:(lia)) as Lo.
    assert (10 ^ Z.of_nat (nb_digits r) < 10 ^ 6) as P.
    { assert (0 < 10 ^ Z.of_nat (nb_digits r))
        by (apply Z.pow_pos_nonneg; lia).
      change (10 ^ 6) with 1000000. nia. }
    apply Z.pow_lt_mono_r_iff in P; lia. }
  unfold unorm in F.
  destruct u as [|r|r|r|r|r|r|r|r|r|r]; cbn [uint_value nb_digits] in *.
  - discriminate.
  - split; [|discriminate]. cbn [nzhead] in F.
    destruct (nzhead r) eqn:Z0; try discriminate.
    + injection F as ->. simpl. lia.
    + now elim (nzhead_not_D0 r u).
  - split; [|discriminate]. specialize (Bound 1 r). cbn in V. lia.
  - split; [|discriminate]. specialize (Bound 2 r). cbn in V. lia.
  - split; [|discriminate]. specialize (Bound 3 r). cbn in V. lia.
  - split; [|discriminate]. specialize (Bound 4 r). cbn in V. lia.
  - split; [|discriminate]. specialize (Bound 5 r). cbn in V. lia.
  - split; [|discriminate]. specialize (Bound 6 r). cbn in V. lia.
  - split; [|discriminate]. specialize (Bound 7 r). cbn in V. lia.
  - split; [|discriminate]. specialize (Bound 8 r). cbn in V. lia.
  - split; [|discriminate]. specialize (Bound 9 r). cbn in V. lia.
Qed.

Lemma string_of_uint_nonnil (d : uint) :
  d <> Nil -> NilZero.string_of_uint d = NilEmpty.string_of_uint d.
Proof. destruct d; intros H; [congruence|reflexivity..]. Qed.

(** X30. The text of a reset code: for a draw below a million,
    [f"{n:06d}"] has exactly six characters and [int(...)] reads the draw
    back from it, so two different draws never give the same code. *)
Theorem format_06d_six_digits (n : Z) :
  0 <= n < 1000000 ->
  String.length (format_06d n) = 6%nat /\
  int_of_str (format_06d n) = Some n /\
  forall m, 0 <= m < 1000000 -> format_06d m = format_06d n -> m = n.
Proof.
  assert (forall k, 0 <= k < 1000000 ->
            String.length (format_06d k) = 6%nat /\
            int_of_str (format_06d k) = Some k) as Main.
  { intros k Hk. unfold format_06d.
    destruct (Z.ltb_spec k 0) as [?|_]; [lia|].
    rewrite Z.abs_eq by lia.
    destruct (nb_digits_to_uint (Z.to_N k) ltac:(lia)) as [Nb NN].
    pose proof (to_uint_value (Z.to_N k)) as V. rewrite Z2N.id in V by lia.
    set (u := N.to_uint (Z.to_N k)) in *.
    rewrite (string_of_uint_nonnil u NN).
    split.
    - rewrite length_zfill, length_string_of_uint. lia.
    - rewrite int_of_str_digits;
        [|apply digits_only_zfill, digits_only_uint
         |rewrite length_zfill, length_string_of_uint;
          unfold int_max_str_digits; lia].
      rewrite parse_digits_zfill.
      destruct (6 - _)%nat;
        [rewrite parse_digits_uint_start by exact NN
        |rewrite parse_digits_uint]; now rewrite V. }
  intros Hn. destruct (Main n Hn) as [L R]. repeat split; auto.
  intros m Hm E. destruct (Main m Hm) as [_ Rm].
  rewrite E, R in Rm. now injection Rm.
Qed.

Lemma format_06d_six_digits_witness :
  String.length (format_06d 42) = 6%nat /\
  int_of_str (format_06d 42) = Some 42 /\
  forall m, 0 <= m < 1000000 -> format_06d m = format_06d 42 -> m = 42.
Proof. apply (format_06d_six_digits 42). lia. Defined.

End CodeText.
